(** * RabbitBM: FASTQ readers of [src/fastqreader.cpp]

    A shallow embedding of the record reader ([FastqReader], [FastqReaderPair])
    and of the paired chunk splitter ([FastqChunkReaderPair]) together with the
    properties of the specification that concern them.

    Conventions.
    - A byte is an [ascii]; a raw pointer [dsrc::uchar *] is a total map from
      offsets to bytes ([mem]): the source indexes it without any bounds
      check, so the map also answers for offsets outside the buffer.
    - [uint64] and [int64] values are integers in [Z]; the increments of the
      unsigned scan position wrap at 2^64 ([u64]).
    - Loads through a raw pointer and the evaluation of [ASSERT] are recorded
      in a trace ([W]), so that statements about which offsets are read can be
      made about the same definitions that compute the results. *)

From Stdlib Require Import Ascii String ZArith List Bool Lia.
Import ListNotations.
Open Scope Z_scope.

(** ** Bytes and raw memory *)

Definition LF : ascii := "010"%char.
Definition CR : ascii := "013"%char.
Definition NUL : ascii := "000"%char.
Definition AT : ascii := "@"%char.
Definition PLUS : ascii := "+"%char.

Definition mem : Type := Z -> ascii.

(** A buffer seen through a pointer to its first byte: inside the buffer the
    bytes of [l], outside whatever the surrounding memory [wild] holds. *)
Definition ptr (wild : mem) (l : list ascii) : mem :=
  fun i =>
    if (0 <=? i) && (i <? Z.of_nat (length l))
    then nth (Z.to_nat i) l NUL
    else wild i.

Definition zeros : mem := fun _ => NUL.

(** [holds data p l]: the bytes of [l] lie in [data] from offset [p] on. *)
Definition holds (data : mem) (p : Z) (l : list ascii) : Prop :=
  forall i, (i < length l)%nat -> data (p + Z.of_nat i) = nth i l NUL.

Definition u64 (x : Z) : Z := x mod 2 ^ 64.
Definition i64 (x : Z) : Z := if x mod 2 ^ 64 <? 2 ^ 63 then x mod 2 ^ 64 else x mod 2 ^ 64 - 2 ^ 64.

(** The [uint64] an [int64] value converts to: a negative value wraps. *)
Definition u64_of_i64 (x : Z) : Z := if x <? 0 then x + 2 ^ 64 else x.

Definition is_eol (c : ascii) : bool := (c =? LF)%char || (c =? CR)%char.

(** ** Traced computations *)

Inductive event : Type :=
| Load (i : Z)            (* data_[i] was read *)
| Assert (holds : bool)   (* ASSERT(e) was evaluated, e had this value *)
| Cout (c : ascii).       (* "core dump is " << c *)

Definition W (A : Type) : Type := (A * list event)%type.

Definition ret {A : Type} (a : A) : W A := (a, []).

Definition bind {A B : Type} (m : W A) (f : A -> W B) : W B :=
  let (a, t) := m in
  let (b, t') := f a in
  (b, t ++ t').

Notation "x <- m ;; k" := (bind m (fun x => k))
  (at level 61, m at next level, right associativity).
Notation "' p <- m ;; k" := (bind m (fun x => let 'p := x in k))
  (at level 61, p pattern, m at next level, right associativity).

Definition load (data_ : mem) (i : Z) : W ascii := (data_ i, [Load i]).

(** [ASSERT] is a macro of a header that is not among the sources.  It is
    taken to evaluate its condition and to go on; the trace keeps the value. *)
Definition ASSERT (b : bool) : W unit := (tt, [Assert b]).

Definition cout (c : ascii) : W unit := (tt, [Cout c]).

(** A trace is safe for a buffer of [size_] bytes when every load stays below
    [size_] and every assertion held. *)
Definition safe_event (size_ : Z) (e : event) : bool :=
  match e with
  | Load i => (0 <=? i) && (i <? size_)
  | Assert b => b
  | Cout _ => true
  end.

Definition safe_trace (size_ : Z) (t : list event) : bool :=
  forallb (safe_event size_) t.

(** ** Buffers kept as lists *)

(** [std::copy(src.begin(), src.end(), dst + off)] on buffers kept as lists. *)
Definition store (dst : list ascii) (off : Z) (src : list ascii) : list ascii :=
  firstn (Z.to_nat off) dst ++ src ++ skipn (Z.to_nat off + length src) dst.

(** The bytes [l[lo .. hi)]; an inverted or outlying range, undefined in the
    source, is cut down to the part that exists. *)
Definition slice (l : list ascii) (lo hi : Z) : list ascii :=
  firstn (Z.to_nat (hi - lo)) (skipn (Z.to_nat lo) l).

(** ** Test inputs *)

Inductive Terminator : Type := TermLF | TermCR | TermCRLF.

Definition term_bytes (t : Terminator) : list ascii :=
  match t with
  | TermLF => [LF]
  | TermCR => [CR]
  | TermCRLF => [CR; LF]
  end.

Definition bytes (s : string) : list ascii := list_ascii_of_string s.

(** The given lines, each followed by the terminator [t]. *)
Definition unlines (t : Terminator) (ls : list string) : list ascii :=
  concat (map (fun l => bytes l ++ term_bytes t) ls).

(** ** FASTQ records as bytes *)

Record FastqRecord : Type := {
  rec_name : list ascii;
  rec_sequence : list ascii;
  rec_strand : list ascii;
  rec_quality : list ascii
}.

Definition no_eol (l : list ascii) : bool := forallb (fun c => negb (is_eol c)) l.

Definition starts_with (c : ascii) (l : list ascii) : bool :=
  match l with
  | x :: _ => (x =? c)%char
  | [] => false
  end.

(** A four-line record: no field holds a line terminator, the name begins
    with ['@'], the separator with ['+'], and the sequence does not begin
    with ['@'].  The quality is free to begin with ['@']. *)
Definition well_formed (r : FastqRecord) : bool :=
  no_eol (rec_name r) && no_eol (rec_sequence r)
  && no_eol (rec_strand r) && no_eol (rec_quality r)
  && starts_with AT (rec_name r) && starts_with PLUS (rec_strand r)
  && negb (starts_with AT (rec_sequence r)).

(** The lines of a list, each followed by the terminator [t]. *)
Definition render_lines (t : Terminator) (ls : list (list ascii)) : list ascii :=
  concat (map (fun l => l ++ term_bytes t) ls).

Definition record_lines (r : FastqRecord) : list (list ascii) :=
  [rec_name r; rec_sequence r; rec_strand r; rec_quality r].

Definition render (t : Terminator) (r : FastqRecord) : list ascii :=
  render_lines t (record_lines r).

(** The terminator of the first line of a file, if it has one. *)
Fixpoint first_terminator (file : list ascii) : option Terminator :=
  match file with
  | [] => None
  | c :: rest =>
      if (c =? LF)%char then Some TermLF
      else if (c =? CR)%char then
        match rest with
        | c' :: _ => if (c' =? LF)%char then Some TermCRLF else Some TermCR
        | [] => Some TermCR
        end
      else first_terminator rest
  end.

(** [n] copies of the four-line record with name [nm], sequence [sq],
    separator ["+"] and quality [ql], lines ended by [t]. *)
Definition records (t : Terminator) (n : nat) (nm sq ql : string) : list ascii :=
  concat (repeat (unlines t [nm; sq; "+"%string; ql]) n).

(** ** Outcomes of the record readers *)

(** A call either returns a value and leaves a state, or ends the process
    ([error_exit]), or goes through a null pointer, or is still looping when
    the fuel of its unbounded loop is used up. *)
Inductive result (S A : Type) : Type :=
| Ok (a : A) (s : S)
| Exit (msg : string)
| Crash
| Spin.

Arguments Ok {S A} a s.
Arguments Exit {S A} msg.
Arguments Crash {S A}.
Arguments Spin {S A}.

(** Modelled from the spec: [ends_with] of [util.h], which is not among the
    sources ("detect compression by suffix"): [s] ends with [suffix]. *)
Definition ends_with (s suffix : string) : bool :=
  let n := String.length s in
  let m := String.length suffix in
  (m <=? n)%nat && String.eqb (substring (n - m) m s) suffix.

(** The object the external [Read] constructor builds from four strings and
    the Phred-64 flag. *)
Record Read : Type := {
  mName : string;
  mSeq : string;
  mStrand : string;
  mQuality : string;
  mHasPhred64 : bool
}.

(** The object the external [ReadPair] constructor builds. *)
Record ReadPair : Type := {
  pair_left : Read;
  pair_right : Read
}.

Module FastqReader.

(** [#define FQ_BUF_SIZE (1<<20)] *)
Definition FQ_BUF_SIZE : Z := Z.shiftl 1 20.

(** The members of the class.  The stream behind [mFile] / [mZipFile] is
    modelled from the spec ("[read(dst, n) -> k]: fills up to [n] bytes into
    [dst]; returns 0 at EOF; fails [...] on any underlying error"): its unread
    bytes, after decompression; its end-of-file indicator, which a read that
    comes up short raises; and whether the gzip data cannot be decoded, in
    which case [gzread] answers -1.  [mBuf] holds the bytes written to the
    buffer so far; the rest of its [FQ_BUF_SIZE] bytes was never written. *)
Record t : Type := {
  mFilename : string;
  mFile : list ascii;
  mFileEof : bool;
  mFileBroken : bool;
  mZipFileNull : bool;            (* [mZipFile == NULL] *)
  mZipped : bool;
  mPhred64 : bool;
  mHasQuality : bool;
  mBuf : list ascii;
  mBufDataLen : Z;
  mBufUsedLen : Z;
  mHasNoLineBreakAtEnd : bool;
  cerr : list string              (* the lines written to the error stream *)
}.

Definition set_mBufUsedLen (r : t) (n : Z) : t :=
  {| mFilename := mFilename r; mFile := mFile r; mFileEof := mFileEof r;
     mFileBroken := mFileBroken r; mZipFileNull := mZipFileNull r; mZipped := mZipped r;
     mPhred64 := mPhred64 r; mHasQuality := mHasQuality r; mBuf := mBuf r;
     mBufDataLen := mBufDataLen r; mBufUsedLen := n;
     mHasNoLineBreakAtEnd := mHasNoLineBreakAtEnd r; cerr := cerr r |}.

Definition write_cerr (r : t) (lines : list string) : t :=
  {| mFilename := mFilename r; mFile := mFile r; mFileEof := mFileEof r;
     mFileBroken := mFileBroken r; mZipFileNull := mZipFileNull r; mZipped := mZipped r;
     mPhred64 := mPhred64 r; mHasQuality := mHasQuality r; mBuf := mBuf r;
     mBufDataLen := mBufDataLen r; mBufUsedLen := mBufUsedLen r;
     mHasNoLineBreakAtEnd := mHasNoLineBreakAtEnd r; cerr := (cerr r ++ lines)%list |}.

(** [bool FastqReader::hasNoLineBreakAtEnd()] *)
Definition hasNoLineBreakAtEnd (r : t) : bool := mHasNoLineBreakAtEnd r.

(** [bool FastqReader::eof()]: [gzeof] or [feof]. *)
Definition eof (r : t) : bool := mFileEof r.

(** [std::string(mBuf + start, len)] *)
Definition substr (mBuf : list ascii) (start len : Z) : string :=
  string_of_list_ascii (slice mBuf start (start + len)).

(** [while (end < mBufDataLen) { if (mBuf[end] != '\r' && mBuf[end] != '\n')
    end++; else break; }]: at most [mBufDataLen - end] rounds, counted by [n]. *)
Fixpoint scan_line (n : nat) (mBuf : mem) (end_ mBufDataLen : Z) : Z :=
  match n with
  | O => end_
  | S n' =>
      if end_ <? mBufDataLen then
        if negb (mBuf end_ =? CR)%char && negb (mBuf end_ =? LF)%char
        then scan_line n' mBuf (end_ + 1) mBufDataLen
        else end_
      else end_
  end.

Section Reader.

(** What lies around [mBuf] in memory. *)
Variable wild : mem.

Definition readToBuf (r : t) : result t unit :=
  if mZipped r && mFileBroken r then
    Exit ("Error to read gzip file: " ++ mFilename r)
  else
    let got := firstn (Z.to_nat FQ_BUF_SIZE) (mFile r) in
    let mBufDataLen := Z.of_nat (length got) in
    let mBuf := store (mBuf r) 0 got in
    Ok tt
       {| mFilename := mFilename r;
          mFile := skipn (Z.to_nat FQ_BUF_SIZE) (mFile r);
          mFileEof := mFileEof r || (mBufDataLen <? FQ_BUF_SIZE);
          mFileBroken := mFileBroken r; mZipFileNull := mZipFileNull r;
          mZipped := mZipped r; mPhred64 := mPhred64 r; mHasQuality := mHasQuality r;
          mBuf := mBuf;
          mBufDataLen := mBufDataLen;
          mBufUsedLen := 0;
          mHasNoLineBreakAtEnd :=
            if mBufDataLen <? FQ_BUF_SIZE then
              if negb (ptr wild mBuf (mBufDataLen - 1) =? LF)%char then true
              else mHasNoLineBreakAtEnd r
            else mHasNoLineBreakAtEnd r;
          cerr := cerr r |}.

(** The [while (true)] loop of [getLine], entered when the line is not
    contained in the buffer.  Another round is made only after a refill that
    filled the whole buffer without a terminator, so the stream shrinks by
    [FQ_BUF_SIZE] bytes per round; [n] counts the rounds left. *)
Fixpoint getLine_refill (n : nat) (r : t) (str : string) : result t string :=
  match readToBuf r with
  | Ok _ r =>
      let start := 0 in
      let end_ := scan_line (Z.to_nat (mBufDataLen r)) (ptr wild (mBuf r)) 0 (mBufDataLen r) in
      (* this line well contained in this buf, we need to read new buf *)
      if (end_ <? mBufDataLen r) || (mBufDataLen r <? FQ_BUF_SIZE) then
        let len := end_ - start in
        let str := (str ++ substr (mBuf r) start len)%string in
        (* skip \n or \r *)
        let end_ := end_ + 1 in
        (* handle \r\n *)
        let end_ :=
          if (end_ <? mBufDataLen r - 1) && (ptr wild (mBuf r) end_ =? LF)%char
          then end_ + 1 else end_ in
        Ok str (set_mBufUsedLen r end_)
      else
        (* even this new buf is not enough, although impossible *)
        let str := (str ++ substr (mBuf r) start (mBufDataLen r))%string in
        match n with
        | S n' => getLine_refill n' r str
        | O => Spin
        end
  | Exit msg => Exit msg
  | Crash => Crash
  | Spin => Spin
  end.

(** [string FastqReader::getLine()].  The static call counter [c] of the
    source is written and never read; it is left out. *)
Definition getLine (r : t) : result t string :=
  let start := mBufUsedLen r in
  let end_ := scan_line (Z.to_nat (mBufDataLen r - start)) (ptr wild (mBuf r))
                start (mBufDataLen r) in
  (* this line well contained in this buf, or this is the last buf *)
  if (end_ <? mBufDataLen r) || (mBufDataLen r <? FQ_BUF_SIZE) then
    let len := end_ - start in
    let line := substr (mBuf r) start len in
    (* skip \n or \r *)
    let end_ := end_ + 1 in
    (* handle \r\n *)
    let end_ :=
      if (end_ <? mBufDataLen r - 1) && (ptr wild (mBuf r) (end_ - 1) =? CR)%char
         && (ptr wild (mBuf r) end_ =? LF)%char
      then end_ + 1 else end_ in
    Ok line (set_mBufUsedLen r end_)
  else
    (* this line is not contained in this buf, we need to read new buf *)
    let str := substr (mBuf r) start (mBufDataLen r - start) in
    getLine_refill (length (mFile r)) r str.

Definition empty (s : string) : bool := String.eqb s "".

(** [name[0] != '@'] for a non-empty [name]. *)
Definition first_is_not_at (name : string) : bool :=
  match name with
  | String c _ => negb (c =? AT)%char
  | EmptyString => true
  end.

(** [while ((name.empty() && !(mBufUsedLen >= mBufDataLen && eof()))
            || (!name.empty() && name[0] != '@')) name = getLine();]
    [fuel] bounds the number of lines dropped. *)
Fixpoint skip_to_name (fuel : nat) (name : string) (r : t) : result t string :=
  if (empty name && negb ((mBufUsedLen r >=? mBufDataLen r) && eof r))
     || (negb (empty name) && first_is_not_at name)
  then
    match fuel with
    | S fuel' =>
        match getLine r with
        | Ok name r => skip_to_name fuel' name r
        | Exit msg => Exit msg
        | Crash => Crash
        | Spin => Spin
        end
    | O => Spin
    end
  else Ok name r.

Definition mismatch_report (name sequence strand quality : string) : list string :=
  ["ERROR: sequence and quality have different length:";
   name; sequence; strand; quality]%string.

(** [Read *FastqReader::read()]; [None] is the [NULL] result. *)
Definition read (fuel : nat) (r : t) : result t (option Read) :=
  if mZipped r && mZipFileNull r then Ok None r
  else if (mBufUsedLen r >=? mBufDataLen r) && eof r then Ok None r
  else
    match getLine r with
    | Ok name r =>
    (* name should start with @ *)
    match skip_to_name fuel name r with
    | Ok name r =>
    if empty name then Ok None r
    else
    match getLine r with
    | Ok sequence r =>
    match getLine r with
    | Ok strand r =>
    (* WAR for FQ with no quality *)
    if negb (mHasQuality r) then
      let quality := string_of_list_ascii (repeat "K"%char (String.length sequence)) in
      Ok (Some {| mName := name; mSeq := sequence; mStrand := strand;
                  mQuality := quality; mHasPhred64 := mPhred64 r |}) r
    else
      match getLine r with
      | Ok quality r =>
          if negb (String.length quality =? String.length sequence)%nat then
            Ok None (write_cerr r (mismatch_report name sequence strand quality))
          else
            Ok (Some {| mName := name; mSeq := sequence; mStrand := strand;
                        mQuality := quality; mHasPhred64 := mPhred64 r |}) r
      | Exit msg => Exit msg | Crash => Crash | Spin => Spin
      end
    | Exit msg => Exit msg | Crash => Crash | Spin => Spin
    end
    | Exit msg => Exit msg | Crash => Crash | Spin => Spin
    end
    | Exit msg => Exit msg | Crash => Crash | Spin => Spin
    end
    | Exit msg => Exit msg | Crash => Crash | Spin => Spin
    end.

(** The constructor followed by [init()]: [file] is the content behind
    [filename], [None] when it cannot be opened; [broken] tells whether gzip
    data fails to decode.  [gzopen]'s result is not checked by the source: a
    gzip file that cannot be opened makes the first [gzread] fail. *)
Definition new (filename : string) (file : option (list ascii)) (broken : bool)
    (hasQuality phred64 : bool) : result t unit :=
  let zipped := ends_with filename ".gz" in
  match file, zipped with
  | None, false => Exit ("Failed to open file: " ++ filename)
  | _, _ =>
      readToBuf
        {| mFilename := filename;
           mFile := match file with Some bs => bs | None => [] end;
           mFileEof := false;
           mFileBroken := match file with Some _ => broken | None => true end;
           mZipFileNull := match file with Some _ => negb zipped | None => true end;
           mZipped := zipped; mPhred64 := phred64; mHasQuality := hasQuality;
           mBuf := []; mBufDataLen := 0; mBufUsedLen := 0;
           mHasNoLineBreakAtEnd := false; cerr := [] |}
  end.

(** [n] successive calls of [getLine]: the lines returned, in order. *)
Fixpoint getLines (n : nat) (r : t) : list string * result t unit :=
  match n with
  | O => ([], Ok tt r)
  | S n' =>
      match getLine r with
      | Ok line r => let (ls, final) := getLines n' r in (line :: ls, final)
      | Exit msg => ([], Exit msg)
      | Crash => ([], Crash)
      | Spin => ([], Spin)
      end
  end.

End Reader.

(** [strlen]: the number of bytes in front of the first [NUL] of a buffer
    (the length of the buffer when it holds none). *)
Fixpoint strlen (line : list ascii) : nat :=
  match line with
  | [] => O
  | c :: rest => if (c =? NUL)%char then O else S (strlen rest)
  end.

(** The conversion of a length to [int]. *)
Definition to_int (x : Z) : Z := (x + 2 ^ 31) mod 2 ^ 32 - 2 ^ 31.

(** [void FastqReader::clearLineBreaks(char *line)]: [line] is the array the
    pointer refers to, the result is the array after the call. *)
Definition clearLineBreaks (line : list ascii) : list ascii :=
  (* trim \n, \r or \r\n in the tail *)
  let readed := to_int (Z.of_nat (strlen line)) in
  if readed >=? 2 then
    if (nth (Z.to_nat (readed - 1)) line NUL =? LF)%char
       || (nth (Z.to_nat (readed - 1)) line NUL =? CR)%char
    then
      let line := store line (readed - 1) [NUL] in
      if (nth (Z.to_nat (readed - 2)) line NUL =? CR)%char
      then store line (readed - 2) [NUL]
      else line
    else line
  else line.

(** [bool FastqReader::isZipFastq(string filename)] *)
Definition isZipFastq (filename : string) : bool :=
  if ends_with filename ".fastq.gz" then true
  else if ends_with filename ".fq.gz" then true
  else if ends_with filename ".fasta.gz" then true
  else if ends_with filename ".fa.gz" then true
  else false.

(** [bool FastqReader::isFastq(string filename)] *)
Definition isFastq (filename : string) : bool :=
  if ends_with filename ".fastq" then true
  else if ends_with filename ".fq" then true
  else if ends_with filename ".fasta" then true
  else if ends_with filename ".fa" then true
  else false.

(** [bool FastqReader::isZipped()] *)
Definition isZipped (r : t) : bool := mZipped r.

End FastqReader.

Module FastqReaderPair.

(** The members of the class; [mRight] is [NULL] in interleaved mode. *)
Record t : Type := {
  mLeft : FastqReader.t;
  mRight : option FastqReader.t;
  mInterleaved : bool
}.

Section Pair.

Variable wild : mem.

(** [if (!l || !r) return NULL; else return new ReadPair(l, r);] *)
Definition pair_or_null (l r : option Read) : option ReadPair :=
  match l, r with
  | Some l, Some r => Some {| pair_left := l; pair_right := r |}
  | _, _ => None
  end.

(** [ReadPair *FastqReaderPair::read()] *)
Definition read (fuel : nat) (p : t) : result t (option ReadPair) :=
  match FastqReader.read wild fuel (mLeft p) with
  | Ok l left_ =>
      if mInterleaved p then
        match FastqReader.read wild fuel left_ with
        | Ok r left_ =>
            Ok (pair_or_null l r)
               {| mLeft := left_; mRight := mRight p; mInterleaved := mInterleaved p |}
        | Exit msg => Exit msg | Crash => Crash | Spin => Spin
        end
      else
        match mRight p with
        | Some right_ =>
            match FastqReader.read wild fuel right_ with
            | Ok r right_ =>
                Ok (pair_or_null l r)
                   {| mLeft := left_; mRight := Some right_; mInterleaved := mInterleaved p |}
            | Exit msg => Exit msg | Crash => Crash | Spin => Spin
            end
        | None => Crash
        end
  | Exit msg => Exit msg | Crash => Crash | Spin => Spin
  end.

(** [n] successive calls of [read]: the results, in order, and the readers
    after the last call. *)
Fixpoint reads (n fuel : nat) (p : t) : list (option ReadPair) * result t unit :=
  match n with
  | O => ([], Ok tt p)
  | S n' =>
      match read fuel p with
      | Ok x p => let (xs, final) := reads n' fuel p in (x :: xs, final)
      | Exit msg => ([], Exit msg)
      | Crash => ([], Crash)
      | Spin => ([], Spin)
      end
  end.

End Pair.

End FastqReaderPair.

Module FastqChunkReaderPair.

(** ** Line counting and the record-boundary scanner *)

(** [count_line]: the number of ['\n'] among the first [read_bytes] bytes.
    The loop runs [i] from 0 while [i < read_bytes]. *)
Fixpoint count_line_from (n : nat) (contenx : mem) (i : Z) : Z :=
  match n with
  | O => 0
  | S n' => (if (contenx i =? LF)%char then 1 else 0) + count_line_from n' contenx (i + 1)
  end.

Definition count_line (contenx : mem) (read_bytes : Z) : Z :=
  count_line_from (Z.to_nat read_bytes) contenx 0.

(** The scanning loop of [SkipToEol]:
    [while (data_[pos_] != '\n' && data_[pos_] != '\r' && pos_ < size_) ++pos_;]
    The byte is read before the bound is tested.  The loop body runs only
    under [pos_ < size_], so it runs at most [size_ - pos_] times, which is
    what [n] counts; the increment cannot wrap there. *)
Fixpoint SkipToEol_loop (n : nat) (data_ : mem) (pos_ size_ : Z) : W Z :=
  c <- load data_ pos_ ;;
  if negb (c =? LF)%char && negb (c =? CR)%char && (pos_ <? size_) then
    match n with
    | S n' => SkipToEol_loop n' data_ (pos_ + 1) size_
    | O => ret pos_
    end
  else ret pos_.

(** [SkipToEol(data_, pos_, size_)]; [pos_] is passed by reference and
    [usesCrlf] is a member: both are returned. *)
Definition SkipToEol (data_ : mem) (pos_ size_ : Z) (usesCrlf : bool) : W (Z * bool) :=
  _ <- ASSERT (pos_ <? size_) ;;
  pos_ <- SkipToEol_loop (Z.to_nat (size_ - pos_)) data_ pos_ size_ ;;
  c <- load data_ pos_ ;;
  if (c =? CR)%char && (pos_ <? size_) then
    c' <- load data_ (pos_ + 1) ;;
    if (c' =? LF)%char then ret (pos_ + 1, true) else ret (pos_, usesCrlf)
  else ret (pos_, usesCrlf).

(** [while (data_[pos_] != '@') { SkipToEol(data_, pos_, size_); ++pos_; }]
    Nothing bounds this loop in the source; [fuel] bounds the number of lines
    skipped and [None] means that the bound was reached. *)
Fixpoint find_at (fuel : nat) (data_ : mem) (pos_ size_ : Z) (usesCrlf : bool)
  : W (option (Z * bool)) :=
  c <- load data_ pos_ ;;
  if negb (c =? AT)%char then
    match fuel with
    | S fuel' =>
        '(pos_, usesCrlf) <- SkipToEol data_ pos_ size_ usesCrlf ;;
        find_at fuel' data_ (u64 (pos_ + 1)) size_ usesCrlf
    | O => ret None
    end
  else ret (Some (pos_, usesCrlf)).

Definition GetNextRecordPos (fuel : nat) (data_ : mem) (pos_ size_ : Z) (usesCrlf : bool)
  : W (option (Z * bool)) :=
  '(pos_, usesCrlf) <- SkipToEol data_ pos_ size_ usesCrlf ;;
  let pos_ := u64 (pos_ + 1) in
  (* find beginning of the next record *)
  found <- find_at fuel data_ pos_ size_ usesCrlf ;;
  match found with
  | None => ret None
  | Some (pos_, usesCrlf) =>
      let pos0 := pos_ in
      '(pos_, usesCrlf) <- SkipToEol data_ pos_ size_ usesCrlf ;;
      let pos_ := u64 (pos_ + 1) in
      c <- load data_ pos_ ;;
      if (c =? AT)%char then        (* previous one was a quality field *)
        ret (Some (pos_, usesCrlf))
      else
        '(pos_, usesCrlf) <- SkipToEol data_ pos_ size_ usesCrlf ;;
        let pos_ := u64 (pos_ + 1) in
        c <- load data_ pos_ ;;
        _ <- (if negb (c =? PLUS)%char then c' <- load data_ pos_ ;; cout c' else ret tt) ;;
        c <- load data_ pos_ ;;
        _ <- ASSERT (c =? PLUS)%char ;;   (* pos0 was the start of tag *)
        ret (Some (pos0, usesCrlf))
  end.

(** ** Chunks, chunk pools and byte sources *)

Record FastqDataChunk : Type := {
  data : list ascii;     (* the whole buffer, [data.Size()] bytes, stale bytes included *)
  size : Z               (* the used length, a [uint64]: sums and differences
                            stored in it are reduced modulo 2^64 *)
}.

Record ChunkPair : Type := {
  leftpart : FastqDataChunk;
  rightpart : FastqDataChunk
}.

(** Modelled from the spec: the chunk pool ([dsrc::fq::FastqDataPool] is not
    among the sources).  "Bounded free-list [...]. [acquire()] returns a chunk
    (blocking if none available); [release(chunk)] resets [size = 0] and
    returns it to the free list."  A buffer keeps its bytes while it sits in
    the pool.  The two counters record the calls. *)
Record FastqDataPool : Type := {
  available : list (list ascii);
  acquired : nat;
  released : nat
}.

(** Modelled from the spec: [Acquire] of the pool takes the first buffer of
    the free list; [None] when the list is empty and the call blocks. *)
Definition Acquire (p : FastqDataPool) : option (list ascii * FastqDataPool) :=
  match available p with
  | [] => None
  | b :: rest =>
      Some (b, {| available := rest; acquired := S (acquired p); released := released p |})
  end.

(** Modelled from the spec: [Release] of the pool puts the buffer back in
    front of the free list. *)
Definition Release (p : FastqDataPool) (c : FastqDataChunk) : FastqDataPool :=
  {| available := data c :: available p; acquired := acquired p; released := S (released p) |}.

(** Modelled from the spec: the byte source behind [mLeft->Read(dst, n)]
    ([dsrc::fq::FastqReader] is not among the sources).  "[read(dst, n) -> k]:
    fills up to [n] bytes into [dst]; returns 0 at EOF."  The source is the
    list of its unread bytes; the result is the bytes delivered and the bytes
    left. *)
Definition Read (src : list ascii) (n : Z) : list ascii * list ascii :=
  (firstn (Z.to_nat n) src, skipn (Z.to_nat n) src).

(** Lines written to the standard output. *)
Inductive message : Type :=
| Read1Short                      (* "read1 r!=toRead" *)
| Read1Zero                       (* "read1 r <= 0" *)
| Read2Short                      (* "read2 r!=toRead" *)
| Read2Zero                       (* "read2 r>=0" *)
| Eofs (eof1 eof2 eof : bool)     (* "eofs : %d %d %d" *)
| GG (difference : Z).            (* "GG, diff is %d" *)

(** ** The paired chunk splitter *)

(** The members of the class. *)
Record t : Type := {
  mLeft : list ascii;               (* unread bytes of the left file *)
  mRight : list ascii;              (* unread bytes of the right file *)
  mInterleaved : bool;
  fastqPool_left : FastqDataPool;
  fastqPool_right : FastqDataPool;
  swapBuffer_left : list ascii;
  swapBuffer_right : list ascii;
  bufferSize_left : Z;
  bufferSize_right : Z;
  eof : bool;
  usesCrlf : bool;
  stdout : list message
}.

Inductive outcome : Type :=
| Returned (p : option ChunkPair) (s : t)
| Blocked      (* [Acquire] found its pool empty *)
| Lost.        (* [GetNextRecordPos] found no record start within the fuel *)

(** What one side's refill leaves in the locals and members it touches. *)
Record refilled : Type := {
  r_data : list ascii;      (* the chunk buffer after carry-over and read *)
  r_size : Z;               (* [leftPart->size] *)
  r_chunkEnd : Z;
  r_cbufSize : Z;
  r_eof : bool;             (* [eof1] / [eof2] *)
  r_rest : list ascii;      (* the reader's unread bytes *)
  r_bufferSize : Z;         (* [bufferSize_left] / [bufferSize_right] *)
  r_usesCrlf : bool;
  r_out : list message;
  r_abort : bool            (* the early [return NULL] *)
}.

(** The walk of the left cut towards the buffer start:
    [while (chunkEnd >= 0) { if (data[chunkEnd] == '\n') { difference--;
       if (difference == -1) { chunkEnd++; break; } } chunkEnd--; }]
    [chunkEnd] decreases and the loop stops below 0: at most [chunkEnd + 1]
    rounds, which is what [n] counts. *)
Fixpoint walk_left (n : nat) (data : mem) (chunkEnd difference : Z) : Z * Z :=
  match n with
  | O => (chunkEnd, difference)
  | S n' =>
      if chunkEnd >=? 0 then
        if (data chunkEnd =? LF)%char then
          let difference := difference - 1 in
          if difference =? -1 then (chunkEnd + 1, difference)
          else walk_left n' data (chunkEnd - 1) difference
        else walk_left n' data (chunkEnd - 1) difference
      else (chunkEnd, difference)
  end.

(** The same walk on the right cut; [difference] climbs to 1. *)
Fixpoint walk_right (n : nat) (data_right : mem) (chunkEnd_right difference : Z) : Z * Z :=
  match n with
  | O => (chunkEnd_right, difference)
  | S n' =>
      if chunkEnd_right >=? 0 then
        if (data_right chunkEnd_right =? LF)%char then
          let difference := difference + 1 in
          if difference =? 1 then (chunkEnd_right + 1, difference)
          else walk_right n' data_right (chunkEnd_right - 1) difference
        else walk_right n' data_right (chunkEnd_right - 1) difference
      else (chunkEnd_right, difference)
  end.

(** What the re-synchronisation block leaves behind. *)
Record resynced : Type := {
  y_chunkEnd : Z;
  y_chunkEnd_right : Z;
  y_size_left : Z;
  y_size_right : Z;
  y_swapBuffer_left : list ascii;
  y_swapBuffer_right : list ascii;
  y_bufferSize_left : Z;
  y_bufferSize_right : Z;
  y_out : list message
}.

Section Splitter.

(** [tmpSwapBufferSize] is declared in a header that is not among the
    sources; the capacity of a chunk is [data.Size()], the length of the
    buffer the pool hands out.  [wild] is the memory around the buffers. *)
Variable tmpSwapBufferSize : Z.
Variable wild : mem.

(** One side of [readNextChunkPair_interleaved]: "flush the data from
    previous incomplete chunk", read, and choose the candidate cut.  The
    source has this text twice, for [left] and for [right]; [short] and
    [zero] are the two lines it prints.  [None]: the scan was lost.
    [size] and [cbufSize] are [uint64], [chunkEnd], [toRead] and [r] are
    [int64]: [size += r - 1] and [size -= 1] wrap, [chunkEnd = size + 1]
    is the [uint64] sum read as an [int64].  The carry-over is copied into
    [size] only when it is positive. *)
Definition refill (fuel : nat) (short zero : message)
    (buf swapBuffer : list ascii) (bufferSize : Z) (src : list ascii) (usesCrlf : bool)
  : option refilled :=
  let data := buf in
  let cbufSize := Z.of_nat (length buf) in
  let size := 0 in
  let toRead := cbufSize - bufferSize in
  let '(data, size, bufferSize) :=
    if bufferSize >? 0
    then (store data 0 (slice swapBuffer 0 bufferSize), bufferSize, 0)
    else (data, size, bufferSize) in
  let '(got, rest) := Read src toRead in
  let data := store data size got in
  let r := Z.of_nat (length got) in
  if r >? 0 then
    if r =? toRead then
      let chunkEnd := cbufSize - tmpSwapBufferSize in
      match fst (GetNextRecordPos fuel (ptr wild data) (u64 chunkEnd) cbufSize usesCrlf) with
      | None => None
      | Some (chunkEnd, usesCrlf) =>
          Some {| r_data := data; r_size := size; r_chunkEnd := i64 chunkEnd;
                  r_cbufSize := cbufSize; r_eof := false; r_rest := rest;
                  r_bufferSize := bufferSize; r_usesCrlf := usesCrlf;
                  r_out := []; r_abort := false |}
      end
    else
      let size := u64 (size + (r - 1)) in
      let size := if usesCrlf then u64 (size - 1) else size in
      Some {| r_data := data; r_size := size; r_chunkEnd := i64 (size + 1);
              r_cbufSize := u64 (size + 1); r_eof := true; r_rest := rest;
              r_bufferSize := bufferSize; r_usesCrlf := usesCrlf;
              r_out := [short]; r_abort := false |}
  else
    Some {| r_data := data; r_size := size; r_chunkEnd := i64 (size + 1);
            r_cbufSize := u64 (size + 1); r_eof := true; r_rest := rest;
            r_bufferSize := bufferSize; r_usesCrlf := usesCrlf;
            r_out := [zero]; r_abort := (size =? 0) |}.

(** The block under [if (!eof)]: count the lines before both cuts, walk the
    cut of the side that has more of them, set the sizes and keep what lies
    behind the cuts in the swap buffers.  The cuts are [int64], the sizes
    [uint64]: [size = chunkEnd - 1] converts, [size -= 1] wraps. *)
Definition resync (data : list ascii) (chunkEnd cbufSize : Z)
    (data_right : list ascii) (chunkEnd_right cbufSize_right : Z)
    (usesCrlf : bool) (swapBuffer_left swapBuffer_right : list ascii) : resynced :=
  let left_line_count := count_line (ptr wild data) chunkEnd in
  let right_line_count := count_line (ptr wild data_right) chunkEnd_right in
  let difference := left_line_count - right_line_count in
  let '(chunkEnd, chunkEnd_right) :=
    if difference >? 0 then
      (fst (walk_left (Z.to_nat (chunkEnd + 1)) (ptr wild data) chunkEnd difference),
       chunkEnd_right)
    else if difference <? 0 then
      (chunkEnd,
       fst (walk_right (Z.to_nat (chunkEnd_right + 1)) (ptr wild data_right)
              chunkEnd_right difference))
    else (chunkEnd, chunkEnd_right) in
  let size_left := u64_of_i64 (chunkEnd - 1) in
  let size_left := if usesCrlf then u64 (size_left - 1) else size_left in
  let swapBuffer_left := store swapBuffer_left 0 (slice data chunkEnd cbufSize) in
  let bufferSize_left := cbufSize - chunkEnd in
  let size_right := u64_of_i64 (chunkEnd_right - 1) in
  let size_right := if usesCrlf then u64 (size_right - 1) else size_right in
  let swapBuffer_right :=
    store swapBuffer_right 0 (slice data_right chunkEnd_right cbufSize_right) in
  let bufferSize_right := cbufSize_right - chunkEnd_right in
  let left_line_count := count_line (ptr wild data) chunkEnd in
  let right_line_count := count_line (ptr wild data_right) chunkEnd_right in
  let difference := left_line_count - right_line_count in
  {| y_chunkEnd := chunkEnd; y_chunkEnd_right := chunkEnd_right;
     y_size_left := size_left; y_size_right := size_right;
     y_swapBuffer_left := swapBuffer_left; y_swapBuffer_right := swapBuffer_right;
     y_bufferSize_left := bufferSize_left; y_bufferSize_right := bufferSize_right;
     y_out := if difference =? 0 then [] else [GG difference] |}.

Definition readNextChunkPair_interleaved (fuel : nat) (s : t) : outcome :=
  match Acquire (fastqPool_left s) with
  | None => Blocked
  | Some (leftBuf, poolL) =>
  match Acquire (fastqPool_right s) with
  | None => Blocked
  | Some (rightBuf, poolR) =>
  if eof s then
    Returned None
      {| mLeft := mLeft s; mRight := mRight s; mInterleaved := mInterleaved s;
         fastqPool_left := Release poolL {| data := leftBuf; size := 0 |};
         fastqPool_right := Release poolR {| data := rightBuf; size := 0 |};
         swapBuffer_left := swapBuffer_left s; swapBuffer_right := swapBuffer_right s;
         bufferSize_left := bufferSize_left s; bufferSize_right := bufferSize_right s;
         eof := eof s; usesCrlf := usesCrlf s; stdout := stdout s |}
  else
  (*------read left chunk------*)
  match refill fuel Read1Short Read1Zero leftBuf (swapBuffer_left s) (bufferSize_left s)
          (mLeft s) (usesCrlf s) with
  | None => Lost
  | Some L =>
  if r_abort L then
    Returned None
      {| mLeft := r_rest L; mRight := mRight s; mInterleaved := mInterleaved s;
         fastqPool_left := poolL; fastqPool_right := poolR;
         swapBuffer_left := swapBuffer_left s; swapBuffer_right := swapBuffer_right s;
         bufferSize_left := r_bufferSize L; bufferSize_right := bufferSize_right s;
         eof := eof s; usesCrlf := r_usesCrlf L; stdout := stdout s ++ r_out L |}
  else
  (*------read right chunk------*)
  match refill fuel Read2Short Read2Zero rightBuf (swapBuffer_right s) (bufferSize_right s)
          (mRight s) (r_usesCrlf L) with
  | None => Lost
  | Some R =>
  if r_abort R then
    Returned None
      {| mLeft := r_rest L; mRight := r_rest R; mInterleaved := mInterleaved s;
         fastqPool_left := poolL; fastqPool_right := poolR;
         swapBuffer_left := swapBuffer_left s; swapBuffer_right := swapBuffer_right s;
         bufferSize_left := r_bufferSize L; bufferSize_right := r_bufferSize R;
         eof := eof s; usesCrlf := r_usesCrlf R;
         stdout := stdout s ++ r_out L ++ r_out R |}
  else
  let eof1 := r_eof L in
  let eof2 := r_eof R in
  let eof' := if eof1 && eof2 then true else eof s in
  let out := stdout s ++ r_out L ++ r_out R
             ++ (if eof1 || eof2 then [Eofs eof1 eof2 eof'] else []) in
  if negb eof' then
    let y := resync (r_data L) (r_chunkEnd L) (r_cbufSize L)
               (r_data R) (r_chunkEnd R) (r_cbufSize R)
               (r_usesCrlf R) (swapBuffer_left s) (swapBuffer_right s) in
    Returned
      (Some {| leftpart := {| data := r_data L; size := y_size_left y |};
               rightpart := {| data := r_data R; size := y_size_right y |} |})
      {| mLeft := r_rest L; mRight := r_rest R; mInterleaved := mInterleaved s;
         fastqPool_left := poolL; fastqPool_right := poolR;
         swapBuffer_left := y_swapBuffer_left y; swapBuffer_right := y_swapBuffer_right y;
         bufferSize_left := y_bufferSize_left y; bufferSize_right := y_bufferSize_right y;
         eof := eof'; usesCrlf := r_usesCrlf R; stdout := out ++ y_out y |}
  else
    Returned
      (Some {| leftpart := {| data := r_data L; size := r_size L |};
               rightpart := {| data := r_data R; size := r_size R |} |})
      {| mLeft := r_rest L; mRight := r_rest R; mInterleaved := mInterleaved s;
         fastqPool_left := poolL; fastqPool_right := poolR;
         swapBuffer_left := swapBuffer_left s; swapBuffer_right := swapBuffer_right s;
         bufferSize_left := r_bufferSize L; bufferSize_right := r_bufferSize R;
         eof := eof'; usesCrlf := r_usesCrlf R; stdout := out |}
  end end end end.

(** [readNextChunkPair()]: the interleaved single-file mode is a stub. *)
Definition readNextChunkPair (fuel : nat) (s : t) : outcome :=
  if mInterleaved s then Returned None s
  else readNextChunkPair_interleaved fuel s.

(** The consumer of a pair hands both chunks back to their pools. *)
Definition release_pair (p : ChunkPair) (s : t) : t :=
  {| mLeft := mLeft s; mRight := mRight s; mInterleaved := mInterleaved s;
     fastqPool_left := Release (fastqPool_left s) (leftpart p);
     fastqPool_right := Release (fastqPool_right s) (rightpart p);
     swapBuffer_left := swapBuffer_left s; swapBuffer_right := swapBuffer_right s;
     bufferSize_left := bufferSize_left s; bufferSize_right := bufferSize_right s;
     eof := eof s; usesCrlf := usesCrlf s; stdout := stdout s |}.

(** A session: call until "no more chunks", at most [n] times; every pair
    is consumed and released before the next call.  The result is the pairs
    in the order of emission, each with the state its call left, and the
    state after the last call that returned ([None] when a call did not
    return). *)
Fixpoint session (n fuel : nat) (s : t) : list (ChunkPair * t) * option t :=
  match n with
  | O => ([], Some s)
  | S n' =>
      match readNextChunkPair_interleaved fuel s with
      | Returned (Some p) s' =>
          let (ps, final) := session n' fuel (release_pair p s') in
          ((p, s') :: ps, final)
      | Returned None s' => ([], Some s')
      | Blocked | Lost => ([], None)
      end
  end.

End Splitter.

(** The state the constructor leaves: empty swap buffers of [SwapBufferSize]
    bytes, nothing carried over, both flags down.  Each pool starts with the
    given buffers. *)
Definition new (SwapBufferSize : Z) (leftFile rightFile : list ascii)
    (interleaved : bool) (buffers_left buffers_right : list (list ascii))
  : t :=
  {| mLeft := leftFile; mRight := rightFile; mInterleaved := interleaved;
     fastqPool_left := {| available := buffers_left; acquired := 0; released := 0 |};
     fastqPool_right := {| available := buffers_right; acquired := 0; released := 0 |};
     swapBuffer_left := repeat NUL (Z.to_nat SwapBufferSize);
     swapBuffer_right := repeat NUL (Z.to_nat SwapBufferSize);
     bufferSize_left := 0; bufferSize_right := 0;
     eof := false; usesCrlf := false; stdout := [] |}.

End FastqChunkReaderPair.

(** ** Auxiliary definitions for the statements below *)

Module Aux.

Import FastqChunkReaderPair.

(** The value of the three-line probe that follows the search for ['@'] in
    [GetNextRecordPos], given the position [pos0] the search stopped at. *)
Definition probe (data_ : mem) (size_ : Z) (pos0 : Z) (u : bool) : Z * bool :=
  let s1 := fst (SkipToEol data_ pos0 size_ u) in
  let p1 := u64 (fst s1 + 1) in
  if (data_ p1 =? AT)%char then (p1, snd s1)
  else (pos0, snd (fst (SkipToEol data_ p1 size_ (snd s1)))).

(** The width of a terminator and of a line with its terminator. *)
Definition tlen (t : Terminator) : Z := Z.of_nat (length (term_bytes t)).

Definition llen (t : Terminator) (l : list ascii) : Z := Z.of_nat (length l) + tlen t.

(** The first byte of the line [l] once rendered: its first character, or the
    first byte of the terminator when the line is empty. *)
Definition first_byte (t : Terminator) (l : list ascii) : ascii :=
  match l with
  | c :: _ => c
  | [] => hd NUL (term_bytes t)
  end.

(** [line_at data size_ t p l]: the line [l] with its terminator lies at
    offset [p] of [data], inside the first [size_] bytes, and a lone ['\r']
    that ends it is not followed by ['\n']. *)
Definition line_at (data : mem) (size_ : Z) (t : Terminator) (p : Z) (l : list ascii) : Prop :=
  holds data p (l ++ term_bytes t)
  /\ no_eol l = true
  /\ 0 <= p
  /\ p + llen t l <= size_
  /\ (t = TermCR -> data (p + llen t l) <> LF).

(** Consecutive lines from offset [p] on; the last one of the list is only
    known to be there, the others are [line_at]. *)
Fixpoint lines_at (data : mem) (size_ : Z) (t : Terminator) (p : Z)
    (ls : list (list ascii)) : Prop :=
  match ls with
  | [] => True
  | l :: ls' =>
      match ls' with
      | [] => holds data p (l ++ term_bytes t)
      | _ :: _ => line_at data size_ t p l /\ lines_at data size_ t (p + llen t l) ls'
      end
  end.

(** [usesCrlf] after [SkipToEol] went from [pos] to the end of a line whose
    last character lies before offset [e]. *)
Definition flag_after (t : Terminator) (pos e : Z) (u : bool) : bool :=
  match t with
  | TermCRLF => if pos <=? e then true else u
  | _ => u
  end.

(** The claim's words, "the first line terminator seen in either file": the
    terminator of the first line of the left file, which is read first, or
    of the right file when the left one has no line. *)
Definition first_terminator_seen (s : t) : option Terminator :=
  match first_terminator (mLeft s) with
  | Some x => Some x
  | None => first_terminator (mRight s)
  end.

(** [n] successive calls without a consumer in between: the results in
    order and the state left; [None] when a call does not return. *)
Fixpoint calls (tmpSwapBufferSize : Z) (wild : mem) (n fuel : nat) (s : t)
  : option (list (option ChunkPair) * t) :=
  match n with
  | O => Some ([], s)
  | S n' =>
      match readNextChunkPair_interleaved tmpSwapBufferSize wild fuel s with
      | Returned p s' =>
          match calls tmpSwapBufferSize wild n' fuel s' with
          | Some (ps, s'') => Some (p :: ps, s'')
          | None => None
          end
      | Blocked | Lost => None
      end
  end.

(** The bytes of a side that are still to come: what is carried in the swap
    buffer, then what the file has not delivered yet. *)
Definition pending_left (s : t) : list ascii :=
  firstn (Z.to_nat (bufferSize_left s)) (swapBuffer_left s) ++ mLeft s.

Definition pending_right (s : t) : list ascii :=
  firstn (Z.to_nat (bufferSize_right s)) (swapBuffer_right s) ++ mRight s.

(** The number of bytes a cut leaves out in front of it: 2 when [usesCrlf]
    is set, 1 otherwise. *)
Definition width (s : t) : Z := if usesCrlf s then 2 else 1.

(** The first [size] bytes of a chunk. *)
Definition payload (c : FastqDataChunk) : list ascii :=
  firstn (Z.to_nat (size c)) (data c).



End Aux.

(** ** Auxiliary definitions for the record reader *)

Module ReaderAux.

Import FastqReader.

(** The C string a buffer holds: its bytes in front of the first [NUL]. *)
Definition c_str (line : list ascii) : list ascii := firstn (strlen line) line.

Definition no_nul (l : list ascii) : bool := forallb (fun c => negb (c =? NUL)%char) l.

(** The number of ['\n'] in a list of bytes. *)
Definition count_lf (l : list ascii) : Z :=
  Z.of_nat (length (filter (fun c => (c =? LF)%char) l)).

(** The bytes a reader has not handed out yet: what is left of its buffer,
    then what its stream still holds. *)
Definition unread (r : t) : list ascii :=
  slice (mBuf r) (mBufUsedLen r) (mBufDataLen r) ++ mFile r.

(** What the constructor establishes and [getLine] keeps: the positions lie
    in the buffer, a buffer that is not full means that the stream is
    exhausted and its end-of-file indicator is up, and the stream can be
    read. *)
Definition consistent (r : t) : Prop :=
  0 <= mBufUsedLen r
  /\ 0 <= mBufDataLen r <= FQ_BUF_SIZE
  /\ mBufDataLen r <= Z.of_nat (length (mBuf r))
  /\ (mBufDataLen r < FQ_BUF_SIZE -> mFile r = [] /\ mFileEof r = true)
  /\ (mFileEof r = true -> mFile r = [])
  /\ (mBufDataLen r < mBufUsedLen r -> mBufDataLen r < FQ_BUF_SIZE)
  /\ mZipped r && mFileBroken r = false
  /\ mZipped r && mZipFileNull r = false.

(** The members a call of [getLine] does not touch. *)
Definition same_setup (r r' : t) : Prop :=
  mFilename r' = mFilename r /\ mZipped r' = mZipped r
  /\ mZipFileNull r' = mZipFileNull r /\ mFileBroken r' = mFileBroken r
  /\ mPhred64 r' = mPhred64 r /\ mHasQuality r' = mHasQuality r
  /\ cerr r' = cerr r.

(** What a call that ends a line leaves, [res] being its result: the line
    is [str] followed by [l2], [tail] is what followed [l2] in the stream. *)
Definition refill_post (r : t) (str : string) (l2 tail : list ascii)
    (res : result t string) : Prop :=
  exists r',
    res = Ok (str ++ string_of_list_ascii l2)%string r'
    /\ consistent r' /\ same_setup r r'
    /\ (unread r' = tl tail \/ (hd NUL (tl tail) = LF /\ unread r' = tl (tl tail)))
    /\ (tail = [] -> mFileEof r' = true /\ mBufDataLen r' <= mBufUsedLen r').

(** A stream cut in front of its first terminator byte: the bytes before
    it, and the rest. *)
Fixpoint break_line (s : list ascii) : list ascii * list ascii :=
  match s with
  | [] => ([], [])
  | c :: rest =>
      if is_eol c then ([], s)
      else let (l, tail) := break_line rest in (c :: l, tail)
  end.

(** A line of text: not empty and free of terminator bytes. *)
Definition text_line (l : list ascii) : bool :=
  no_eol l && match l with [] => false | _ :: _ => true end.

(** A line of text that does not begin with ['@']: the search of [read] for
    the name line passes over it. *)
Definition skipped_line (l : list ascii) : bool :=
  text_line l && negb (starts_with AT l).

(** A record [read] hands out as it is: well formed, with a sequence that
    is not empty and a quality of the same length. *)
Definition readable (rec : FastqRecord) : bool :=
  well_formed rec && text_line (rec_sequence rec)
  && (length (rec_quality rec) =? length (rec_sequence rec))%nat.

(** The [Read] a well-formed record is returned as. *)
Definition as_Read (rec : FastqRecord) (phred64 : bool) : Read :=
  {| mName := string_of_list_ascii (rec_name rec);
     mSeq := string_of_list_ascii (rec_sequence rec);
     mStrand := string_of_list_ascii (rec_strand rec);
     mQuality := string_of_list_ascii (rec_quality rec);
     mHasPhred64 := phred64 |}.

(** [n] successive calls of [read]: the results, in order, and the reader
    after the last call. *)
Fixpoint read_n (wild : mem) (n fuel : nat) (r : t) : list (option Read) * result t unit :=
  match n with
  | O => ([], Ok tt r)
  | S n' =>
      match read wild fuel r with
      | Ok x r => let (xs, final) := read_n wild n' fuel r in (x :: xs, final)
      | Exit msg => ([], Exit msg)
      | Crash => ([], Crash)
      | Spin => ([], Spin)
      end
  end.

(** The pair of two records. *)
Definition as_ReadPair (a b : FastqRecord) (phredL phredR : bool) : ReadPair :=
  {| pair_left := as_Read a phredL; pair_right := as_Read b phredR |}.

(** The records of two files, pair by pair, as far as both files go. *)
Fixpoint zip_pairs (ls rs : list FastqRecord) (phredL phredR : bool) : list ReadPair :=
  match ls, rs with
  | a :: ls', b :: rs' => as_ReadPair a b phredL phredR :: zip_pairs ls' rs' phredL phredR
  | _, _ => []
  end.


End ReaderAux.

(** ** Auxiliary definitions for the traces of the scanner *)

Module ScanAux.

Import FastqChunkReaderPair.

(** What [GetNextRecordPos] loads and asserts after its search for ['@']
    stopped at [pos0]: the trace of the three-line probe. *)
Definition probe_trace (data_ : mem) (size_ pos0 : Z) (u0 : bool) : list event :=
  let s1 := SkipToEol data_ pos0 size_ u0 in
  let p1 := u64 (fst (fst s1) + 1) in
  snd s1 ++ [Load p1]
  ++ (if (data_ p1 =? AT)%char then []
      else
        let s2 := SkipToEol data_ p1 size_ (snd (fst s1)) in
        let p2 := u64 (fst (fst s2) + 1) in
        snd s2 ++ [Load p2]
        ++ (if negb (data_ p2 =? PLUS)%char then [Load p2; Cout (data_ p2)] else [])
        ++ [Load p2; Assert (data_ p2 =? PLUS)%char]).

(** What [GetNextRecordPos] loads and asserts from the start of its search
    for ['@'] at [pos_] on: the trace of the search, then the trace of the
    probe when the search ended. *)
Definition search_trace (fuel : nat) (data_ : mem) (size_ pos_ : Z) (u : bool)
  : list event :=
  let f := find_at fuel data_ pos_ size_ u in
  snd f
  ++ match fst f with
     | None => []
     | Some (pos0, u0) => probe_trace data_ size_ pos0 u0
     end.

End ScanAux.

(** ** Auxiliary definitions for whole sessions of the splitter *)

Module SessionAux.

Import FastqChunkReaderPair Aux.


Definition ends_crlf (t : Terminator) : bool :=
  match t with
  | TermCRLF => true
  | _ => false
  end.








End SessionAux.

(** * Properties *)

(** ** Traces, pointers and line counts *)

Lemma fst_bind (A B : Type) (m : W A) (f : A -> W B) :
  fst (bind m f) = fst (f (fst m)).
Proof.
  unfold bind. destruct m as [a t]. simpl. destruct (f a). reflexivity.
Qed.

Lemma snd_bind (A B : Type) (m : W A) (f : A -> W B) :
  snd (bind m f) = snd m ++ snd (f (fst m)).
Proof.
  unfold bind. destruct m as [a t]. simpl. destruct (f a). reflexivity.
Qed.

Lemma ptr_inside (wild : mem) (l : list ascii) (i : Z) :
  0 <= i < Z.of_nat (length l) -> ptr wild l i = nth (Z.to_nat i) l NUL.
Proof.
  intros H. unfold ptr.
  replace (0 <=? i) with true by (symmetry; apply Z.leb_le; lia).
  replace (i <? Z.of_nat (length l)) with true by (symmetry; apply Z.ltb_lt; lia).
  reflexivity.
Qed.

Lemma holds_ptr (wild : mem) (l : list ascii) : holds (ptr wild l) 0 l.
Proof.
  intros i Hi. rewrite ptr_inside by lia.
  replace (Z.to_nat (0 + Z.of_nat i)) with i by lia. reflexivity.
Qed.

Lemma holds_app (data : mem) (p : Z) (l1 l2 : list ascii) :
  holds data p (l1 ++ l2) <->
  holds data p l1 /\ holds data (p + Z.of_nat (length l1)) l2.
Proof.
  unfold holds. split.
  - intros H. split.
    + intros i Hi. rewrite H by (rewrite length_app; lia).
      rewrite app_nth1 by lia. reflexivity.
    + intros i Hi.
      replace (p + Z.of_nat (length l1) + Z.of_nat i)
        with (p + Z.of_nat (length l1 + i)) by lia.
      rewrite H by (rewrite length_app; lia).
      rewrite app_nth2 by lia. f_equal. lia.
  - intros [H1 H2] i Hi. rewrite length_app in Hi.
    destruct (Nat.lt_ge_cases i (length l1)) as [Hlt | Hge].
    + rewrite app_nth1 by lia. apply H1. lia.
    + rewrite app_nth2 by lia.
      replace (p + Z.of_nat i)
        with (p + Z.of_nat (length l1) + Z.of_nat (i - length l1)) by lia.
      apply H2. lia.
Qed.

Lemma holds_ptr_app (wild : mem) (pre l post : list ascii) :
  holds (ptr wild (pre ++ l ++ post)) (Z.of_nat (length pre)) l.
Proof.
  pose proof (holds_ptr wild (pre ++ l ++ post)) as H.
  apply holds_app in H. destruct H as [_ H]. apply holds_app in H. apply H.
Qed.

Lemma u64_small (x : Z) : 0 <= x < 2 ^ 64 -> u64 x = x.
Proof. intros H. unfold u64. apply Z.mod_small. exact H. Qed.

Lemma i64_small (x : Z) : 0 <= x < 2 ^ 63 -> i64 x = x.
Proof.
  intros H. unfold i64. rewrite Z.mod_small by lia.
  replace (x <? 2 ^ 63) with true by (symmetry; apply Z.ltb_lt; lia).
  reflexivity.
Qed.

Module ScannerFacts.

Import FastqChunkReaderPair.

(** *** [count_line] *)

Lemma count_line_from_ext (n : nat) (d1 d2 : mem) (i : Z) :
  (forall j, i <= j < i + Z.of_nat n -> d1 j = d2 j) ->
  count_line_from n d1 i = count_line_from n d2 i.
Proof.
  revert i. induction n as [| n IH]; intros i H; simpl; [reflexivity |].
  rewrite H by lia. rewrite IH; [reflexivity |]. intros j Hj. apply H. lia.
Qed.

Lemma count_line_from_nonneg (n : nat) (d : mem) (i : Z) : 0 <= count_line_from n d i.
Proof.
  revert i. induction n as [| n IH]; intros i; simpl; [lia |].
  specialize (IH (i + 1)). destruct (d i =? LF)%char; lia.
Qed.

Lemma count_line_from_snoc (n : nat) (d : mem) (i : Z) :
  count_line_from (S n) d i =
  count_line_from n d i + (if (d (i + Z.of_nat n) =? LF)%char then 1 else 0).
Proof.
  revert i. induction n as [| n IH]; intros i.
  - simpl. replace (i + 0) with i by lia. lia.
  - change (count_line_from (S (S n)) d i)
      with ((if (d i =? LF)%char then 1 else 0) + count_line_from (S n) d (i + 1)).
    rewrite IH. simpl count_line_from.
    replace (i + 1 + Z.of_nat n) with (i + Z.of_nat (S n)) by lia. lia.
Qed.

(** One more byte counted: [count_line d (c + 1)] against [count_line d c]. *)
Lemma count_line_succ (d : mem) (c : Z) :
  0 <= c ->
  count_line d (c + 1) = count_line d c + (if (d c =? LF)%char then 1 else 0).
Proof.
  intros Hc. unfold count_line.
  replace (Z.to_nat (c + 1)) with (S (Z.to_nat c)) by lia.
  rewrite count_line_from_snoc.
  replace (0 + Z.of_nat (Z.to_nat c)) with c by lia. reflexivity.
Qed.

Lemma count_line_nonpos (d : mem) (c : Z) : c <= 0 -> count_line d c = 0.
Proof.
  intros Hc. unfold count_line. replace (Z.to_nat c) with O by lia. reflexivity.
Qed.

Lemma count_line_nonneg (d : mem) (c : Z) : 0 <= count_line d c.
Proof. apply count_line_from_nonneg. Qed.

(** *** C6: loads at and past [size_] *)

(** C6 (the code breaks the claim).  The claim: after [pos_ < size_] on entry,
    every load of [SkipToEol] and [GetNextRecordPos] uses an offset below
    [size_] and every [ASSERT(pos_ < size_)] holds.
    - On the four bytes [ACGT], which end without a terminator, [SkipToEol]
      from offset 0 loads offset 4 = [size_]: the loop compares the byte
      before it tests the bound.
    - On the same four bytes, followed in memory by bytes that belong to
      something else, [GetNextRecordPos] from offset 0 goes on behind the
      buffer, calls [SkipToEol] with [pos_ = 5 > size_], so that
      [ASSERT(pos_ < size_)] is evaluated to false, and returns the cut 5.
    - On the seven bytes [I\n@r\nAC], where the three-line probe cannot
      finish, [GetNextRecordPos] from offset 0 loads offsets 7 and 8 and
      returns the cut 2. *)
Theorem scanner_loads_past_size :
  let acgt := ptr zeros (bytes "ACGT") in
  let acgt_then := ptr zeros (bytes "ACGT" ++ unlines TermLF [""; "@r"; "AC"; "+"]%string) in
  let cut := ptr zeros (unlines TermLF ["I"; "@r"]%string ++ bytes "AC") in
  (0 <=? 0) && (0 <? 4) = true
  /\ In (Load 4) (snd (SkipToEol acgt 0 4 false))
  /\ safe_trace 4 (snd (SkipToEol acgt 0 4 false)) = false
  /\ fst (GetNextRecordPos 3 acgt_then 0 4 false) = Some (5, false)
  /\ In (Load 5) (snd (GetNextRecordPos 3 acgt_then 0 4 false))
  /\ In (Assert false) (snd (GetNextRecordPos 3 acgt_then 0 4 false))
  /\ (0 <=? 0) && (0 <? 7) = true
  /\ fst (GetNextRecordPos 3 cut 0 7 false) = Some (2, false)
  /\ In (Load 7) (snd (GetNextRecordPos 3 cut 0 7 false))
  /\ In (Load 8) (snd (GetNextRecordPos 3 cut 0 7 false))
  /\ safe_trace 7 (snd (GetNextRecordPos 3 cut 0 7 false)) = false.
Proof.
  vm_compute. repeat split; auto 30.
Qed.

End ScannerFacts.

Module SkipFacts.

Import FastqChunkReaderPair Aux.

(** *** [SkipToEol]: where it stops and what it does to [usesCrlf] *)

Lemma is_eol_false (c : ascii) :
  is_eol c = false -> (c =? LF)%char = false /\ (c =? CR)%char = false.
Proof. unfold is_eol. intros H. apply orb_false_elim in H. exact H. Qed.

(** The values computed, without the traces. *)
Lemma SkipToEol_loop_eq (n : nat) (data_ : mem) (pos_ size_ : Z) :
  fst (SkipToEol_loop n data_ pos_ size_) =
  if negb (data_ pos_ =? LF)%char && negb (data_ pos_ =? CR)%char && (pos_ <? size_)
  then match n with
       | S n' => fst (SkipToEol_loop n' data_ (pos_ + 1) size_)
       | O => pos_
       end
  else pos_.
Proof.
  destruct n; cbn [SkipToEol_loop]; rewrite fst_bind; cbn [load fst];
    match goal with |- context [if ?c then _ else _] => destruct c end; reflexivity.
Qed.

Lemma SkipToEol_eq (data_ : mem) (pos_ size_ : Z) (u : bool) :
  fst (SkipToEol data_ pos_ size_ u) =
  let p := fst (SkipToEol_loop (Z.to_nat (size_ - pos_)) data_ pos_ size_) in
  if (data_ p =? CR)%char && (p <? size_) && (data_ (p + 1) =? LF)%char
  then (p + 1, true) else (p, u).
Proof.
  unfold SkipToEol. rewrite !fst_bind. cbn [ASSERT load fst]. cbv zeta.
  destruct ((data_ _ =? CR)%char && (_ <? size_)); cbn [andb].
  - rewrite fst_bind. cbn [load fst].
    destruct (data_ _ =? LF)%char; reflexivity.
  - reflexivity.
Qed.

Lemma find_at_eq (fuel : nat) (data_ : mem) (pos_ size_ : Z) (u : bool) :
  fst (find_at fuel data_ pos_ size_ u) =
  if negb (data_ pos_ =? AT)%char then
    match fuel with
    | S fuel' =>
        fst (find_at fuel' data_ (u64 (fst (fst (SkipToEol data_ pos_ size_ u)) + 1)) size_
               (snd (fst (SkipToEol data_ pos_ size_ u))))
    | O => None
    end
  else Some (pos_, u).
Proof.
  destruct fuel; cbn [find_at]; rewrite fst_bind; cbn [load fst];
    destruct (negb (data_ pos_ =? AT)%char); try reflexivity.
  rewrite fst_bind. destruct (fst (SkipToEol data_ pos_ size_ u)). reflexivity.
Qed.

Lemma GetNextRecordPos_eq (fuel : nat) (data_ : mem) (pos_ size_ : Z) (u : bool) :
  fst (GetNextRecordPos fuel data_ pos_ size_ u) =
  let s0 := fst (SkipToEol data_ pos_ size_ u) in
  match fst (find_at fuel data_ (u64 (fst s0 + 1)) size_ (snd s0)) with
  | None => None
  | Some (pos0, u0) => Some (probe data_ size_ pos0 u0)
  end.
Proof.
  unfold GetNextRecordPos, probe. rewrite fst_bind.
  destruct (fst (SkipToEol data_ pos_ size_ u)) as [p0 u0]. cbn [fst snd]. cbv zeta.
  rewrite fst_bind.
  destruct (fst (find_at fuel data_ (u64 (p0 + 1)) size_ u0)) as [[p1 u1] |];
    [| reflexivity].
  rewrite fst_bind.
  destruct (fst (SkipToEol data_ p1 size_ u1)) as [p2 u2]. cbn [fst snd].
  rewrite fst_bind. cbn [load fst].
  destruct (data_ (u64 (p2 + 1)) =? AT)%char; [reflexivity |].
  rewrite fst_bind.
  destruct (fst (SkipToEol data_ (u64 (p2 + 1)) size_ u2)) as [p3 u3]. cbn [fst snd].
  rewrite !fst_bind. reflexivity.
Qed.

(** The bound of the scanning loop is no restriction: with more rounds
    allowed the loop does the same, loads included. *)
Lemma SkipToEol_loop_bound (n : nat) :
  forall (m : nat) (data_ : mem) (pos_ size_ : Z),
    (Z.to_nat (size_ - pos_) <= n)%nat ->
    (Z.to_nat (size_ - pos_) <= m)%nat ->
    SkipToEol_loop n data_ pos_ size_ = SkipToEol_loop m data_ pos_ size_.
Proof.
  induction n as [| n IH]; intros m data_ pos_ size_ Hn Hm.
  - destruct m; cbn [SkipToEol_loop]; unfold bind, load;
      replace (pos_ <? size_) with false by (symmetry; apply Z.ltb_ge; lia);
      rewrite !andb_false_r; reflexivity.
  - destruct m as [| m].
    + cbn [SkipToEol_loop]; unfold bind, load;
        replace (pos_ <? size_) with false by (symmetry; apply Z.ltb_ge; lia);
        rewrite !andb_false_r; reflexivity.
    + cbn [SkipToEol_loop]. unfold bind, load.
      destruct (negb (data_ pos_ =? LF)%char && negb (data_ pos_ =? CR)%char
                && (pos_ <? size_)) eqn:Hc; [| reflexivity].
      apply andb_true_iff in Hc. destruct Hc as [_ Hc]. apply Z.ltb_lt in Hc.
      rewrite (IH m data_ (pos_ + 1) size_) by lia. reflexivity.
Qed.

(** The loop stops on the first terminator byte at or after [pos_], when that
    byte lies before [size_]. *)
Lemma SkipToEol_loop_stops (k : nat) :
  forall (n : nat) (data_ : mem) (pos_ size_ : Z),
    (forall j, 0 <= j < Z.of_nat k -> is_eol (data_ (pos_ + j)) = false) ->
    is_eol (data_ (pos_ + Z.of_nat k)) = true ->
    pos_ + Z.of_nat k <= size_ ->
    (Z.to_nat (size_ - pos_) <= n)%nat ->
    fst (SkipToEol_loop n data_ pos_ size_) = pos_ + Z.of_nat k.
Proof.
  induction k as [| k IH]; intros n data_ pos_ size_ Hpre Hstop Hsize Hn.
  - replace (pos_ + Z.of_nat 0) with pos_ in * by lia.
    rewrite SkipToEol_loop_eq. unfold is_eol in Hstop.
    destruct (data_ pos_ =? LF)%char; [reflexivity |].
    simpl in Hstop. rewrite Hstop. reflexivity.
  - assert (H0 : is_eol (data_ pos_) = false).
    { specialize (Hpre 0). replace (pos_ + 0) with pos_ in Hpre by lia.
      apply Hpre. lia. }
    apply is_eol_false in H0. destruct H0 as [HLF HCR].
    destruct n as [| n]; [lia |].
    rewrite SkipToEol_loop_eq. rewrite HLF, HCR.
    replace (pos_ <? size_) with true by (symmetry; apply Z.ltb_lt; lia).
    cbn [negb andb].
    rewrite (IH n data_ (pos_ + 1) size_).
    + lia.
    + intros j Hj. replace (pos_ + 1 + j) with (pos_ + (j + 1)) by lia.
      apply Hpre. lia.
    + replace (pos_ + 1 + Z.of_nat k) with (pos_ + Z.of_nat (S k)) by lia.
      exact Hstop.
    + lia.
    + lia.
Qed.

(** [usesCrlf] is only ever raised. *)
Lemma SkipToEol_latch (data_ : mem) (pos_ size_ : Z) (u : bool) :
  u = true -> snd (fst (SkipToEol data_ pos_ size_ u)) = true.
Proof.
  intros ->. rewrite SkipToEol_eq. cbv zeta.
  match goal with |- context [if ?c then _ else _] => destruct c end; reflexivity.
Qed.

Lemma find_at_latch (fuel : nat) :
  forall (data_ : mem) (pos_ size_ : Z) (u : bool) (p : Z) (u' : bool),
    fst (find_at fuel data_ pos_ size_ u) = Some (p, u') ->
    u = true -> u' = true.
Proof.
  induction fuel as [| fuel IH]; intros data_ pos_ size_ u p u' H Hu;
    rewrite find_at_eq in H;
    destruct (negb (data_ pos_ =? AT)%char); try discriminate;
    try (inversion H; congruence).
  eapply IH; [exact H |]. apply SkipToEol_latch. exact Hu.
Qed.

Lemma probe_latch (data_ : mem) (size_ pos0 : Z) (u : bool) :
  u = true -> snd (probe data_ size_ pos0 u) = true.
Proof.
  intros Hu. unfold probe. cbv zeta.
  pose proof (SkipToEol_latch data_ pos0 size_ u Hu) as H1.
  destruct (data_ _ =? AT)%char; cbn [snd]; [exact H1 |].
  apply SkipToEol_latch. exact H1.
Qed.

Lemma GetNextRecordPos_latch (fuel : nat) (data_ : mem) (pos_ size_ : Z)
    (u : bool) (p : Z) (u' : bool) :
  fst (GetNextRecordPos fuel data_ pos_ size_ u) = Some (p, u') ->
  u = true -> u' = true.
Proof.
  intros H Hu. rewrite GetNextRecordPos_eq in H. cbv zeta in H.
  destruct (fst (find_at fuel data_ _ size_ _)) as [[p0 u0] |] eqn:Hf;
    [| discriminate].
  apply find_at_latch in Hf; [| apply SkipToEol_latch; exact Hu].
  pose proof (probe_latch data_ size_ p0 u0 Hf) as Hp.
  inversion H as [Hq]. rewrite Hq in Hp. exact Hp.
Qed.

End SkipFacts.

Module RecordFacts.

Import FastqChunkReaderPair Aux SkipFacts.

(** *** Lines and records in a buffer *)

Lemma no_eol_nth (l : list ascii) (i : nat) :
  no_eol l = true -> (i < length l)%nat -> is_eol (nth i l NUL) = false.
Proof.
  unfold no_eol. intros H Hi. rewrite forallb_forall in H.
  specialize (H (nth i l NUL) (nth_In l NUL Hi)).
  apply negb_true_iff in H. exact H.
Qed.

Lemma tlen_cases (t : Terminator) : tlen t = 1 \/ tlen t = 2.
Proof. destruct t; cbv; auto. Qed.

Lemma tlen_pos (t : Terminator) : 1 <= tlen t <= 2.
Proof. destruct t; cbv; split; discriminate. Qed.

Lemma llen_pos (t : Terminator) (l : list ascii) : 1 <= llen t l.
Proof. unfold llen. pose proof (tlen_pos t). lia. Qed.

Lemma render_lines_cons (t : Terminator) (l : list ascii) (ls : list (list ascii)) :
  render_lines t (l :: ls) = (l ++ term_bytes t) ++ render_lines t ls.
Proof. reflexivity. Qed.

Lemma render_lines_length_cons (t : Terminator) (l : list ascii) (ls : list (list ascii)) :
  Z.of_nat (length (render_lines t (l :: ls))) =
  llen t l + Z.of_nat (length (render_lines t ls)).
Proof.
  rewrite render_lines_cons, !length_app. unfold llen, tlen. lia.
Qed.

Lemma render_lines_app (t : Terminator) (ls1 ls2 : list (list ascii)) :
  render_lines t (ls1 ++ ls2) = render_lines t ls1 ++ render_lines t ls2.
Proof.
  unfold render_lines. rewrite map_app, concat_app. reflexivity.
Qed.

(** Inside a line the bytes are no terminators; behind it lies the terminator. *)
Lemma line_at_inside (data : mem) (size_ : Z) (t : Terminator) (p : Z) (l : list ascii) (j : Z) :
  line_at data size_ t p l -> 0 <= j < Z.of_nat (length l) -> is_eol (data (p + j)) = false.
Proof.
  intros (Hh & Hn & _) Hj.
  apply holds_app in Hh. destruct Hh as [Hh _].
  replace j with (Z.of_nat (Z.to_nat j)) by lia.
  rewrite Hh by lia. apply no_eol_nth; [exact Hn | lia].
Qed.

Lemma line_at_term (data : mem) (size_ : Z) (t : Terminator) (p : Z) (l : list ascii) :
  line_at data size_ t p l ->
  match t with
  | TermLF => data (p + Z.of_nat (length l)) = LF
  | TermCR => data (p + Z.of_nat (length l)) = CR
               /\ data (p + Z.of_nat (length l) + 1) <> LF
  | TermCRLF => data (p + Z.of_nat (length l)) = CR
                 /\ data (p + Z.of_nat (length l) + 1) = LF
  end.
Proof.
  intros (Hh & _ & _ & _ & Hcr).
  apply holds_app in Hh. destruct Hh as [_ Hh].
  destruct t.
  - specialize (Hh O). simpl in Hh. rewrite Z.add_0_r in Hh. apply Hh. lia.
  - split.
    + specialize (Hh O). simpl in Hh. rewrite Z.add_0_r in Hh. apply Hh. lia.
    + specialize (Hcr eq_refl). unfold llen, tlen in Hcr. simpl in Hcr.
      replace (p + Z.of_nat (length l) + 1) with (p + (Z.of_nat (length l) + 1)) by lia.
      exact Hcr.
  - split.
    + specialize (Hh O). simpl in Hh. rewrite Z.add_0_r in Hh. apply Hh. lia.
    + specialize (Hh 1%nat). simpl in Hh. apply Hh. lia.
Qed.

Lemma holds_first_byte (data : mem) (t : Terminator) (p : Z) (l : list ascii) :
  holds data p (l ++ term_bytes t) -> data p = first_byte t l.
Proof.
  intros Hh. specialize (Hh O). rewrite Z.add_0_r in Hh.
  rewrite Hh by (rewrite length_app; destruct t; simpl; lia).
  destruct l; [destruct t |]; reflexivity.
Qed.

Lemma first_byte_not_LF (t : Terminator) (l : list ascii) :
  t = TermCR -> no_eol l = true -> first_byte t l <> LF.
Proof.
  intros -> Hn. destruct l as [| c l]; simpl.
  - discriminate.
  - simpl in Hn. apply andb_true_iff in Hn. destruct Hn as [Hc _].
    apply negb_true_iff in Hc. apply is_eol_false in Hc. destruct Hc as [Hc _].
    apply Ascii.eqb_neq. exact Hc.
Qed.

(** What [SkipToEol] does from any offset of a line: it stops on the last
    byte of the line's terminator. *)
Lemma skip_line (data : mem) (size_ : Z) (t : Terminator) (p : Z) (l : list ascii)
    (pos : Z) (u : bool) :
  line_at data size_ t p l ->
  p <= pos < p + llen t l ->
  fst (SkipToEol data pos size_ u) =
  (p + llen t l - 1, flag_after t pos (p + Z.of_nat (length l)) u).
Proof.
  intros Hl Hpos.
  pose proof (line_at_term _ _ _ _ _ Hl) as Ht.
  pose proof (fun j => line_at_inside _ _ _ _ _ j Hl) as Hin.
  destruct Hl as (_ & _ & Hp & Hsz & _).
  unfold llen, tlen in *.
  rewrite SkipToEol_eq. cbv zeta.
  destruct (Z_le_gt_dec pos (p + Z.of_nat (length l))) as [Hle | Hgt].
  - (* from inside the line, or from the first byte of its terminator *)
    rewrite (SkipToEol_loop_stops (Z.to_nat (p + Z.of_nat (length l) - pos))).
    + replace (pos + Z.of_nat (Z.to_nat (p + Z.of_nat (length l) - pos)))
        with (p + Z.of_nat (length l)) by lia.
      destruct t; simpl in *.
      * rewrite Ht. simpl. f_equal. lia.
      * destruct Ht as [Ht1 Ht2]. rewrite Ht1. simpl.
        replace (p + Z.of_nat (length l) <? size_) with true
          by (symmetry; apply Z.ltb_lt; lia).
        apply Ascii.eqb_neq in Ht2. rewrite Ht2. simpl. f_equal. lia.
      * destruct Ht as [Ht1 Ht2]. rewrite Ht1, Ht2. simpl.
        replace (p + Z.of_nat (length l) <? size_) with true
          by (symmetry; apply Z.ltb_lt; lia).
        simpl. replace (pos <=? p + Z.of_nat (length l)) with true
          by (symmetry; apply Z.leb_le; lia).
        f_equal. lia.
    + intros j Hj. replace (pos + j) with (p + (pos - p + j)) by lia.
      apply Hin. lia.
    + replace (pos + Z.of_nat (Z.to_nat (p + Z.of_nat (length l) - pos)))
        with (p + Z.of_nat (length l)) by lia.
      unfold is_eol. destruct t; simpl in Ht.
      * rewrite Ht. reflexivity.
      * destruct Ht as [-> _]. reflexivity.
      * destruct Ht as [-> _]. reflexivity.
    + destruct t; simpl in Hsz; lia.
    + lia.
  - (* from the '\n' of a "\r\n" *)
    destruct t; simpl in *; try lia.
    assert (pos = p + Z.of_nat (length l) + 1) by lia. subst pos.
    destruct Ht as [_ Ht2].
    rewrite (SkipToEol_loop_stops O).
    + rewrite Z.add_0_r. rewrite Ht2. simpl.
      replace (p + Z.of_nat (length l) + 1 <=? p + Z.of_nat (length l)) with false
        by (symmetry; apply Z.leb_gt; lia).
      f_equal. lia.
    + intros j Hj. lia.
    + rewrite Z.add_0_r. rewrite Ht2. reflexivity.
    + lia.
    + lia.
Qed.

Lemma flag_after_start (t : Terminator) (pos e : Z) (u : bool) :
  pos <= e -> flag_after t pos e u = flag_after t 0 0 u.
Proof.
  intros H. unfold flag_after. destruct t; try reflexivity.
  replace (pos <=? e) with true by (symmetry; apply Z.leb_le; lia). reflexivity.
Qed.

Lemma flag_after_absorb (t : Terminator) (a b : Z) (u : bool) :
  flag_after t 0 0 (flag_after t a b u) = flag_after t 0 0 u.
Proof. destruct t; reflexivity. Qed.

Lemma lines_at_of_holds (ls : list (list ascii)) :
  forall (data : mem) (size_ : Z) (t : Terminator) (p : Z),
    holds data p (render_lines t ls) ->
    forallb no_eol ls = true ->
    0 <= p ->
    p + Z.of_nat (length (render_lines t ls)) <= size_ ->
    lines_at data size_ t p ls.
Proof.
  induction ls as [| l ls IH]; intros data size_ t p Hh Hn Hp Hsz; [exact I |].
  rewrite render_lines_cons in Hh. apply holds_app in Hh. destruct Hh as [Hl Hrest].
  rewrite render_lines_length_cons in Hsz.
  simpl in Hn. apply andb_true_iff in Hn. destruct Hn as [Hnl Hnls].
  replace (Z.of_nat (length (l ++ term_bytes t))) with (llen t l) in Hrest
    by (rewrite length_app; unfold llen, tlen; lia).
  destruct ls as [| l2 ls']; [exact Hl |].
  change (line_at data size_ t p l /\ lines_at data size_ t (p + llen t l) (l2 :: ls')).
  pose proof (llen_pos t l) as Hpos.
  pose proof (Nat2Z.is_nonneg (length (render_lines t (l2 :: ls')))) as Hnn.
  split.
  - repeat split; try assumption; try lia.
    intros Ht. rewrite render_lines_cons in Hrest. apply holds_app in Hrest.
    destruct Hrest as [Hl2 _]. rewrite (holds_first_byte _ _ _ _ Hl2).
    apply first_byte_not_LF; [exact Ht |].
    simpl in Hnls. apply andb_true_iff in Hnls. apply Hnls.
  - apply IH; try assumption; lia.
Qed.

(** *** The search for ['@'] and the probe, line by line *)

Lemma find_at_hit (fuel : nat) (data : mem) (p size_ : Z) (u : bool) :
  (data p =? AT)%char = true -> fst (find_at fuel data p size_ u) = Some (p, u).
Proof. intros H. rewrite find_at_eq, H. reflexivity. Qed.

Lemma find_at_skip (fuel : nat) (data : mem) (size_ : Z) (t : Terminator) (p : Z)
    (l : list ascii) (u : bool) :
  line_at data size_ t p l ->
  size_ < 2 ^ 64 ->
  (data p =? AT)%char = false ->
  fst (find_at (S fuel) data p size_ u) =
  fst (find_at fuel data (p + llen t l) size_ (flag_after t 0 0 u)).
Proof.
  intros Hl Hsz Hb. rewrite find_at_eq, Hb. cbn [negb].
  pose proof (llen_pos t l) as Hpos.
  assert (Hr : p <= p < p + llen t l) by lia.
  rewrite (skip_line _ _ _ _ _ p u Hl Hr). cbn [fst snd].
  destruct Hl as (_ & _ & Hp & Hle & _).
  replace (p + llen t l - 1 + 1) with (p + llen t l) by lia.
  rewrite u64_small by lia.
  rewrite flag_after_start by lia.
  reflexivity.
Qed.

(** The search stopped on a quality line that begins with ['@']: the line
    behind it begins with ['@'] too, and that one is the record start. *)
Lemma probe_quality (data : mem) (size_ : Z) (t : Terminator) (p : Z) (l : list ascii)
    (u : bool) :
  line_at data size_ t p l ->
  size_ < 2 ^ 64 ->
  (data (p + llen t l) =? AT)%char = true ->
  probe data size_ p u = (p + llen t l, flag_after t 0 0 u).
Proof.
  intros Hl Hsz Hb. unfold probe. cbv zeta.
  pose proof (llen_pos t l) as Hpos.
  assert (Hr : p <= p < p + llen t l) by lia.
  rewrite (skip_line _ _ _ _ _ p u Hl Hr). cbn [fst snd].
  destruct Hl as (_ & _ & Hp & Hle & _).
  replace (p + llen t l - 1 + 1) with (p + llen t l) by lia.
  rewrite u64_small by lia.
  rewrite Hb. rewrite flag_after_start by lia. reflexivity.
Qed.

(** The search stopped on a name line: the line behind it does not begin
    with ['@'], and the name line is the record start. *)
Lemma probe_name (data : mem) (size_ : Z) (t : Terminator) (p : Z) (l l' : list ascii)
    (u : bool) :
  line_at data size_ t p l ->
  line_at data size_ t (p + llen t l) l' ->
  size_ < 2 ^ 64 ->
  (data (p + llen t l) =? AT)%char = false ->
  probe data size_ p u = (p, flag_after t 0 0 u).
Proof.
  intros Hl Hl' Hsz Hb. unfold probe. cbv zeta.
  pose proof (llen_pos t l) as Hpos. pose proof (llen_pos t l') as Hpos'.
  assert (Hr : p <= p < p + llen t l) by lia.
  rewrite (skip_line _ _ _ _ _ p u Hl Hr). cbn [fst snd].
  destruct Hl as (_ & _ & Hp & Hle & _).
  replace (p + llen t l - 1 + 1) with (p + llen t l) by lia.
  rewrite u64_small by lia.
  rewrite Hb.
  assert (Hr' : p + llen t l <= p + llen t l < p + llen t l + llen t l') by lia.
  rewrite (skip_line _ _ _ _ _ _ _ Hl' Hr'). cbn [fst snd].
  rewrite !flag_after_start by lia. rewrite flag_after_absorb. reflexivity.
Qed.

Lemma starts_with_first_byte (t : Terminator) (c : ascii) (l : list ascii) :
  starts_with c l = true -> first_byte t l = c.
Proof.
  destruct l as [| x l]; simpl; [discriminate |]. apply Ascii.eqb_eq.
Qed.

Lemma first_byte_not_at (t : Terminator) (l : list ascii) :
  starts_with AT l = false -> (first_byte t l =? AT)%char = false.
Proof.
  destruct l as [| x l]; simpl; [destruct t; reflexivity | auto].
Qed.

Lemma render_length (t : Terminator) (r : FastqRecord) :
  Z.of_nat (length (render t r)) =
  llen t (rec_name r) + llen t (rec_sequence r)
  + llen t (rec_strand r) + llen t (rec_quality r).
Proof.
  unfold render, record_lines. rewrite !render_lines_length_cons. simpl. lia.
Qed.

(** From the start of the quality line of a record on, the search and the
    probe end on the name line of the next record, whether or not the
    quality begins with ['@']. *)
Lemma search_from_quality (data : mem) (size_ : Z) (t : Terminator) (o3 : Z)
    (q n1 s1 : list ascii) (fuel : nat) (u : bool) :
  line_at data size_ t o3 q ->
  line_at data size_ t (o3 + llen t q) n1 ->
  line_at data size_ t (o3 + llen t q + llen t n1) s1 ->
  size_ < 2 ^ 64 ->
  data (o3 + llen t q) = AT ->
  (data (o3 + llen t q + llen t n1) =? AT)%char = false ->
  match fst (find_at (S fuel) data o3 size_ u) with
  | Some (pos0, u0) => Some (probe data size_ pos0 u0)
  | None => None
  end = Some (o3 + llen t q, flag_after t 0 0 u).
Proof.
  intros Hq Hn1 Hs1 Hsz Hat Hnot.
  assert (Hat' : (data (o3 + llen t q) =? AT)%char = true)
    by (rewrite Hat; apply Ascii.eqb_refl).
  destruct (data o3 =? AT)%char eqn:Hq0.
  - rewrite find_at_hit by exact Hq0.
    rewrite (probe_quality _ _ _ _ _ u Hq Hsz Hat'). reflexivity.
  - rewrite (find_at_skip _ _ _ _ _ _ u Hq Hsz Hq0).
    rewrite find_at_hit by exact Hat'.
    rewrite (probe_name _ _ _ _ _ _ _ Hn1 Hs1 Hsz Hnot).
    rewrite flag_after_absorb. reflexivity.
Qed.

(** C3.  In a buffer that holds two consecutive well-formed four-line records
    [rk] and [rk1] from offset [base] on (lines ended by ['\n'], by ['\r'] or
    by ["\r\n"]), inside the first [size_] bytes, [GetNextRecordPos] started
    at any offset of [rk] returns the offset of the ['@'] that begins the
    name line of [rk1].  The quality of [rk] may begin with ['@']: it is
    never returned.  Three rounds of the search loop are enough. *)
Theorem GetNextRecordPos_finds_next_record
    (data : mem) (size_ base : Z) (t : Terminator) (rk rk1 : FastqRecord)
    (pos : Z) (u : bool) (fuel : nat) :
  well_formed rk = true ->
  well_formed rk1 = true ->
  holds data base (render t rk ++ render t rk1) ->
  0 <= base ->
  base <= pos < base + Z.of_nat (length (render t rk)) ->
  base + Z.of_nat (length (render t rk)) + Z.of_nat (length (render t rk1)) <= size_ ->
  size_ < 2 ^ 64 ->
  (3 <= fuel)%nat ->
  fst (GetNextRecordPos fuel data pos size_ u)
  = Some (base + Z.of_nat (length (render t rk)), flag_after t 0 0 u)
  /\ data (base + Z.of_nat (length (render t rk))) = AT.
Proof.
  intros Hwk Hwk1 Hh Hbase Hpos Hsz H64 Hfuel.
  unfold well_formed in Hwk, Hwk1.
  repeat (match goal with H : _ && _ = true |- _ => apply andb_true_iff in H; destruct H end).
  match goal with H : negb (starts_with AT (rec_sequence rk)) = true |- _ =>
    apply negb_true_iff in H; rename H into Hs_at end.
  match goal with H : negb (starts_with AT (rec_sequence rk1)) = true |- _ =>
    apply negb_true_iff in H; rename H into Hs1_at end.
  assert (Hlines : lines_at data size_ t base (record_lines rk ++ record_lines rk1)).
  { apply lines_at_of_holds.
    - rewrite render_lines_app. exact Hh.
    - unfold record_lines. simpl.
      repeat (apply andb_true_iff; split); auto.
    - exact Hbase.
    - rewrite render_lines_app, length_app. unfold render in Hsz. lia. }
  rewrite render_length in *.
  unfold record_lines in Hlines. simpl in Hlines.
  destruct rk as [n s p q], rk1 as [n1 s1 p1 q1].
  cbn [rec_name rec_sequence rec_strand rec_quality] in *.
  destruct Hlines as (Ln & Ls & Lp & Lq & Ln1 & Ls1 & Lp1 & Hq1).
  pose proof (llen_pos t n) as Pn. pose proof (llen_pos t s) as Ps.
  pose proof (llen_pos t p) as Pp. pose proof (llen_pos t q) as Pq.
  (* first bytes *)
  assert (Bs : (data (base + llen t n) =? AT)%char = false).
  { destruct Ls as (Hs & _). rewrite (holds_first_byte _ _ _ _ Hs).
    apply first_byte_not_at. exact Hs_at. }
  assert (Bp : (data (base + llen t n + llen t s) =? AT)%char = false).
  { destruct Lp as (Hp & _). rewrite (holds_first_byte _ _ _ _ Hp).
    rewrite (starts_with_first_byte t PLUS) by assumption. reflexivity. }
  assert (Bn1 : data (base + llen t n + llen t s + llen t p + llen t q) = AT).
  { destruct Ln1 as (Hn1 & _). rewrite (holds_first_byte _ _ _ _ Hn1).
    apply starts_with_first_byte. assumption. }
  assert (Bs1 : (data (base + llen t n + llen t s + llen t p + llen t q + llen t n1)
                 =? AT)%char = false).
  { destruct Ls1 as (Hs1 & _). rewrite (holds_first_byte _ _ _ _ Hs1).
    apply first_byte_not_at. exact Hs1_at. }
  replace (base + (llen t n + llen t s + llen t p + llen t q))
    with (base + llen t n + llen t s + llen t p + llen t q) in * by lia.
  split; [| exact Bn1].
  rewrite GetNextRecordPos_eq. cbv zeta.
  destruct fuel as [| [| [| fuel]]]; try lia.
  pose proof (search_from_quality data size_ t
                (base + llen t n + llen t s + llen t p) q n1 s1) as Hsearch.
  specialize (fun f v => Hsearch f v Lq Ln1 Ls1 H64 Bn1 Bs1).
  assert (Hu64 : forall x, 0 <= x < size_ -> u64 (x - 1 + 1) = x).
  { intros x Hx. replace (x - 1 + 1) with x by lia. apply u64_small. lia. }
  destruct (Z_lt_ge_dec pos (base + llen t n)) as [C0 | C0].
  { (* in the name line *)
    rewrite (skip_line _ _ _ _ _ pos u Ln) by lia. cbn [fst snd].
    rewrite Hu64 by (destruct Ls as (_ & _ & _ & ? & _); lia).
    rewrite (find_at_skip _ _ _ _ _ _ _ Ls H64 Bs).
    rewrite (find_at_skip _ _ _ _ _ _ _ Lp H64 Bp).
    rewrite Hsearch. rewrite !flag_after_absorb. reflexivity. }
  destruct (Z_lt_ge_dec pos (base + llen t n + llen t s)) as [C1 | C1].
  { (* in the sequence line *)
    rewrite (skip_line _ _ _ _ _ pos u Ls) by lia. cbn [fst snd].
    rewrite Hu64 by (destruct Lp as (_ & _ & _ & ? & _); lia).
    rewrite (find_at_skip _ _ _ _ _ _ _ Lp H64 Bp).
    rewrite Hsearch. rewrite !flag_after_absorb. reflexivity. }
  destruct (Z_lt_ge_dec pos (base + llen t n + llen t s + llen t p)) as [C2 | C2].
  { (* in the separator line *)
    rewrite (skip_line _ _ _ _ _ pos u Lp) by lia. cbn [fst snd].
    rewrite Hu64 by (destruct Lq as (_ & _ & _ & ? & _); lia).
    rewrite Hsearch. rewrite !flag_after_absorb. reflexivity. }
  (* in the quality line *)
  rewrite (skip_line _ _ _ _ _ pos u Lq) by lia. cbn [fst snd].
  rewrite Hu64 by (destruct Ln1 as (_ & _ & _ & ? & _); pose proof (llen_pos t n1); lia).
  rewrite find_at_hit by (rewrite Bn1; apply Ascii.eqb_refl).
  rewrite (probe_name _ _ _ _ _ _ _ Ln1 Ls1 H64 Bs1).
  rewrite flag_after_absorb. reflexivity.
Qed.

(** The theorem at work: the quality of the first record begins with ['@'];
    from offset 5, inside the sequence line, the cut is offset 16, the name
    line of the second record, not offset 11, the quality line. *)
Lemma GetNextRecordPos_finds_next_record_witness :
  let rk := {| rec_name := bytes "@r1"; rec_sequence := bytes "ACGT";
               rec_strand := bytes "+"; rec_quality := bytes "@III" |} in
  let rk1 := {| rec_name := bytes "@r2"; rec_sequence := bytes "GGCC";
                rec_strand := bytes "+"; rec_quality := bytes "IIII" |} in
  let data := ptr zeros (render TermLF rk ++ render TermLF rk1) in
  (well_formed rk = true /\ well_formed rk1 = true
   /\ holds data 0 (render TermLF rk ++ render TermLF rk1)
   /\ 0 <= 5 < 16 /\ 32 <= 32 < 2 ^ 64 /\ (3 <= 3)%nat)
  /\ fst (GetNextRecordPos 3 data 5 32 false) = Some (16, false)
  /\ data 11 = AT /\ data 16 = AT.
Proof.
  intros rk rk1 data.
  assert (Hh : holds data 0 (render TermLF rk ++ render TermLF rk1))
    by apply holds_ptr.
  split; [| split].
  - repeat split; try reflexivity; try lia. exact Hh.
  - apply (GetNextRecordPos_finds_next_record data 32 0 TermLF rk rk1 5 false 3);
      try reflexivity; try exact Hh; try (vm_compute; intuition discriminate); lia.
  - split; reflexivity.
Defined.

End RecordFacts.

Module SplitterFacts.

Import FastqChunkReaderPair Aux SkipFacts.

(** *** The end-of-stream latch *)

Lemma Acquire_some (p : FastqDataPool) :
  available p <> [] ->
  exists b rest,
    available p = b :: rest
    /\ Acquire p = Some (b, {| available := rest; acquired := S (acquired p);
                               released := released p |}).
Proof.
  unfold Acquire. destruct (available p) as [| b rest]; [congruence |].
  intros _. exists b, rest. split; reflexivity.
Qed.

(** One call in the latched state. *)
Lemma eof_call (tmp : Z) (wild : mem) (fuel : nat) (s : t) :
  eof s = true ->
  available (fastqPool_left s) <> [] ->
  available (fastqPool_right s) <> [] ->
  exists s',
    readNextChunkPair_interleaved tmp wild fuel s = Returned None s'
    /\ eof s' = true
    /\ mLeft s' = mLeft s /\ mRight s' = mRight s
    /\ swapBuffer_left s' = swapBuffer_left s /\ swapBuffer_right s' = swapBuffer_right s
    /\ bufferSize_left s' = bufferSize_left s /\ bufferSize_right s' = bufferSize_right s
    /\ usesCrlf s' = usesCrlf s
    /\ available (fastqPool_left s') = available (fastqPool_left s)
    /\ available (fastqPool_right s') = available (fastqPool_right s)
    /\ acquired (fastqPool_left s') = S (acquired (fastqPool_left s))
    /\ released (fastqPool_left s') = S (released (fastqPool_left s))
    /\ acquired (fastqPool_right s') = S (acquired (fastqPool_right s))
    /\ released (fastqPool_right s') = S (released (fastqPool_right s)).
Proof.
  intros He Hl Hr.
  destruct (Acquire_some _ Hl) as (bl & restl & Hal & HAl).
  destruct (Acquire_some _ Hr) as (br & restr & Har & HAr).
  unfold readNextChunkPair_interleaved. rewrite HAl, HAr, He.
  eexists. split; [reflexivity |]. cbn.
  rewrite Hal, Har. repeat split; auto.
Qed.

(** C4.  Once [eof] is set, a call acquires one chunk from each pool, hands
    both back, reads nothing from either file, leaves [eof] set and returns
    "no more chunks"; and so does every later call: after [n] calls all [n]
    results are [NULL], the files are where they were, and each pool has seen
    [n] more [Acquire] and [n] more [Release]. *)
Theorem eof_latched (tmp : Z) (wild : mem) (fuel : nat) (s : t) (n : nat) :
  eof s = true ->
  available (fastqPool_left s) <> [] ->
  available (fastqPool_right s) <> [] ->
  exists s',
    calls tmp wild n fuel s = Some (repeat None n, s')
    /\ eof s' = true
    /\ mLeft s' = mLeft s /\ mRight s' = mRight s
    /\ available (fastqPool_left s') = available (fastqPool_left s)
    /\ available (fastqPool_right s') = available (fastqPool_right s)
    /\ acquired (fastqPool_left s') = (acquired (fastqPool_left s) + n)%nat
    /\ released (fastqPool_left s') = (released (fastqPool_left s) + n)%nat
    /\ acquired (fastqPool_right s') = (acquired (fastqPool_right s) + n)%nat
    /\ released (fastqPool_right s') = (released (fastqPool_right s) + n)%nat.
Proof.
  revert s. induction n as [| n IH]; intros s He Hl Hr.
  - exists s. simpl. rewrite !Nat.add_0_r. repeat split; auto.
  - destruct (eof_call tmp wild fuel s He Hl Hr)
      as (s1 & Hcall & He1 & HmL & HmR & _ & _ & _ & _ & _ & HaL & HaR & HqL & HrL & HqR & HrR).
    destruct (IH s1 He1) as (s' & Hcalls & He' & HmL' & HmR' & HaL' & HaR' & HqL' & HrL' & HqR' & HrR').
    + rewrite HaL. exact Hl.
    + rewrite HaR. exact Hr.
    + exists s'. cbn [calls repeat]. rewrite Hcall, Hcalls.
      repeat split; try congruence; lia.
Qed.

Lemma eof_latched_witness :
  let s := {| mLeft := bytes "@r"; mRight := []; mInterleaved := false;
              fastqPool_left := {| available := [bytes "xx"]; acquired := 4; released := 4 |};
              fastqPool_right := {| available := [bytes "yy"]; acquired := 4; released := 4 |};
              swapBuffer_left := []; swapBuffer_right := [];
              bufferSize_left := 0; bufferSize_right := 0;
              eof := true; usesCrlf := false; stdout := [] |} in
  exists s',
    calls 1 zeros 3 0 s = Some ([None; None; None], s')
    /\ eof s' = true /\ mLeft s' = bytes "@r"
    /\ acquired (fastqPool_left s') = 7%nat /\ released (fastqPool_left s') = 7%nat.
Proof.
  intros s.
  destruct (eof_latched 1 zeros 0 s 3) as (s' & H1 & H2 & H3 & _ & _ & _ & H4 & H5 & _);
    [reflexivity | discriminate | discriminate |].
  exists s'. repeat split; assumption.
Defined.

(** *** The zero-read abort *)

(** C5 (the code breaks the claim).  The claim: whenever
    [readNextChunkPair_interleaved] returns "no more chunks", the two chunks
    it acquired are back in their pools.  On two empty files the first call
    reads nothing on the left, finds nothing carried over and returns [NULL]
    at once: each pool has one [Acquire] and no [Release], and the buffers
    are gone from the free lists.  The same happens when only the right
    file is empty; the bytes already read from the left file are lost with
    the chunk. *)
Theorem zero_read_abort_keeps_chunks :
  let buf := repeat NUL 48 in
  let both_empty := new 48 [] [] false [buf] [buf] in
  let right_empty := new 48 (unlines TermLF ["@r"; "AC"; "+"; "II"]%string) [] false
                       [buf] [buf] in
  (exists s',
     readNextChunkPair_interleaved 24 zeros 3 both_empty = Returned None s'
     /\ eof s' = false
     /\ acquired (fastqPool_left s') = 1%nat /\ released (fastqPool_left s') = 0%nat
     /\ acquired (fastqPool_right s') = 1%nat /\ released (fastqPool_right s') = 0%nat
     /\ available (fastqPool_left s') = [] /\ available (fastqPool_right s') = [])
  /\ (exists s',
     readNextChunkPair_interleaved 24 zeros 3 right_empty = Returned None s'
     /\ eof s' = false /\ mLeft s' = [] /\ bufferSize_left s' = 0
     /\ acquired (fastqPool_left s') = 1%nat /\ released (fastqPool_left s') = 0%nat
     /\ acquired (fastqPool_right s') = 1%nat /\ released (fastqPool_right s') = 0%nat
     /\ available (fastqPool_left s') = [] /\ available (fastqPool_right s') = []).
Proof.
  split; eexists; (split; [vm_compute; reflexivity |]); cbn; repeat split.
Qed.

End SplitterFacts.

Module CrlfFacts.

Import FastqChunkReaderPair Aux SkipFacts.

(** *** The [usesCrlf] latch *)

(** The three ways a refill ends. *)
Lemma refill_cases (tmp : Z) (wild : mem) (fuel : nat) (short zero : message)
    (buf swap : list ascii) (bufferSize : Z) (src : list ascii) (u : bool) (L : refilled) :
  refill tmp wild fuel short zero buf swap bufferSize src u = Some L ->
  let cbufSize := Z.of_nat (length buf) in
  let toRead := cbufSize - bufferSize in
  let size0 := if bufferSize >? 0 then bufferSize else 0 in
  let got := firstn (Z.to_nat toRead) src in
  let r := Z.of_nat (length got) in
  r_data L = store (if bufferSize >? 0 then store buf 0 (slice swap 0 bufferSize) else buf)
               size0 got
  /\ r_rest L = skipn (Z.to_nat toRead) src
  /\ r_bufferSize L = (if bufferSize >? 0 then 0 else bufferSize)
  /\ ((* a full read *)
      (0 < r /\ r = toRead
       /\ (exists c,
              fst (GetNextRecordPos fuel (ptr wild (r_data L)) (u64 (cbufSize - tmp))
                     cbufSize u) = Some (c, r_usesCrlf L)
              /\ r_chunkEnd L = i64 c)
       /\ r_size L = size0 /\ r_cbufSize L = cbufSize /\ r_eof L = false
       /\ r_abort L = false /\ r_out L = [])
      \/ (* a short read *)
      (0 < r /\ r <> toRead
       /\ r_size L = (if u then u64 (u64 (size0 + (r - 1)) - 1) else u64 (size0 + (r - 1)))
       /\ r_chunkEnd L = i64 (r_size L + 1) /\ r_cbufSize L = u64 (r_size L + 1)
       /\ r_eof L = true /\ r_usesCrlf L = u
       /\ r_abort L = false /\ r_out L = [short])
      \/ (* nothing read *)
      (r <= 0
       /\ r_size L = size0
       /\ r_chunkEnd L = i64 (size0 + 1) /\ r_cbufSize L = u64 (size0 + 1)
       /\ r_eof L = true /\ r_usesCrlf L = u
       /\ r_abort L = (size0 =? 0) /\ r_out L = [zero])).
Proof.
  unfold refill, Read. intros H. cbv zeta.
  set (toRead := Z.of_nat (length buf) - bufferSize) in *.
  destruct (bufferSize >? 0) eqn:Hb;
    (destruct (Z.of_nat (length (firstn (Z.to_nat toRead) src)) >? 0) eqn:Hr;
     [ destruct (Z.of_nat (length (firstn (Z.to_nat toRead) src)) =? toRead) eqn:Hfull;
       [ match type of H with
         | match ?g with _ => _ end = _ => destruct g as [[c u'] |] eqn:Hg; [| discriminate]
         end;
         inversion H; subst L; clear H; cbn;
         repeat split; left; repeat split; try lia; try (apply Z.eqb_eq; exact Hfull);
         exists c; split; [exact Hg | reflexivity]
       | inversion H; subst L; clear H; cbn;
         repeat split; right; left; apply Z.eqb_neq in Hfull;
         repeat split; try lia; destruct u; reflexivity ]
     | inversion H; subst L; clear H; cbn;
       repeat split; right; right; repeat split; lia ]).
Qed.

Lemma refill_latch (tmp : Z) (wild : mem) (fuel : nat) (short zero : message)
    (buf swap : list ascii) (bufferSize : Z) (src : list ascii) (u : bool) (L : refilled) :
  refill tmp wild fuel short zero buf swap bufferSize src u = Some L ->
  u = true -> r_usesCrlf L = true.
Proof.
  intros H Hu. apply refill_cases in H. cbv zeta in H.
  destruct H as (_ & _ & _ & [Hc | [Hc | Hc]]).
  - destruct Hc as (_ & _ & (c & Hg & _) & _).
    eapply GetNextRecordPos_latch; [exact Hg | exact Hu].
  - destruct Hc as (_ & _ & _ & _ & _ & _ & Hx & _). congruence.
  - destruct Hc as (_ & _ & _ & _ & _ & Hx & _). congruence.
Qed.

Lemma readNextChunkPair_interleaved_latch (tmp : Z) (wild : mem) (fuel : nat)
    (s s' : t) (p : option ChunkPair) :
  readNextChunkPair_interleaved tmp wild fuel s = Returned p s' ->
  usesCrlf s = true -> usesCrlf s' = true.
Proof.
  unfold readNextChunkPair_interleaved. intros H Hu.
  destruct (Acquire (fastqPool_left s)) as [[bl pl] |]; [| discriminate].
  destruct (Acquire (fastqPool_right s)) as [[br pr] |]; [| discriminate].
  destruct (eof s).
  { inversion H. exact Hu. }
  destruct (refill tmp wild fuel Read1Short Read1Zero bl _ _ _ _) as [L |] eqn:HL;
    [| discriminate].
  pose proof (refill_latch _ _ _ _ _ _ _ _ _ _ _ HL Hu) as HuL.
  destruct (r_abort L).
  { inversion H. exact HuL. }
  destruct (refill tmp wild fuel Read2Short Read2Zero br _ _ _ _) as [R |] eqn:HR;
    [| discriminate].
  pose proof (refill_latch _ _ _ _ _ _ _ _ _ _ _ HR HuL) as HuR.
  destruct (r_abort R).
  { inversion H. exact HuR. }
  cbv zeta in H.
  destruct (negb (if r_eof L && r_eof R then true else false)); inversion H; exact HuR.
Qed.

(** The sizes the re-synchronisation sets: the cut less one, or less two
    when [usesCrlf] is set, as a [uint64], the same on both sides. *)
Lemma resync_sizes (wild : mem) (data : list ascii) (chunkEnd cbufSize : Z)
    (data_right : list ascii) (chunkEnd_right cbufSize_right : Z) (u : bool)
    (swapL swapR : list ascii) :
  let y := resync wild data chunkEnd cbufSize data_right chunkEnd_right cbufSize_right
             u swapL swapR in
  y_size_left y = (if u then u64 (u64_of_i64 (y_chunkEnd y - 1) - 1)
                   else u64_of_i64 (y_chunkEnd y - 1))
  /\ y_size_right y = (if u then u64 (u64_of_i64 (y_chunkEnd_right y - 1) - 1)
                       else u64_of_i64 (y_chunkEnd_right y - 1))
  /\ y_bufferSize_left y = cbufSize - y_chunkEnd y
  /\ y_bufferSize_right y = cbufSize_right - y_chunkEnd_right y
  /\ y_swapBuffer_left y = store swapL 0 (slice data (y_chunkEnd y) cbufSize)
  /\ y_swapBuffer_right y = store swapR 0 (slice data_right (y_chunkEnd_right y) cbufSize_right).
Proof.
  unfold resync. cbv zeta.
  match goal with |- context [let '(a, b) := ?e in _] => destruct e as [cl cr] end.
  cbn [y_size_left y_size_right y_chunkEnd y_chunkEnd_right y_bufferSize_left
       y_bufferSize_right y_swapBuffer_left y_swapBuffer_right].
  destruct u; repeat split; reflexivity.
Qed.

(** C7 as stated fails in both directions.  "Only if": the left file ends
    its lines with ['\n'], the right file with ["\r\n"]; the first terminator
    seen is ['\n'], and after the first call [usesCrlf] is set.  "If": both
    files end their lines with ["\r\n"] but hold a single record each; they
    are read whole by one short read, [SkipToEol] never runs, and [usesCrlf]
    stays unset. *)
Lemma usesCrlf_not_first_terminator :
  let buf := repeat NUL 48 in
  let mixed := new 48 (records TermLF 6 "@a" "A" "I") (records TermCRLF 4 "@b" "AC" "II")
                 false [buf] [buf] in
  let small := new 48 (records TermCRLF 1 "@a" "A" "I") (records TermCRLF 1 "@b" "AC" "II")
                 false [buf] [buf] in
  (first_terminator_seen mixed = Some TermLF
   /\ exists p s', readNextChunkPair_interleaved 24 zeros 3 mixed = Returned (Some p) s'
                   /\ usesCrlf s' = true)
  /\ (first_terminator_seen small = Some TermCRLF
      /\ exists p s', readNextChunkPair_interleaved 24 zeros 3 small = Returned (Some p) s'
                      /\ usesCrlf s' = false).
Proof.
  split; (split; [reflexivity |]); do 2 eexists;
    (split; [vm_compute; reflexivity | reflexivity]).
Qed.

End CrlfFacts.

Module StreamFacts.

Import FastqChunkReaderPair Aux SkipFacts CrlfFacts.

(** *** Buffers as lists *)

Lemma store_0 (dst src : list ascii) : store dst 0 src = src ++ skipn (length src) dst.
Proof. unfold store. simpl. reflexivity. Qed.

Lemma slice_0 (l : list ascii) (n : Z) : slice l 0 n = firstn (Z.to_nat n) l.
Proof. unfold slice. simpl. rewrite Z.sub_0_r. reflexivity. Qed.


(** The chunk buffer after the carry-over and the bytes read were written. *)
Lemma refill_data (buf swap got : list ascii) (b : Z) :
  0 <= b <= Z.of_nat (length swap) ->
  b + Z.of_nat (length got) <= Z.of_nat (length buf) ->
  store (if b >? 0 then store buf 0 (slice swap 0 b) else buf)
        (if b >? 0 then b else 0) got
  = firstn (Z.to_nat b) swap ++ got ++ skipn (Z.to_nat b + length got) buf.
Proof.
  intros Hb Hlen.
  assert (Hc : length (firstn (Z.to_nat b) swap) = Z.to_nat b)
    by (rewrite length_firstn; lia).
  destruct (b >? 0) eqn:Hpos.
  - rewrite slice_0, store_0. unfold store. rewrite Hc.
    rewrite firstn_app, Hc, Nat.sub_diag, firstn_all2 by lia. simpl. rewrite app_nil_r.
    f_equal. f_equal.
    rewrite skipn_app, Hc. rewrite skipn_all2 by lia. simpl.
    rewrite skipn_skipn. f_equal. lia.
  - assert (b = 0) by lia. subst b. simpl. unfold store. simpl. reflexivity.
Qed.

(** *** One side of a round *)

(** A refill that finds room in the chunk and bytes in the file. *)
Lemma refill_stream (tmp : Z) (wild : mem) (fuel : nat) (short zero : message)
    (buf swap : list ascii) (b : Z) (src : list ascii) (u : bool) (L : refilled) :
  refill tmp wild fuel short zero buf swap b src u = Some L ->
  0 <= b <= Z.of_nat (length swap) ->
  b < Z.of_nat (length buf) ->
  0 < Z.of_nat (length src) ->
  let toRead := Z.of_nat (length buf) - b in
  let got := firstn (Z.to_nat toRead) src in
  let r := Z.of_nat (length got) in
  0 < r
  /\ firstn (Z.to_nat (b + r)) (r_data L) = firstn (Z.to_nat b) swap ++ got
  /\ b + r <= Z.of_nat (length (r_data L))
  /\ r_rest L = skipn (Z.to_nat toRead) src
  /\ r_bufferSize L = 0
  /\ r_abort L = false
  /\ ((r_eof L = false /\ r_cbufSize L = b + r /\ toRead <= Z.of_nat (length src))
      \/ (r_eof L = true
          /\ r_size L = (if u then u64 (u64 (b + (r - 1)) - 1) else u64 (b + (r - 1)))
          /\ r_cbufSize L = u64 (r_size L + 1)
          /\ r_usesCrlf L = u
          /\ r_rest L = []
          /\ Z.of_nat (length src) < toRead)).
Proof.
  intros H Hb Hcap Hsrc. cbv zeta.
  apply refill_cases in H. cbv zeta in H.
  destruct H as (Hdata & Hrest & Hbs & Hcases).
  set (toRead := Z.of_nat (length buf) - b) in *.
  set (got := firstn (Z.to_nat toRead) src) in *.
  assert (Hgot : Z.of_nat (length got) = Z.min toRead (Z.of_nat (length src))).
  { unfold got. rewrite length_firstn. lia. }
  assert (Hr : 0 < Z.of_nat (length got)) by lia.
  rewrite refill_data in Hdata by lia.
  assert (Hsize0 : (if b >? 0 then b else 0) = b) by (destruct (b >? 0) eqn:E; lia).
  assert (Hfirst : firstn (Z.to_nat (b + Z.of_nat (length got))) (r_data L)
                   = firstn (Z.to_nat b) swap ++ got).
  { rewrite Hdata.
    replace (Z.to_nat (b + Z.of_nat (length got)))
      with (length (firstn (Z.to_nat b) swap ++ got) + 0)%nat
      by (rewrite length_app, length_firstn; lia).
    rewrite app_assoc, firstn_app_2. simpl. apply app_nil_r. }
  assert (Hlen : b + Z.of_nat (length got) <= Z.of_nat (length (r_data L))).
  { rewrite Hdata, !length_app, length_firstn, length_skipn. lia. }
  repeat (split; [first [assumption | (destruct (b >? 0) eqn:E; lia)] |]).
  split.
  { destruct Hcases as [Hc | [Hc | Hc]].
    - destruct Hc as (_ & _ & _ & _ & _ & _ & Ha & _). exact Ha.
    - destruct Hc as (_ & _ & _ & _ & _ & _ & _ & Ha & _). exact Ha.
    - destruct Hc as (Hz & _). lia. }
  destruct Hcases as [Hc | [Hc | Hc]].
  - left. destruct Hc as (_ & Hfull & _ & _ & Hcb & He & _).
    repeat split; try assumption; lia.
  - right. destruct Hc as (_ & Hne & Hsz & _ & Hcb & He & Hu & _).
    rewrite Hsize0 in Hsz.
    repeat split; try assumption; try lia.
    rewrite Hrest. apply skipn_all2. lia.
  - destruct Hc as (Hz & _). lia.
Qed.

(** *** A session *)


End StreamFacts.

Module BalanceFacts.

Import FastqChunkReaderPair Aux ScannerFacts.

(** *** Record balance *)

(** The walk of the left cut, started at [p] with [difference = d >= 0] when
    the first [p + 1] bytes hold [m + d] line feeds and [m >= 1]: it stops
    behind the [m]-th line feed. *)
Lemma walk_left_stops (n : nat) :
  forall (data : mem) (p d m : Z),
    0 <= d -> 1 <= m -> -1 <= p ->
    count_line data (p + 1) = m + d ->
    (Z.to_nat (p + 1) <= n)%nat ->
    let c := fst (walk_left n data p d) in
    count_line data c = m /\ 1 <= c <= p + 1 /\ data (c - 1) = LF.
Proof.
  induction n as [| n IH]; intros data p d m Hd Hm Hp Hcount Hn; cbv zeta.
  - assert (p = -1) by lia. subst p.
    rewrite count_line_nonpos in Hcount by lia. lia.
  - cbn [walk_left].
    destruct (p >=? 0) eqn:Hp0.
    2:{ assert (p = -1) by lia. subst p.
        rewrite count_line_nonpos in Hcount by lia. lia. }
    assert (Hp' : 0 <= p) by lia.
    rewrite count_line_succ in Hcount by exact Hp'.
    destruct (data p =? LF)%char eqn:Hb.
    + destruct (d - 1 =? -1) eqn:Hlast; cbn [fst].
      * assert (d = 0) by lia. subst d.
        rewrite count_line_succ by exact Hp'. rewrite Hb.
        replace (p + 1 - 1) with p by lia.
        apply Ascii.eqb_eq in Hb. repeat split; lia || assumption.
      * assert (Hd' : 0 <= d - 1) by lia.
        destruct (IH data (p - 1) (d - 1) m Hd' Hm) as (H1 & H2 & H3); try lia.
        { replace (p - 1 + 1) with p by lia. lia. }
        repeat split; lia || assumption.
    + destruct (IH data (p - 1) d m Hd Hm) as (H1 & H2 & H3); try lia.
      { replace (p - 1 + 1) with p by lia. lia. }
      repeat split; lia || assumption.
Qed.

(** The walk of the right cut is the walk of the left cut with the sign of
    [difference] changed. *)
Lemma walk_right_left (n : nat) :
  forall (data : mem) (p d : Z),
    fst (walk_right n data p d) = fst (walk_left n data p (- d)).
Proof.
  induction n as [| n IH]; intros data p d; [reflexivity |].
  cbn [walk_right walk_left].
  destruct (p >=? 0); [| reflexivity].
  destruct (data p =? LF)%char.
  - replace (- d - 1 =? -1) with (d + 1 =? 1).
    + destruct (d + 1 =? 1); [reflexivity |].
      rewrite IH. f_equal. f_equal. lia.
    + destruct (d + 1 =? 1) eqn:E1, (- d - 1 =? -1) eqn:E2; try reflexivity; lia.
  - apply IH.
Qed.

(** Where the re-synchronisation does balance the pair: both candidate cuts
    are line starts, that is, the byte in front of each is a line feed and
    the byte at the cut of the side that is walked is none.  This is what
    [GetNextRecordPos] returns on both sides when both chunks are refilled
    from files whose lines end with a line feed.  Then the bytes in front of
    the two final cuts hold the same number of line feeds, nothing is
    printed, and without [usesCrlf] the first [size] bytes of the two chunks
    hold the same number as well. *)
Lemma resync_balanced (wild : mem) (dl : list ascii) (cl cbl : Z)
    (dr : list ascii) (cr cbr : Z) (u : bool) (swl swr : list ascii) :
  1 <= cl -> 1 <= cr ->
  ptr wild dl (cl - 1) = LF -> ptr wild dr (cr - 1) = LF ->
  ptr wild dl cl <> LF -> ptr wild dr cr <> LF ->
  let y := resync wild dl cl cbl dr cr cbr u swl swr in
  count_line (ptr wild dl) (y_chunkEnd y) = count_line (ptr wild dr) (y_chunkEnd_right y)
  /\ y_out y = []
  /\ (u = false ->
      count_line (ptr wild dl) (y_size_left y) = count_line (ptr wild dr) (y_size_right y)).
Proof.
  intros Hcl Hcr Hbl Hbr Hal Har.
  set (L := ptr wild dl) in *. set (R := ptr wild dr) in *.
  assert (HnL : 1 <= count_line L cl).
  { replace cl with (cl - 1 + 1) by lia. rewrite count_line_succ by lia.
    rewrite Hbl. pose proof (count_line_nonneg L (cl - 1)). cbn. lia. }
  assert (HnR : 1 <= count_line R cr).
  { replace cr with (cr - 1 + 1) by lia. rewrite count_line_succ by lia.
    rewrite Hbr. pose proof (count_line_nonneg R (cr - 1)). cbn. lia. }
  assert (Hkey : exists c1 c2,
             (if count_line L cl - count_line R cr >? 0
              then (fst (walk_left (Z.to_nat (cl + 1)) L cl (count_line L cl - count_line R cr)), cr)
              else if count_line L cl - count_line R cr <? 0
                   then (cl, fst (walk_right (Z.to_nat (cr + 1)) R cr
                                   (count_line L cl - count_line R cr)))
                   else (cl, cr)) = (c1, c2)
             /\ count_line L c1 = count_line R c2
             /\ 1 <= c1 /\ 1 <= c2 /\ L (c1 - 1) = LF /\ R (c2 - 1) = LF).
  { destruct (count_line L cl - count_line R cr >? 0) eqn:Hgt.
    - eexists. eexists. split; [reflexivity |].
      pose proof (walk_left_stops (Z.to_nat (cl + 1)) L cl
                    (count_line L cl - count_line R cr) (count_line R cr)) as Hw.
      cbv zeta in Hw. destruct Hw as (H1 & H2 & H3); try lia.
      { rewrite count_line_succ by lia.
        apply Ascii.eqb_neq in Hal. rewrite Hal. lia. }
      repeat split; lia || assumption.
    - destruct (count_line L cl - count_line R cr <? 0) eqn:Hlt.
      + eexists. eexists. split; [reflexivity |].
        rewrite walk_right_left.
        pose proof (walk_left_stops (Z.to_nat (cr + 1)) R cr
                      (- (count_line L cl - count_line R cr)) (count_line L cl)) as Hw.
        cbv zeta in Hw. destruct Hw as (H1 & H2 & H3); try lia.
        { rewrite count_line_succ by lia.
          apply Ascii.eqb_neq in Har. rewrite Har. lia. }
        repeat split; lia || assumption.
      + exists cl, cr. split; [reflexivity |]. repeat split; lia || assumption. }
  destruct Hkey as (c1 & c2 & Hsel & Heq & Hc1 & Hc2 & Hb1 & Hb2).
  unfold resync. cbv zeta. fold L. fold R. rewrite Hsel. cbn.
  rewrite Heq, Z.sub_diag. cbn.
  split; [reflexivity |]. split; [reflexivity |].
  intros ->.
  assert (H1 : count_line L c1 = count_line L (c1 - 1) + 1).
  { replace c1 with (c1 - 1 + 1) at 1 by lia. rewrite count_line_succ by lia.
    rewrite Hb1. reflexivity. }
  assert (H2 : count_line R c2 = count_line R (c2 - 1) + 1).
  { replace c2 with (c2 - 1 + 1) at 1 by lia. rewrite count_line_succ by lia.
    rewrite Hb2. reflexivity. }
  unfold u64_of_i64.
  replace (c1 - 1 <? 0) with false by (symmetry; apply Z.ltb_ge; lia).
  replace (c2 - 1 <? 0) with false by (symmetry; apply Z.ltb_ge; lia).
  lia.
Qed.

(** C1 (the code breaks the claim).  The claim: the two chunks of every pair
    that a re-synchronising round emits hold the same number of ['\n'] in
    their first [size] bytes, hence the same number of records.  Two files of
    six records each, lines ended by ["\r\n"], the left records of 17 bytes
    and the right ones of 25; chunks of 96 bytes, a reserve of 48.  The first
    round fills both chunks and is balanced: 7 and 7.  In the second round
    the left file ends (a short read) and the right chunk is filled again.
    With [usesCrlf] set the short-read branch puts the left cut on the last
    ['\n'] of the file instead of behind it, the walk counts that byte, and
    stops one line late: the left chunk holds 8 ['\n'] (two records and the
    name line of a third) against 7 on the right (two records), and "GG, diff
    is 1" is printed.  Every scan of the two rounds stays inside its chunk
    and passes its assertions. *)
Theorem resync_unbalanced_after_short_read :
  let buf := repeat NUL 96 in
  let s := new 96 (records TermCRLF 6 "@a" "ACG" "III")
             (records TermCRLF 6 "@b" "ACGTACG" "IIIIIII") false [buf] [buf] in
  let scan c := snd (GetNextRecordPos 3 (ptr zeros (data c)) (96 - 48) 96 false) in
  match fst (session 48 zeros 2 3 s) with
  | [(p1, s1); (p2, s2)] =>
      eof s1 = false
      /\ safe_trace 96 (scan (leftpart p1)) = true
      /\ safe_trace 96 (scan (rightpart p1)) = true
      /\ count_line (ptr zeros (data (leftpart p1))) (size (leftpart p1)) = 7
      /\ count_line (ptr zeros (data (rightpart p1))) (size (rightpart p1)) = 7
      /\ eof s2 = false
      /\ safe_trace 96 (scan (rightpart p2)) = true
      /\ count_line (ptr zeros (data (leftpart p2))) (size (leftpart p2)) = 8
      /\ count_line (ptr zeros (data (rightpart p2))) (size (rightpart p2)) = 7
      /\ payload (leftpart p2)
         = unlines TermCRLF ["@a"; "ACG"; "+"; "III"; "@a"; "ACG"; "+"; "III"]%string
           ++ bytes "@a"
      /\ payload (rightpart p2)
         = unlines TermCRLF ["@b"; "ACGTACG"; "+"; "IIIIIII"; "@b"; "ACGTACG"; "+"]%string
           ++ bytes "IIIIIII"
      /\ stdout s2 = [Read1Short; Eofs true false false; GG 1]
  | _ => False
  end.
Proof.
  vm_compute. repeat split; reflexivity.
Qed.

End BalanceFacts.

Module ReaderFacts.

Import FastqReader.

(** *** [getLine] *)

Lemma FQ_BUF_SIZE_value : FQ_BUF_SIZE = 1048576.
Proof. reflexivity. Qed.

(** The scan stops on the first terminator byte at or after [end_]. *)
Lemma scan_line_stops (k : nat) :
  forall (n : nat) (buf : mem) (end_ len : Z),
    (forall j, 0 <= j < Z.of_nat k -> is_eol (buf (end_ + j)) = false) ->
    is_eol (buf (end_ + Z.of_nat k)) = true ->
    end_ + Z.of_nat k < len ->
    (Z.to_nat (len - end_) <= n)%nat ->
    scan_line n buf end_ len = end_ + Z.of_nat k.
Proof.
  induction k as [| k IH]; intros n buf end_ len Hpre Hstop Hlen Hn.
  - rewrite Z.add_0_r in *. destruct n as [| n]; [lia |].
    cbn [scan_line].
    replace (end_ <? len) with true by (symmetry; apply Z.ltb_lt; lia).
    unfold is_eol in Hstop.
    destruct (buf end_ =? CR)%char; [reflexivity |].
    rewrite orb_false_r in Hstop. rewrite Hstop. reflexivity.
  - destruct n as [| n]; [lia |].
    cbn [scan_line].
    replace (end_ <? len) with true by (symmetry; apply Z.ltb_lt; lia).
    assert (H0 : is_eol (buf end_) = false).
    { specialize (Hpre 0). rewrite Z.add_0_r in Hpre. apply Hpre. lia. }
    unfold is_eol in H0. apply orb_false_elim in H0. destruct H0 as [HLF HCR].
    rewrite HLF, HCR. cbn [negb andb].
    rewrite (IH n buf (end_ + 1) len).
    + lia.
    + intros j Hj. replace (end_ + 1 + j) with (end_ + (j + 1)) by lia.
      apply Hpre. lia.
    + replace (end_ + 1 + Z.of_nat k) with (end_ + Z.of_nat (S k)) by lia.
      exact Hstop.
    + lia.
    + lia.
Qed.

(** [readToBuf] returns unless the gzip data is damaged. *)
Lemma readToBuf_returns (wild : mem) (r : t) :
  mZipped r && mFileBroken r = false ->
  exists r',
    readToBuf wild r = Ok tt r'
    /\ mFile r' = skipn (Z.to_nat FQ_BUF_SIZE) (mFile r)
    /\ mBufDataLen r' = Z.of_nat (length (firstn (Z.to_nat FQ_BUF_SIZE) (mFile r)))
    /\ mZipped r' = mZipped r /\ mFileBroken r' = mFileBroken r.
Proof.
  intros H. unfold readToBuf. rewrite H. eexists. split; [reflexivity |].
  cbn [mFile mBufDataLen mZipped mFileBroken]. repeat split; reflexivity.
Qed.

(** The refill loop of [getLine] comes to an end: every further round has
    taken [FQ_BUF_SIZE] bytes from the stream. *)
Lemma getLine_refill_returns (wild : mem) (n : nat) :
  forall (r : t) (str : string),
    mZipped r && mFileBroken r = false ->
    (length (mFile r) <= n)%nat ->
    exists line r', getLine_refill wild n r str = Ok line r'.
Proof.
  pose proof FQ_BUF_SIZE_value as HFQ.
  induction n as [| n IH]; intros r str Hz Hn;
    destruct (readToBuf_returns wild r Hz) as (r1 & Hread & Hfile & Hlen & Hz1 & Hb1);
    cbn [getLine_refill]; rewrite Hread;
    match goal with |- context [if ?c then _ else _] => destruct c eqn:Hc end;
    try (do 2 eexists; reflexivity).
  - (* no byte is left: the buffer is short *)
    apply orb_false_elim in Hc. destruct Hc as [_ Hc]. apply Z.ltb_ge in Hc.
    rewrite Hlen, length_firstn in Hc. lia.
  - apply IH.
    + rewrite Hz1, Hb1. exact Hz.
    + apply orb_false_elim in Hc. destruct Hc as [_ Hc]. apply Z.ltb_ge in Hc.
      rewrite Hlen, length_firstn in Hc. rewrite Hfile, length_skipn. lia.
Qed.

(** [getLine] returns unless the gzip data is damaged. *)
Lemma getLine_returns (wild : mem) (r : t) :
  mZipped r && mFileBroken r = false ->
  exists line r', getLine wild r = Ok line r'.
Proof.
  intros Hz. unfold getLine.
  match goal with |- context [if ?c then _ else _] => destruct c end.
  - do 2 eexists. reflexivity.
  - apply getLine_refill_returns; [exact Hz | lia].
Qed.

Lemma ptr_app_left (wild : mem) (l1 l2 : list ascii) (i : Z) :
  0 <= i < Z.of_nat (length l1) -> ptr wild (l1 ++ l2) i = nth (Z.to_nat i) l1 NUL.
Proof.
  intros H. rewrite ptr_inside by (rewrite length_app; lia).
  apply app_nth1. lia.
Qed.

Lemma ptr_app_right (wild : mem) (l1 l2 : list ascii) (i : Z) :
  0 <= i < Z.of_nat (length l2) ->
  ptr wild (l1 ++ l2) (Z.of_nat (length l1) + i) = nth (Z.to_nat i) l2 NUL.
Proof.
  intros H. rewrite ptr_inside by (rewrite length_app; lia).
  rewrite app_nth2 by lia. f_equal. lia.
Qed.

Lemma no_eol_at (l : list ascii) (i : nat) :
  no_eol l = true -> (i < length l)%nat -> is_eol (nth i l NUL) = false.
Proof.
  unfold no_eol. intros H Hi. rewrite forallb_forall in H.
  specialize (H (nth i l NUL) (nth_In l NUL Hi)).
  apply negb_true_iff in H. exact H.
Qed.

Lemma ptr_middle (wild : mem) (pre l post : list ascii) (i : Z) :
  0 <= i < Z.of_nat (length l) ->
  ptr wild (pre ++ l ++ post) (Z.of_nat (length pre) + i) = nth (Z.to_nat i) l NUL.
Proof.
  intros H. rewrite ptr_app_right by (rewrite length_app; lia).
  apply app_nth1. lia.
Qed.

Lemma substr_middle (pre l post : list ascii) :
  substr (pre ++ l ++ post) (Z.of_nat (length pre)) (Z.of_nat (length l))
  = string_of_list_ascii l.
Proof.
  unfold substr, slice. f_equal.
  replace (Z.of_nat (length pre) + Z.of_nat (length l) - Z.of_nat (length pre))
    with (Z.of_nat (length l)) by lia.
  rewrite !Nat2Z.id.
  rewrite skipn_app, skipn_all, Nat.sub_diag. cbn [skipn app].
  rewrite firstn_app, firstn_all, Nat.sub_diag. cbn [firstn]. apply app_nil_r.
Qed.

Lemma set_mBufUsedLen_twice (r : t) (a b : Z) :
  set_mBufUsedLen (set_mBufUsedLen r a) b = set_mBufUsedLen r b.
Proof. reflexivity. Qed.

(** [getLine] on a line that ends with ["\r\n"]: the line is returned; both
    bytes of the terminator are consumed when more bytes follow in the
    buffer, but the ['\r'] alone when the ['\n'] is the last byte of the
    buffer, because the test [end < mBufDataLen - 1] keeps the code from
    looking at that byte. *)
Lemma getLine_crlf_line (wild : mem) (pre l post : list ascii) (r : t) :
  no_eol l = true ->
  mBuf r = pre ++ l ++ [CR; LF] ++ post ->
  mBufDataLen r = Z.of_nat (length (mBuf r)) ->
  mBufUsedLen r = Z.of_nat (length pre) ->
  getLine wild r
  = Ok (string_of_list_ascii l)
       (set_mBufUsedLen r (Z.of_nat (length pre) + Z.of_nat (length l)
                           + match post with [] => 1 | _ :: _ => 2 end)).
Proof.
  intros Hn Hbuf Hdata Hused.
  assert (Hlen : mBufDataLen r
                 = Z.of_nat (length pre) + Z.of_nat (length l) + 2 + Z.of_nat (length post)).
  { rewrite Hdata, Hbuf, !length_app. cbn [length]. lia. }
  unfold getLine. rewrite Hused.
  rewrite (scan_line_stops (length l)).
  - replace (Z.of_nat (length pre) + Z.of_nat (length l) <? mBufDataLen r) with true
      by (symmetry; apply Z.ltb_lt; lia).
    cbn [orb].
    replace (Z.of_nat (length pre) + Z.of_nat (length l) - Z.of_nat (length pre))
      with (Z.of_nat (length l)) by lia.
    rewrite Hbuf at 1. rewrite substr_middle.
    f_equal. f_equal.
    destruct post as [| c post].
    + replace (Z.of_nat (length pre) + Z.of_nat (length l) + 1 <? mBufDataLen r - 1)
        with false by (symmetry; apply Z.ltb_ge; cbn [length] in Hlen; lia).
      reflexivity.
    + replace (Z.of_nat (length pre) + Z.of_nat (length l) + 1 <? mBufDataLen r - 1)
        with true by (symmetry; apply Z.ltb_lt; cbn [length] in Hlen; lia).
      rewrite Hbuf.
      replace (Z.of_nat (length pre) + Z.of_nat (length l) + 1 - 1)
        with (Z.of_nat (length (pre ++ l)) + 0) by (rewrite length_app; lia).
      replace (Z.of_nat (length pre) + Z.of_nat (length l) + 1)
        with (Z.of_nat (length (pre ++ l)) + 1) by (rewrite length_app; lia).
      rewrite (app_assoc pre l).
      rewrite !ptr_app_right by (cbn [length app]; lia).
      change (Z.to_nat 0) with 0%nat. change (Z.to_nat 1) with 1%nat.
      cbn [app nth]. change ((CR =? CR)%char) with true. change ((LF =? LF)%char) with true.
      cbn [andb]. rewrite length_app. lia.
  - intros j Hj. rewrite Hbuf, ptr_middle by lia.
    apply no_eol_at; [exact Hn | lia].
  - rewrite Hbuf, (app_assoc pre l).
    replace (Z.of_nat (length pre) + Z.of_nat (length l))
      with (Z.of_nat (length (pre ++ l)) + 0) by (rewrite length_app; lia).
    rewrite ptr_app_right by (cbn [length app]; lia). reflexivity.
  - lia.
  - lia.
Qed.

(** [getLine] on a ['\n'] that is the last byte of the buffer: an empty
    line. *)
Lemma getLine_on_last_byte (wild : mem) (pre : list ascii) (r : t) :
  mBuf r = pre ++ [LF] ->
  mBufDataLen r = Z.of_nat (length (mBuf r)) ->
  mBufUsedLen r = Z.of_nat (length pre) ->
  getLine wild r = Ok EmptyString (set_mBufUsedLen r (mBufDataLen r)).
Proof.
  intros Hbuf Hdata Hused.
  assert (Hlen : mBufDataLen r = Z.of_nat (length pre) + 1).
  { rewrite Hdata, Hbuf, length_app. cbn [length]. lia. }
  unfold getLine. rewrite Hused.
  rewrite (scan_line_stops O).
  - rewrite Z.add_0_r.
    replace (Z.of_nat (length pre) <? mBufDataLen r) with true
      by (symmetry; apply Z.ltb_lt; lia).
    cbn [orb].
    replace (Z.of_nat (length pre) + 1 <? mBufDataLen r - 1) with false
      by (symmetry; apply Z.ltb_ge; lia).
    cbn [andb].
    replace (Z.of_nat (length pre) + 1) with (mBufDataLen r) by lia.
    f_equal. unfold substr, slice.
    replace (Z.of_nat (length pre) + (Z.of_nat (length pre) - Z.of_nat (length pre))
             - Z.of_nat (length pre)) with 0 by lia.
    reflexivity.
  - intros j Hj. lia.
  - rewrite Z.add_0_r, Hbuf.
    replace (Z.of_nat (length pre)) with (Z.of_nat (length pre) + 0) by lia.
    rewrite ptr_app_right by (cbn [length]; lia). reflexivity.
  - lia.
  - lia.
Qed.

(** A buffer that ends with the ["\r\n"] of its last line: the calls return
    its lines in order, and then one empty line more. *)
Lemma getLines_crlf_buffer (wild : mem) (ls : list (list ascii)) :
  forall (pre : list ascii) (r : t),
    ls <> [] ->
    forallb no_eol ls = true ->
    mBuf r = pre ++ render_lines TermCRLF ls ->
    mBufDataLen r = Z.of_nat (length (mBuf r)) ->
    mBufUsedLen r = Z.of_nat (length pre) ->
    getLines wild (S (length ls)) r
    = (map string_of_list_ascii ls ++ [EmptyString],
       Ok tt (set_mBufUsedLen r (mBufDataLen r))).
Proof.
  induction ls as [| l ls IH]; intros pre r Hne Hn Hbuf Hdata Hused; [congruence |].
  cbn [forallb] in Hn. apply andb_true_iff in Hn. destruct Hn as [Hl Hls].
  change (render_lines TermCRLF (l :: ls))
    with ((l ++ [CR; LF]) ++ render_lines TermCRLF ls) in Hbuf.
  rewrite <- app_assoc in Hbuf.
  assert (Hnonempty : forall x xs, render_lines TermCRLF (x :: xs) <> []).
  { intros x xs. unfold render_lines. cbn. destruct x; discriminate. }
  change (getLines wild (S (length (l :: ls))) r)
    with (match getLine wild r with
          | Ok line r' =>
              let (lines, final) := getLines wild (S (length ls)) r' in
              (line :: lines, final)
          | Exit msg => ([], Exit msg)
          | Crash => ([], Crash)
          | Spin => ([], Spin)
          end).
  rewrite (getLine_crlf_line wild pre l (render_lines TermCRLF ls) r Hl Hbuf Hdata Hused).
  destruct ls as [| l2 ls'].
  - (* the last line of the buffer *)
    cbn [render_lines map concat length getLines].
    set (r1 := set_mBufUsedLen r (Z.of_nat (length pre) + Z.of_nat (length l) + 1)).
    rewrite (getLine_on_last_byte wild (pre ++ l ++ [CR]) r1).
    + reflexivity.
    + unfold r1. cbn [set_mBufUsedLen mBuf]. rewrite Hbuf.
      cbn [render_lines map concat app]. rewrite <- !app_assoc. reflexivity.
    + exact Hdata.
    + unfold r1. cbn [set_mBufUsedLen mBufUsedLen]. rewrite !length_app. cbn [length]. lia.
  - destruct (render_lines TermCRLF (l2 :: ls')) eqn:Hr; [exfalso; eapply Hnonempty; eassumption |].
    rewrite <- Hr in *.
    set (r1 := set_mBufUsedLen r (Z.of_nat (length pre) + Z.of_nat (length l) + 2)).
    rewrite (IH (pre ++ l ++ [CR; LF]) r1).
    + reflexivity.
    + discriminate.
    + exact Hls.
    + unfold r1. cbn [set_mBufUsedLen mBuf]. rewrite Hbuf, <- !app_assoc. reflexivity.
    + exact Hdata.
    + unfold r1. cbn [set_mBufUsedLen mBufUsedLen]. rewrite !length_app. cbn [length]. lia.
Qed.

(** The reader after [init()] on an uncompressed file whose first
    [FQ_BUF_SIZE] bytes are [buf]. *)
Lemma new_full_buffer (wild : mem) (buf rest : list ascii) (hasQuality phred64 : bool) :
  Z.of_nat (length buf) = FQ_BUF_SIZE ->
  exists r,
    new wild "in.fq" (Some (buf ++ rest)) false hasQuality phred64 = Ok tt r
    /\ mBuf r = buf
    /\ mBufDataLen r = FQ_BUF_SIZE
    /\ mBufUsedLen r = 0
    /\ mFile r = rest
    /\ mFileEof r = false.
Proof.
  intros Hlen. pose proof FQ_BUF_SIZE_value as HFQ.
  assert (Hn : Z.to_nat FQ_BUF_SIZE = (length buf + 0)%nat) by lia.
  assert (Hgot : firstn (Z.to_nat FQ_BUF_SIZE) (buf ++ rest) = buf).
  { rewrite Hn, firstn_app_2. cbn [firstn]. apply app_nil_r. }
  assert (Hrest : skipn (Z.to_nat FQ_BUF_SIZE) (buf ++ rest) = rest).
  { rewrite Hn, Nat.add_0_r, skipn_app, Nat.sub_diag, skipn_all. reflexivity. }
  eexists. unfold new.
  change (ends_with "in.fq" ".gz") with false. cbv iota.
  unfold readToBuf. cbn [mZipped mFileBroken andb mFile mBuf mFileEof orb].
  rewrite Hgot, Hrest, Hlen.
  replace (FQ_BUF_SIZE <? FQ_BUF_SIZE) with false by (symmetry; apply Z.ltb_ge; lia).
  split; [reflexivity |].
  cbn [mBuf mBufDataLen mBufUsedLen mFile mFileEof].
  unfold store. change (Z.to_nat 0) with O. cbn [firstn app].
  rewrite skipn_nil, app_nil_r. repeat split; reflexivity.
Qed.

(** C8 (the code breaks the claim).  The claim: a ["\r\n"] is consumed as one
    terminator and never yields an empty line, wherever it falls.  Take any
    uncompressed stream of lines that end with ["\r\n"] in which one of these
    terminators ends exactly at offset [FQ_BUF_SIZE], so that its ['\n'] is
    the last byte of the first buffer; [ls] are the lines up to there, [rest]
    is what follows.  The calls return the lines [ls] in order, and then the
    next call returns the empty string, with [rest] still unread: an empty
    line that is not in the stream. *)
Theorem getLine_empty_line_from_crlf (wild : mem) (ls : list (list ascii))
    (rest : list ascii) :
  ls <> [] ->
  forallb no_eol ls = true ->
  Z.of_nat (length (render_lines TermCRLF ls)) = FQ_BUF_SIZE ->
  exists r0 r',
    new wild "in.fq" (Some (render_lines TermCRLF ls ++ rest)) false true false = Ok tt r0
    /\ getLines wild (S (length ls)) r0
       = (map string_of_list_ascii ls ++ [EmptyString], Ok tt r')
    /\ mBufUsedLen r' = mBufDataLen r'
    /\ mFile r' = rest
    /\ mFileEof r' = false.
Proof.
  intros Hne Hn Hlen.
  destruct (new_full_buffer wild (render_lines TermCRLF ls) rest true false Hlen)
    as (r0 & Hnew & Hbuf & Hdata & Hused & Hfile & Heof).
  exists r0, (set_mBufUsedLen r0 (mBufDataLen r0)).
  split; [exact Hnew |].
  split.
  - apply (getLines_crlf_buffer wild ls []); try assumption.
    + rewrite Hbuf, Hdata. symmetry. exact Hlen.
  - cbn [set_mBufUsedLen mBufUsedLen mBufDataLen mFile mFileEof].
    repeat split; assumption.
Qed.

Lemma no_eol_repeat (c : ascii) (n : nat) : is_eol c = false -> no_eol (repeat c n) = true.
Proof.
  intros H. induction n as [| n IH]; [reflexivity |].
  cbn [repeat no_eol forallb]. rewrite H. exact IH.
Qed.

(** The theorem at work: a name line, then a sequence line that ends at
    offset [FQ_BUF_SIZE], then the rest of the record.  The calls return the
    name, the sequence, and an empty line in the place of the separator. *)
Lemma getLine_empty_line_from_crlf_witness :
  let sequence := repeat "A"%char (Z.to_nat (FQ_BUF_SIZE - 6)) in
  let ls := [bytes "@r"; sequence] in
  let rest := unlines TermCRLF ["+"%string] ++ sequence ++ [CR; LF] in
  (ls <> [] /\ forallb no_eol ls = true
   /\ Z.of_nat (length (render_lines TermCRLF ls)) = FQ_BUF_SIZE)
  /\ exists r0 r',
       new zeros "in.fq" (Some (render_lines TermCRLF ls ++ rest)) false true false
       = Ok tt r0
       /\ getLines zeros (S (length ls)) r0
          = (map string_of_list_ascii ls ++ [EmptyString], Ok tt r')
       /\ mBufUsedLen r' = mBufDataLen r'
       /\ mFile r' = rest
       /\ mFileEof r' = false.
Proof.
  intros sequence ls rest.
  pose proof FQ_BUF_SIZE_value as HFQ.
  assert (H0 : ls <> []) by discriminate.
  assert (H1 : forallb no_eol ls = true).
  { unfold ls, sequence. cbn [forallb].
    rewrite (no_eol_repeat "A"%char) by reflexivity. reflexivity. }
  assert (H2 : Z.of_nat (length (render_lines TermCRLF ls)) = FQ_BUF_SIZE).
  { unfold ls, render_lines. cbn [map concat].
    rewrite !length_app. unfold sequence. rewrite repeat_length.
    change (length (bytes "@r")) with 2%nat.
    change (length (term_bytes TermCRLF)) with 2%nat.
    change (length (@nil ascii)) with 0%nat. lia. }
  clear HFQ.
  split; [split; [exact H0 | split; [exact H1 | exact H2]] |].
  exact (getLine_empty_line_from_crlf zeros ls rest H0 H1 H2).
Defined.

(** *** [read] *)

(** C9.  When [read], on a reader with [mHasQuality] set, has found a name
    line and obtained the three lines behind it, and the quality line is not
    as long as the sequence line, it writes the five lines of the diagnostic
    to the error stream and returns [NULL]; the call returns, the process
    goes on. *)
Theorem read_length_mismatch
    (wild : mem) (fuel : nat) (r r1 r2 r3 r4 r5 : t)
    (first name sequence strand quality : string) :
  mZipped r && mZipFileNull r = false ->
  (mBufUsedLen r >=? mBufDataLen r) && eof r = false ->
  getLine wild r = Ok first r1 ->
  skip_to_name wild fuel first r1 = Ok name r2 ->
  empty name = false ->
  getLine wild r2 = Ok sequence r3 ->
  getLine wild r3 = Ok strand r4 ->
  mHasQuality r4 = true ->
  getLine wild r4 = Ok quality r5 ->
  String.length quality <> String.length sequence ->
  read wild fuel r
  = Ok None (write_cerr r5 (mismatch_report name sequence strand quality))
  /\ cerr (write_cerr r5 (mismatch_report name sequence strand quality))
     = (cerr r5 ++ ["ERROR: sequence and quality have different length:"%string;
                    name; sequence; strand; quality])%list.
Proof.
  intros Hz He H1 H2 Hname H3 H4 Hq H5 Hlen.
  split; [| reflexivity].
  unfold read. rewrite Hz, He, H1, H2, Hname, H3, H4, Hq. cbn [negb].
  rewrite H5.
  apply Nat.eqb_neq in Hlen. rewrite Hlen. reflexivity.
Qed.

Lemma read_length_mismatch_witness :
  exists r r',
    new zeros "r.fq" (Some (unlines TermLF ["@r"; "ACGT"; "+"; "II"]%string)) false true false
    = Ok tt r
    /\ read zeros 5 r = Ok None r'
    /\ cerr r' = ["ERROR: sequence and quality have different length:";
                  "@r"; "ACGT"; "+"; "II"]%string.
Proof.
  eexists. eexists. split; [vm_compute; reflexivity |].
  match goal with |- read ?w ?f ?r = _ /\ _ =>
    destruct (read_length_mismatch w f r
                (set_mBufUsedLen r 3) (set_mBufUsedLen r 3) (set_mBufUsedLen r 8)
                (set_mBufUsedLen r 10) (set_mBufUsedLen r 13)
                "@r" "@r" "ACGT" "+" "II") as [Hread Hcerr];
      try (vm_compute; reflexivity)
  end.
  - vm_compute. discriminate.
  - split; [exact Hread | reflexivity].
Defined.

End ReaderFacts.

Module PairFacts.

Import FastqReaderPair.

(** *** [FastqReaderPair::read] *)

Lemma pair_or_null_some (l r : option Read) (x : ReadPair) :
  pair_or_null l r = Some x <-> l = Some (pair_left x) /\ r = Some (pair_right x).
Proof.
  unfold pair_or_null. destruct l as [a |], r as [b |]; split;
    try (intros H; discriminate H);
    try (intros [H1 H2]; discriminate).
  - intros H. inversion H. split; reflexivity.
  - intros [H1 H2]. inversion H1. inversion H2. destruct x. reflexivity.
Qed.

(** C10.  In the mode with two files, when both readers return from their
    [read], the pair reader returns a [ReadPair] exactly when both yielded a
    record, and it is made of these two records; if a side yielded nothing
    the result is [NULL].  In every case the two readers are left as their
    own [read] left them: a record that one side yielded alone is consumed
    with the call, the pair reader keeps it nowhere, and the next call goes
    on behind it. *)
Theorem pair_read_both_or_nothing
    (wild : mem) (fuel : nat) (p : t) (right_ left' right' : FastqReader.t)
    (l r : option Read) :
  mInterleaved p = false ->
  mRight p = Some right_ ->
  FastqReader.read wild fuel (mLeft p) = Ok l left' ->
  FastqReader.read wild fuel right_ = Ok r right' ->
  exists result,
    read wild fuel p
    = Ok result {| mLeft := left'; mRight := Some right'; mInterleaved := false |}
    /\ (forall x, result = Some x <-> l = Some (pair_left x) /\ r = Some (pair_right x))
    /\ (l = None \/ r = None -> result = None).
Proof.
  intros Hi Hr Hl Hrr.
  exists (pair_or_null l r).
  split; [| split].
  - unfold read. rewrite Hl, Hi, Hr, Hrr. reflexivity.
  - intros x. apply pair_or_null_some.
  - intros [-> | ->]; [reflexivity | destruct l; reflexivity].
Qed.

(** The theorem at work, and what follows the surplus record: the left file
    holds two records, the right file one.  The first call returns the pair
    of the first records.  The second call reads the second record of the
    left file, finds the right file at its end and returns [NULL]; the left
    reader is then at the end of its file, and the third call returns [NULL]
    as well: the second record of the left file is in no result. *)
Lemma pair_read_both_or_nothing_witness :
  let a1 := {| mName := "@a1"; mSeq := "AC"; mStrand := "+"; mQuality := "II";
               mHasPhred64 := false |} in
  let b1 := {| mName := "@b1"; mSeq := "TT"; mStrand := "+"; mQuality := "KK";
               mHasPhred64 := false |} in
  exists rl rr,
    FastqReader.new zeros "l.fq"
      (Some (unlines TermLF ["@a1"; "AC"; "+"; "II"; "@a2"; "GT"; "+"; "JJ"]%string))
      false true false = Ok tt rl
    /\ FastqReader.new zeros "r.fq"
         (Some (unlines TermLF ["@b1"; "TT"; "+"; "KK"]%string)) false true false = Ok tt rr
    /\ (exists result p1,
           read zeros 5 {| mLeft := rl; mRight := Some rr; mInterleaved := false |}
           = Ok result p1
           /\ result = Some {| pair_left := a1; pair_right := b1 |})
    /\ fst (reads zeros 3 5 {| mLeft := rl; mRight := Some rr; mInterleaved := false |})
       = [Some {| pair_left := a1; pair_right := b1 |}; None; None].
Proof.
  intros a1 b1. do 2 eexists.
  split; [vm_compute; reflexivity |].
  split; [vm_compute; reflexivity |].
  split; [| vm_compute; reflexivity].
  match goal with |- context [read zeros 5 {| mLeft := ?rl; mRight := Some ?rr;
                                                 mInterleaved := false |}] =>
    destruct (FastqReader.read zeros 5 rl) as [l left' | | |] eqn:Hl;
      try (vm_compute in Hl; discriminate Hl);
    destruct (FastqReader.read zeros 5 rr) as [r right' | | |] eqn:Hr;
      try (vm_compute in Hr; discriminate Hr);
    destruct (pair_read_both_or_nothing zeros 5
                {| mLeft := rl; mRight := Some rr; mInterleaved := false |}
                rr left' right' l r eq_refl eq_refl Hl Hr)
      as (result & Hread & Hiff & Hnone)
  end.
  exists result. eexists. split; [exact Hread |].
  vm_compute in Hl. vm_compute in Hr.
  inversion Hl; subst l left'; clear Hl. inversion Hr; subst r right'; clear Hr.
  apply Hiff. split; reflexivity.
Defined.

End PairFacts.

Module TrimFacts.

Import FastqReader ReaderAux.

(** *** [clearLineBreaks] *)

Lemma strlen_le (line : list ascii) : (strlen line <= length line)%nat.
Proof.
  induction line as [| c rest IH]; cbn [strlen length]; [lia |].
  destruct (c =? NUL)%char; lia.
Qed.

Lemma strlen_app (a b : list ascii) :
  no_nul a = true -> strlen (a ++ b) = (length a + strlen b)%nat.
Proof.
  induction a as [| c a IH]; intros H; [reflexivity |].
  cbn [no_nul forallb] in H. apply andb_true_iff in H. destruct H as [Hc Ha].
  apply negb_true_iff in Hc. cbn [app strlen length]. rewrite Hc.
  rewrite IH by exact Ha. reflexivity.
Qed.

Lemma no_nul_firstn_le (line : list ascii) :
  forall k, (k <= strlen line)%nat -> no_nul (firstn k line) = true.
Proof.
  induction line as [| c rest IH]; intros k Hk.
  - destruct k; reflexivity.
  - destruct k as [| k]; [reflexivity |].
    cbn [strlen] in Hk. destruct (c =? NUL)%char eqn:Hc; [lia |].
    cbn [firstn no_nul forallb]. rewrite Hc. apply IH. lia.
Qed.

(** Writing [NUL] at an offset that lies in the string cuts the string
    there and leaves the array as long as it was. *)
Lemma store_nul (line : list ascii) (k : nat) :
  (k < length line)%nat -> (k <= strlen line)%nat ->
  let line' := store line (Z.of_nat k) [NUL] in
  length line' = length line
  /\ strlen line' = k
  /\ firstn k line' = firstn k line
  /\ line' = firstn k line ++ NUL :: skipn (S k) line.
Proof.
  intros Hk Hs. cbv zeta. unfold store. rewrite Nat2Z.id. cbn [length app].
  replace (k + 1)%nat with (S k) by lia.
  assert (Hlen : length (firstn k line) = k) by (rewrite length_firstn; lia).
  repeat split.
  - rewrite length_app. cbn [length]. rewrite Hlen, length_skipn. lia.
  - rewrite strlen_app.
    + cbn [strlen]. rewrite Ascii.eqb_refl. lia.
    + apply no_nul_firstn_le. exact Hs.
  - rewrite firstn_app, Hlen, Nat.sub_diag. cbn [firstn].
    rewrite app_nil_r. apply firstn_all2. lia.
Qed.

Lemma to_int_small (x : Z) : 0 <= x < 2 ^ 31 -> to_int x = x.
Proof.
  intros H. unfold to_int. rewrite Z.mod_small by lia. lia.
Qed.

(** X1.  [clearLineBreaks] trims one line terminator: on a buffer that holds
    the text [s], free of terminator bytes, followed by ["\n"], ["\r"] or
    ["\r\n"], the string left in the buffer is [s].  For a terminator of one
    byte the text must not be empty; the length of the string fits [int]. *)
Theorem clearLineBreaks_trims (t : Terminator) (s junk : list ascii) :
  no_nul s = true -> no_eol s = true -> (s <> [] \/ t = TermCRLF) ->
  Z.of_nat (length s) + 2 < 2 ^ 31 ->
  c_str (clearLineBreaks (s ++ term_bytes t ++ NUL :: junk)) = s.
Proof.
  intros Hnul Heol Hne Hint.
  assert (Hcut : forall b, c_str (s ++ NUL :: b) = s).
  { intros b. unfold c_str. rewrite strlen_app by exact Hnul.
    cbn [strlen]. rewrite Ascii.eqb_refl, Nat.add_0_r.
    rewrite firstn_app, Nat.sub_diag, firstn_all. cbn [firstn]. apply app_nil_r. }
  assert (Hlast : s <> [] ->
            forall b, (nth (length s - 1) (s ++ b) NUL =? CR)%char = false).
  { intros Hs b. assert (0 < length s)%nat by (destruct s; [congruence | cbn; lia]).
    rewrite app_nth1 by lia.
    pose proof (ReaderFacts.no_eol_at s (length s - 1) Heol ltac:(lia)) as He.
    unfold is_eol in He. apply orb_false_elim in He. apply He. }
  assert (Hst : forall (x : ascii) (b : list ascii),
            store (s ++ x :: b) (Z.of_nat (length s)) [NUL] = s ++ NUL :: b).
  { intros x b. unfold store. rewrite Nat2Z.id. cbn [length app].
    rewrite firstn_app, Nat.sub_diag, firstn_all. cbn [firstn]. rewrite app_nil_r.
    rewrite skipn_app, skipn_all2 by lia.
    replace (length s + 1 - length s)%nat with 1%nat by lia. reflexivity. }
  unfold clearLineBreaks.
  destruct t; cbn [term_bytes app].
  - (* "\n" *)
    destruct Hne as [Hs | Hs]; [| discriminate Hs].
    assert (0 < length s)%nat by (destruct s; [congruence | cbn; lia]).
    rewrite strlen_app by exact Hnul. cbn [strlen].
    change ((LF =? NUL)%char) with false. cbn [strlen]. rewrite Ascii.eqb_refl.
    rewrite to_int_small by lia.
    replace (Z.of_nat (length s + 1) >=? 2) with true by (symmetry; apply Z.geb_le; lia).
    replace (Z.to_nat (Z.of_nat (length s + 1) - 1)) with (length s) by lia.
    rewrite nth_middle. rewrite Ascii.eqb_refl. cbn [orb].
    replace (Z.of_nat (length s + 1) - 1) with (Z.of_nat (length s)) by lia.
    rewrite Hst.
    replace (Z.to_nat (Z.of_nat (length s + 1) - 2)) with (length s - 1)%nat by lia.
    rewrite (Hlast Hs). apply Hcut.
  - (* "\r" *)
    destruct Hne as [Hs | Hs]; [| discriminate Hs].
    assert (0 < length s)%nat by (destruct s; [congruence | cbn; lia]).
    rewrite strlen_app by exact Hnul. cbn [strlen].
    change ((CR =? NUL)%char) with false. cbn [strlen]. rewrite Ascii.eqb_refl.
    rewrite to_int_small by lia.
    replace (Z.of_nat (length s + 1) >=? 2) with true by (symmetry; apply Z.geb_le; lia).
    replace (Z.to_nat (Z.of_nat (length s + 1) - 1)) with (length s) by lia.
    rewrite nth_middle. rewrite Ascii.eqb_refl. rewrite orb_true_r.
    replace (Z.of_nat (length s + 1) - 1) with (Z.of_nat (length s)) by lia.
    rewrite Hst.
    replace (Z.to_nat (Z.of_nat (length s + 1) - 2)) with (length s - 1)%nat by lia.
    rewrite (Hlast Hs). apply Hcut.
  - (* "\r\n" *)
    rewrite strlen_app by exact Hnul. cbn [strlen].
    change ((CR =? NUL)%char) with false. change ((LF =? NUL)%char) with false.
    cbn [strlen]. rewrite Ascii.eqb_refl.
    rewrite to_int_small by lia.
    replace (Z.of_nat (length s + 2) >=? 2) with true by (symmetry; apply Z.geb_le; lia).
    replace (Z.to_nat (Z.of_nat (length s + 2) - 1)) with (length (s ++ [CR]))
      by (rewrite length_app; cbn [length]; lia).
    replace (s ++ CR :: LF :: NUL :: junk) with ((s ++ [CR]) ++ LF :: NUL :: junk)
      by (rewrite <- app_assoc; reflexivity).
    rewrite nth_middle. rewrite Ascii.eqb_refl. cbn [orb].
    replace (Z.of_nat (length s + 2) - 1) with (Z.of_nat (length (s ++ [CR])))
      by (rewrite length_app; cbn [length]; lia).
    assert (Hst2 : store ((s ++ [CR]) ++ LF :: NUL :: junk) (Z.of_nat (length (s ++ [CR]))) [NUL]
                   = s ++ CR :: NUL :: NUL :: junk).
    { unfold store. rewrite Nat2Z.id. cbn [length].
      rewrite firstn_app, Nat.sub_diag, firstn_all. cbn [firstn]. rewrite app_nil_r.
      rewrite skipn_app, skipn_all2 by lia.
      replace (length (s ++ [CR]) + 1 - length (s ++ [CR]))%nat with 1%nat by lia.
      rewrite <- app_assoc. reflexivity. }
    rewrite Hst2.
    replace (Z.to_nat (Z.of_nat (length s + 2) - 2)) with (length s) by lia.
    rewrite nth_middle. rewrite Ascii.eqb_refl.
    replace (Z.of_nat (length s + 2) - 2) with (Z.of_nat (length s)) by lia.
    rewrite Hst. apply Hcut.
Qed.

Lemma clearLineBreaks_trims_witness :
  c_str (clearLineBreaks (bytes "@r1 first" ++ term_bytes TermCRLF ++ NUL :: bytes "xx"))
  = bytes "@r1 first"
  /\ c_str (clearLineBreaks (bytes "ACGT" ++ term_bytes TermLF ++ NUL :: []))
     = bytes "ACGT".
Proof.
  split.
  - apply (clearLineBreaks_trims TermCRLF (bytes "@r1 first") (bytes "xx"));
      [reflexivity | reflexivity | right; reflexivity | vm_compute; reflexivity].
  - apply (clearLineBreaks_trims TermLF (bytes "ACGT") []);
      [reflexivity | reflexivity | left; discriminate | vm_compute; reflexivity].
Defined.

(** X2.  What [clearLineBreaks] never does, on a string whose length fits
    [int]: the array keeps its length, the string left in it is the string it
    held without its last [k] bytes for some [k <= 2], and a string of fewer
    than two bytes, a lone ["\n"] among them, is left as it is. *)
Theorem clearLineBreaks_cuts_at_most_two (line : list ascii) :
  Z.of_nat (strlen line) < 2 ^ 31 ->
  length (clearLineBreaks line) = length line
  /\ (exists k, (k <= 2)%nat
                /\ c_str (clearLineBreaks line) = firstn (strlen line - k) (c_str line))
  /\ ((strlen line < 2)%nat -> clearLineBreaks line = line).
Proof.
  intros Hint.
  assert (Hself : c_str line = firstn (strlen line - 0) (c_str line)).
  { unfold c_str. rewrite Nat.sub_0_r, firstn_firstn, Nat.min_id. reflexivity. }
  unfold clearLineBreaks. rewrite to_int_small by lia.
  destruct (Z.of_nat (strlen line) >=? 2) eqn:H2.
  2:{ split; [reflexivity |]. split; [| intros _; reflexivity].
      exists 0%nat. split; [lia | exact Hself]. }
  apply Z.geb_le in H2.
  pose proof (strlen_le line) as Hle.
  replace (Z.of_nat (strlen line) - 1) with (Z.of_nat (strlen line - 1)) by lia.
  replace (Z.of_nat (strlen line) - 2) with (Z.of_nat (strlen line - 2)) by lia.
  rewrite !Nat2Z.id.
  destruct ((nth (strlen line - 1) line NUL =? LF)%char
            || (nth (strlen line - 1) line NUL =? CR)%char).
  2:{ split; [reflexivity |]. split; [| intros _; reflexivity].
      exists 0%nat. split; [lia | exact Hself]. }
  destruct (store_nul line (strlen line - 1) ltac:(lia) ltac:(lia))
    as (Hl1 & Hs1 & Hf1 & _).
  set (line1 := store line (Z.of_nat (strlen line - 1)) [NUL]) in *.
  destruct (nth (strlen line - 2) line1 NUL =? CR)%char.
  - destruct (store_nul line1 (strlen line - 2) ltac:(lia) ltac:(lia))
      as (Hl2 & Hs2 & Hf2 & _).
    set (line2 := store line1 (Z.of_nat (strlen line - 2)) [NUL]) in *.
    split; [lia |]. split; [| intros; lia].
    exists 2%nat. split; [lia |].
    unfold c_str. rewrite Hs2, Hf2.
    rewrite firstn_firstn, Nat.min_l by lia.
    rewrite <- (Nat.min_l (strlen line - 2) (strlen line - 1)) by lia.
    rewrite <- firstn_firstn, Hf1, firstn_firstn. reflexivity.
  - split; [lia |]. split; [| intros; lia].
    exists 1%nat. split; [lia |].
    unfold c_str. rewrite Hs1, Hf1.
    rewrite firstn_firstn, Nat.min_l by lia. reflexivity.
Qed.

Lemma clearLineBreaks_cuts_at_most_two_witness :
  let line := [LF; NUL; "x"%char] in
  length (clearLineBreaks line) = length line
  /\ (exists k, (k <= 2)%nat
                /\ c_str (clearLineBreaks line) = firstn (strlen line - k) (c_str line))
  /\ ((strlen line < 2)%nat -> clearLineBreaks line = line).
Proof.
  exact (clearLineBreaks_cuts_at_most_two [LF; NUL; "x"%char] eq_refl).
Defined.

End TrimFacts.

Module LineFacts.

Import FastqReader ReaderAux ReaderFacts.

(** *** [getLine] over a stream *)

Lemma FQ_BUF_SIZE_pos : 0 < FQ_BUF_SIZE.
Proof. rewrite FQ_BUF_SIZE_value. lia. Qed.

#[local] Opaque FQ_BUF_SIZE.

Lemma string_of_list_ascii_app (a b : list ascii) :
  string_of_list_ascii (a ++ b) = (string_of_list_ascii a ++ string_of_list_ascii b)%string.
Proof.
  induction a as [| c a IH]; [reflexivity |].
  cbn [app string_of_list_ascii String.append]. rewrite IH. reflexivity.
Qed.

Lemma no_eol_app (a b : list ascii) :
  no_eol (a ++ b) = no_eol a && no_eol b.
Proof. unfold no_eol. apply forallb_app. Qed.

(** The scan runs to [len] over bytes that are no terminators. *)
Lemma scan_line_runs (k : nat) :
  forall (n : nat) (buf : mem) (end_ len : Z),
    (forall j, 0 <= j < Z.of_nat k -> is_eol (buf (end_ + j)) = false) ->
    len = end_ + Z.of_nat k ->
    (k <= n)%nat ->
    scan_line n buf end_ len = len.
Proof.
  induction k as [| k IH]; intros n buf end_ len Hpre Hlen Hn.
  - destruct n as [| n]; cbn [scan_line]; [lia |].
    replace (end_ <? len) with false by (symmetry; apply Z.ltb_ge; lia). lia.
  - destruct n as [| n]; [lia |].
    cbn [scan_line].
    replace (end_ <? len) with true by (symmetry; apply Z.ltb_lt; lia).
    assert (H0 : is_eol (buf end_) = false).
    { specialize (Hpre 0). rewrite Z.add_0_r in Hpre. apply Hpre. lia. }
    unfold is_eol in H0. apply orb_false_elim in H0. destruct H0 as [HLF HCR].
    rewrite HLF, HCR. cbn [negb andb].
    apply IH; [| lia | lia].
    intros j Hj. replace (end_ + 1 + j) with (end_ + (j + 1)) by lia.
    apply Hpre. lia.
Qed.

(** Behind [len] the scan does not move. *)
Lemma scan_line_past (n : nat) (buf : mem) (end_ len : Z) :
  len <= end_ -> scan_line n buf end_ len = end_.
Proof.
  intros H. destruct n as [| n]; cbn [scan_line]; [reflexivity |].
  replace (end_ <? len) with false by (symmetry; apply Z.ltb_ge; lia). reflexivity.
Qed.

Lemma slice_middle (a m b : list ascii) :
  slice (a ++ m ++ b) (Z.of_nat (length a)) (Z.of_nat (length a + length m)) = m.
Proof.
  unfold slice.
  replace (Z.to_nat (Z.of_nat (length a + length m) - Z.of_nat (length a)))
    with (length m) by lia.
  rewrite Nat2Z.id, skipn_app, skipn_all, Nat.sub_diag. cbn [skipn app].
  rewrite firstn_app, firstn_all, Nat.sub_diag. cbn [firstn]. apply app_nil_r.
Qed.

Lemma slice_empty (l : list ascii) (lo hi : Z) : hi <= lo -> slice l lo hi = [].
Proof.
  intros H. unfold slice. replace (Z.to_nat (hi - lo)) with O by lia. reflexivity.
Qed.

Lemma slice_length_inside (l : list ascii) (lo hi : Z) :
  0 <= lo <= hi -> hi <= Z.of_nat (length l) ->
  Z.of_nat (length (slice l lo hi)) = hi - lo.
Proof.
  intros H1 H2. unfold slice. rewrite length_firstn, length_skipn. lia.
Qed.

(** A buffer around the bytes between two of its offsets. *)
Lemma buffer_split (l : list ascii) (lo hi : Z) :
  0 <= lo <= hi -> hi <= Z.of_nat (length l) ->
  l = firstn (Z.to_nat lo) l ++ slice l lo hi ++ skipn (Z.to_nat hi) l
  /\ Z.of_nat (length (firstn (Z.to_nat lo) l)) = lo.
Proof.
  intros H1 H2. split.
  - unfold slice.
    rewrite <- (firstn_skipn (Z.to_nat lo) l) at 1. f_equal.
    rewrite <- (firstn_skipn (Z.to_nat (hi - lo)) (skipn (Z.to_nat lo) l)) at 1. f_equal.
    rewrite skipn_skipn. f_equal. lia.
  - rewrite length_firstn. lia.
Qed.

(** Two ways of cutting one list. *)
Lemma app_cut_inside (a b l t : list ascii) :
  a ++ b = l ++ t -> (length l < length a)%nat ->
  exists x rest1, a = l ++ x :: rest1 /\ t = x :: rest1 ++ b.
Proof.
  intros H Hlen. apply app_eq_app in H. destruct H as [m [[H1 H2] | [H1 H2]]].
  - destruct m as [| x m].
    + rewrite app_nil_r in H1. subst a. lia.
    + exists x, m. split; [exact H1 | exact H2].
  - subst l. rewrite length_app in Hlen. lia.
Qed.

Lemma app_cut_outside (a b l t : list ascii) :
  a ++ b = l ++ t -> (length a <= length l)%nat ->
  exists l2, l = a ++ l2 /\ b = l2 ++ t.
Proof.
  intros H Hlen. apply app_eq_app in H. destruct H as [m [[H1 H2] | [H1 H2]]].
  - subst a. rewrite length_app in Hlen.
    destruct m as [| x m]; [| cbn [length] in Hlen; lia].
    exists []. rewrite !app_nil_r. split; [reflexivity | symmetry; exact H2].
  - exists m. split; [exact H1 | exact H2].
Qed.

Lemma consistent_used (r : t) (k : Z) :
  consistent r -> 0 <= k -> (mBufDataLen r < k -> mBufDataLen r < FQ_BUF_SIZE) ->
  consistent (set_mBufUsedLen r k).
Proof.
  intros (H1 & H2 & H3 & H4 & H5 & H6 & H7 & H8) Hk Hd.
  unfold consistent. cbn [set_mBufUsedLen mBufUsedLen mBufDataLen mBuf mFile mFileEof
                          mZipped mFileBroken mZipFileNull].
  repeat split; try assumption; try lia; try (apply H4; assumption).
Qed.

Lemma same_setup_refl (r : t) : same_setup r r.
Proof. unfold same_setup. repeat split. Qed.

Lemma same_setup_trans (r1 r2 r3 : t) :
  same_setup r1 r2 -> same_setup r2 r3 -> same_setup r1 r3.
Proof.
  unfold same_setup. intros (A1 & A2 & A3 & A4 & A5 & A6 & A7) (B1 & B2 & B3 & B4 & B5 & B6 & B7).
  repeat split; congruence.
Qed.

Lemma same_setup_used (r : t) (k : Z) : same_setup r (set_mBufUsedLen r k).
Proof. unfold same_setup. repeat split. Qed.

(** The first branch of [getLine]: the terminator of the line lies in the
    buffer.  One byte more is consumed only when it is a ['\n']. *)
Lemma getLine_in_buffer (wild : mem) (r : t) (pre l rest1 post : list ascii) (c : ascii) :
  mBuf r = pre ++ (l ++ c :: rest1) ++ post ->
  mBufUsedLen r = Z.of_nat (length pre) ->
  mBufDataLen r = Z.of_nat (length pre + length (l ++ c :: rest1)) ->
  no_eol l = true -> is_eol c = true ->
  exists k,
    getLine wild r
    = Ok (string_of_list_ascii l) (set_mBufUsedLen r (Z.of_nat (length pre + length l) + k))
    /\ (k = 1 \/ (k = 2 /\ hd NUL rest1 = LF /\ rest1 <> [])).
Proof.
  intros Hbuf Hused Hdata Hn Hc.
  rewrite length_app in Hdata. cbn [length] in Hdata.
  assert (Hscan : scan_line (Z.to_nat (mBufDataLen r - mBufUsedLen r)) (ptr wild (mBuf r))
                    (mBufUsedLen r) (mBufDataLen r)
                  = Z.of_nat (length pre) + Z.of_nat (length l)).
  { rewrite Hused. apply scan_line_stops.
    - intros j Hj. rewrite Hbuf, <- !app_assoc, ptr_middle by lia.
      apply no_eol_at; [exact Hn | lia].
    - rewrite Hbuf, <- !app_assoc, (app_assoc pre l).
      replace (Z.of_nat (length pre) + Z.of_nat (length l))
        with (Z.of_nat (length (pre ++ l)) + 0) by (rewrite length_app; lia).
      rewrite ptr_app_right by (cbn [length app]; lia). exact Hc.
    - lia.
    - lia. }
  unfold getLine. rewrite Hscan.
  replace (Z.of_nat (length pre) + Z.of_nat (length l) <? mBufDataLen r) with true
    by (symmetry; apply Z.ltb_lt; lia).
  cbn [orb].
  rewrite Hused.
  replace (Z.of_nat (length pre) + Z.of_nat (length l) - Z.of_nat (length pre))
    with (Z.of_nat (length l)) by lia.
  assert (Hline : substr (mBuf r) (Z.of_nat (length pre)) (Z.of_nat (length l))
                  = string_of_list_ascii l).
  { rewrite Hbuf, <- !app_assoc. apply substr_middle. }
  rewrite Hline.
  match goal with |- context [if ?b then _ else _] => destruct b eqn:Hskip end.
  - exists 2. split; [f_equal; f_equal; lia |]. right.
    apply andb_true_iff in Hskip. destruct Hskip as [Hskip HLF].
    apply andb_true_iff in Hskip. destruct Hskip as [Hlt _].
    apply Z.ltb_lt in Hlt.
    destruct rest1 as [| x rest1]; [cbn [length] in Hdata; lia |].
    split; [reflexivity |]. split; [| discriminate].
    rewrite Hbuf in HLF.
    replace (pre ++ (l ++ c :: x :: rest1) ++ post)
      with ((pre ++ l ++ [c]) ++ (x :: rest1 ++ post)) in HLF
      by (rewrite <- !app_assoc; reflexivity).
    replace (Z.of_nat (length pre) + Z.of_nat (length l) + 1)
      with (Z.of_nat (length (pre ++ l ++ [c])) + 0) in HLF
      by (rewrite !length_app; cbn [length]; lia).
    rewrite ptr_app_right in HLF by (cbn [length]; lia).
    change (Z.to_nat 0) with O in HLF. cbn [nth] in HLF.
    apply Ascii.eqb_eq in HLF. exact HLF.
  - exists 1. split; [f_equal; f_equal; lia |]. left. reflexivity.
Qed.

Lemma substr_0 (l post : list ascii) :
  substr (l ++ post) 0 (Z.of_nat (length l)) = string_of_list_ascii l.
Proof.
  change (l ++ post) with ([] ++ l ++ post).
  change 0 with (Z.of_nat (length (@nil ascii))). apply substr_middle.
Qed.

(** What [readToBuf] leaves when the stream can be read. *)
Lemma readToBuf_ok (wild : mem) (r : t) :
  mZipped r && mFileBroken r = false ->
  let got := firstn (Z.to_nat FQ_BUF_SIZE) (mFile r) in
  exists r1,
    readToBuf wild r = Ok tt r1
    /\ mBuf r1 = got ++ skipn (length got) (mBuf r)
    /\ mBufDataLen r1 = Z.of_nat (length got)
    /\ mBufUsedLen r1 = 0
    /\ mFile r1 = skipn (Z.to_nat FQ_BUF_SIZE) (mFile r)
    /\ mFileEof r1 = mFileEof r || (Z.of_nat (length got) <? FQ_BUF_SIZE)
    /\ same_setup r r1.
Proof.
  intros H got. unfold readToBuf. rewrite H. fold got.
  eexists. split; [reflexivity |].
  cbn [mBuf mBufDataLen mBufUsedLen mFile mFileEof].
  rewrite StreamFacts.store_0.
  repeat split.
Qed.

Lemma readToBuf_consistent (wild : mem) (r r1 : t) :
  mZipped r && mFileBroken r = false ->
  mZipped r && mZipFileNull r = false ->
  (mFileEof r = true -> mFile r = []) ->
  readToBuf wild r = Ok tt r1 ->
  consistent r1.
Proof.
  intros Hz Hnull Heof Hread.
  destruct (readToBuf_ok wild r Hz) as (r1' & Hread' & HB & HD & HU & HF & HE & HS).
  rewrite Hread in Hread'. injection Hread' as <-.
  pose proof FQ_BUF_SIZE_pos as Hpos.
  destruct HS as (S1 & S2 & S3 & S4 & S5 & S6 & S7).
  unfold consistent. rewrite HB, HD, HU, HF, HE, S2, S3, S4.
  rewrite length_app, length_firstn, length_skipn.
  split; [lia |]. split; [lia |]. split; [lia |].
  split.
  { intros Hlt. split.
    - apply skipn_all2. lia.
    - apply orb_true_iff. right. apply Z.ltb_lt. exact Hlt. }
  split.
  { intros He. apply orb_true_iff in He. destruct He as [He | He].
    + rewrite (Heof He). destruct (Z.to_nat FQ_BUF_SIZE); reflexivity.
    + apply Z.ltb_lt in He. apply skipn_all2. lia. }
  split; [lia |]. split; assumption.
Qed.

Lemma getLine_refill_eq (wild : mem) (n : nat) (r : t) (str : string) :
  getLine_refill wild n r str
  = match readToBuf wild r with
    | Ok _ r =>
        let end_ := scan_line (Z.to_nat (mBufDataLen r)) (ptr wild (mBuf r)) 0 (mBufDataLen r) in
        if (end_ <? mBufDataLen r) || (mBufDataLen r <? FQ_BUF_SIZE) then
          Ok (str ++ substr (mBuf r) 0 (end_ - 0))%string
             (set_mBufUsedLen r
                (if (end_ + 1 <? mBufDataLen r - 1) && (ptr wild (mBuf r) (end_ + 1) =? LF)%char
                 then end_ + 1 + 1 else end_ + 1))
        else
          match n with
          | S n' => getLine_refill wild n' r (str ++ substr (mBuf r) 0 (mBufDataLen r))%string
          | O => Spin
          end
    | Exit msg => Exit msg
    | Crash => Crash
    | Spin => Spin
    end.
Proof. destruct n; reflexivity. Qed.

Lemma append_assoc (a b c : string) : ((a ++ b) ++ c = a ++ (b ++ c))%string.
Proof.
  induction a as [| x a IH]; [reflexivity |].
  cbn [String.append]. rewrite IH. reflexivity.
Qed.

(** The terminator lies in the bytes the refill reads. *)
Lemma refill_terminated (wild : mem) (n : nat) (r : t) (str : string) (l2 tail : list ascii) :
  mZipped r && mFileBroken r = false ->
  mZipped r && mZipFileNull r = false ->
  (mFileEof r = true -> mFile r = []) ->
  mFile r = l2 ++ tail -> no_eol l2 = true ->
  (tail = [] \/ is_eol (hd NUL tail) = true) ->
  (length l2 < length (firstn (Z.to_nat FQ_BUF_SIZE) (mFile r)))%nat ->
  refill_post r str l2 tail (getLine_refill wild n r str).
Proof.
  pose proof FQ_BUF_SIZE_pos as Hpos.
  intros Hz Hnull Heof Hfile Hl2 Htail Hcase.
  destruct (readToBuf_ok wild r Hz) as (r1 & Hread & HB & HD & HU & HF & HE & HS).
  pose proof (readToBuf_consistent wild r r1 Hz Hnull Heof Hread) as Hc1.
  set (got := firstn (Z.to_nat FQ_BUF_SIZE) (mFile r)) in *.
  assert (Hsplit : got ++ mFile r1 = l2 ++ tail)
    by (rewrite HF; unfold got; rewrite firstn_skipn; exact Hfile).
  rewrite getLine_refill_eq, Hread; cbv zeta.
  destruct (app_cut_inside got (mFile r1) l2 tail Hsplit Hcase) as (x & g' & Hg & Ht).
  assert (Hx : is_eol x = true).
  { destruct Htail as [Htail | Htail]; [rewrite Htail in Ht; discriminate Ht |].
    rewrite Ht in Htail. exact Htail. }
  assert (HDl : mBufDataLen r1 = Z.of_nat (length l2) + 1 + Z.of_nat (length g'))
    by (rewrite HD, Hg, length_app; cbn [length]; lia).
  assert (HBl : mBuf r1 = (l2 ++ [x]) ++ g' ++ skipn (length got) (mBuf r))
    by (rewrite HB, Hg, <- !app_assoc; reflexivity).
  assert (Hscan : scan_line (Z.to_nat (mBufDataLen r1)) (ptr wild (mBuf r1)) 0 (mBufDataLen r1)
                  = Z.of_nat (length l2)).
  { rewrite (scan_line_stops (length l2)).
    - lia.
    - intros j Hj. rewrite Z.add_0_l, HBl, <- !app_assoc, ptr_app_left by lia.
      apply no_eol_at; [exact Hl2 | lia].
    - rewrite HBl, <- !app_assoc.
      replace (0 + Z.of_nat (length l2)) with (Z.of_nat (length l2) + 0) by lia.
      rewrite ptr_app_right by (cbn [length app]; lia). exact Hx.
    - lia.
    - lia. }
  rewrite Hscan.
  replace (Z.of_nat (length l2) <? mBufDataLen r1) with true
    by (symmetry; apply Z.ltb_lt; lia).
  cbn [orb].
  replace (Z.of_nat (length l2) - 0) with (Z.of_nat (length l2)) by lia.
  rewrite HBl at 1. rewrite <- !app_assoc, substr_0.
  unfold refill_post. eexists. split; [reflexivity |].
  match goal with |- context [if ?b then _ else _] => destruct b eqn:Hskip end.
  - apply andb_true_iff in Hskip. destruct Hskip as [Hlt HLF].
    apply Z.ltb_lt in Hlt.
    destruct g' as [| y g']; [cbn [length] in HDl; lia |].
    assert (Hy : y = LF).
    { rewrite HBl in HLF.
      replace (Z.of_nat (length l2) + 1) with (Z.of_nat (length (l2 ++ [x])) + 0) in HLF
        by (rewrite length_app; cbn [length]; lia).
      rewrite ptr_app_right in HLF by (cbn [length app]; lia).
      change (Z.to_nat 0) with O in HLF. cbn [nth app] in HLF.
      apply Ascii.eqb_eq in HLF. exact HLF. }
    split; [apply consistent_used; [exact Hc1 | lia | lia] |].
    split; [eapply same_setup_trans; [exact HS | apply same_setup_used] |].
    split; [| intros ->; discriminate Ht].
    right. rewrite Ht. cbn [tl hd app]. split; [exact Hy |].
    unfold unread. cbn [set_mBufUsedLen mBuf mBufUsedLen mBufDataLen mFile].
    replace (mBuf r1) with ((l2 ++ [x; y]) ++ g' ++ skipn (length got) (mBuf r))
      by (rewrite HBl, <- !app_assoc; reflexivity).
    replace (Z.of_nat (length l2) + 1 + 1) with (Z.of_nat (length (l2 ++ [x; y])))
      by (rewrite length_app; cbn [length]; lia).
    replace (mBufDataLen r1) with (Z.of_nat (length (l2 ++ [x; y]) + length g'))
      by (rewrite HDl, length_app; cbn [length]; lia).
    rewrite slice_middle. reflexivity.
  - split; [apply consistent_used; [exact Hc1 | lia | lia] |].
    split; [eapply same_setup_trans; [exact HS | apply same_setup_used] |].
    split; [| intros ->; discriminate Ht].
    left. rewrite Ht. cbn [tl].
    unfold unread. cbn [set_mBufUsedLen mBuf mBufUsedLen mBufDataLen mFile].
    rewrite HBl.
    replace (Z.of_nat (length l2) + 1) with (Z.of_nat (length (l2 ++ [x])))
      by (rewrite length_app; cbn [length]; lia).
    replace (mBufDataLen r1) with (Z.of_nat (length (l2 ++ [x]) + length g'))
      by (rewrite HDl, length_app; cbn [length]; lia).
    rewrite slice_middle. reflexivity.
Qed.

(** The refill loop of [getLine]: the stream holds the rest [l2] of the
    line, then the end of the stream or a terminator byte. *)
Lemma getLine_refill_line (wild : mem) (n : nat) :
  forall (r : t) (str : string) (l2 tail : list ascii),
    (length (mFile r) <= n)%nat ->
    mZipped r && mFileBroken r = false ->
    mZipped r && mZipFileNull r = false ->
    (mFileEof r = true -> mFile r = []) ->
    mFile r = l2 ++ tail -> no_eol l2 = true ->
    (tail = [] \/ is_eol (hd NUL tail) = true) ->
    refill_post r str l2 tail (getLine_refill wild n r str).
Proof.
  pose proof FQ_BUF_SIZE_pos as Hpos.
  induction n as [| n IH]; intros r str l2 tail Hn Hz Hnull Heof Hfile Hl2 Htail.
  all: destruct (Nat.ltb (length l2) (length (firstn (Z.to_nat FQ_BUF_SIZE) (mFile r))))
         eqn:Hcase;
         [apply Nat.ltb_lt in Hcase; apply refill_terminated; assumption
         | apply Nat.ltb_ge in Hcase].
  all: destruct (readToBuf_ok wild r Hz) as (r1 & Hread & HB & HD & HU & HF & HE & HS).
  all: pose proof (readToBuf_consistent wild r r1 Hz Hnull Heof Hread) as Hc1.
  all: set (got := firstn (Z.to_nat FQ_BUF_SIZE) (mFile r)) in *.
  all: assert (Hsplit : got ++ mFile r1 = l2 ++ tail)
         by (rewrite HF; unfold got; rewrite firstn_skipn; exact Hfile).
  all: assert (Hgot : length got = Nat.min (Z.to_nat FQ_BUF_SIZE) (length (mFile r)))
         by (unfold got; apply length_firstn).
  all: rewrite getLine_refill_eq, Hread; cbv zeta.
  all: destruct (app_cut_outside got (mFile r1) l2 tail Hsplit Hcase) as (l3 & Hl & Hrest).
  all: assert (Hgn : no_eol got = true /\ no_eol l3 = true)
         by (rewrite Hl, no_eol_app in Hl2; apply andb_true_iff in Hl2; exact Hl2).
  all: destruct Hgn as [Hgn Hl3n].
  all: assert (Hscan : scan_line (Z.to_nat (mBufDataLen r1)) (ptr wild (mBuf r1)) 0 (mBufDataLen r1)
                       = mBufDataLen r1)
         by (apply (scan_line_runs (length got));
             [ intros j Hj; rewrite Z.add_0_l, HB, ptr_app_left by lia;
               apply no_eol_at; [exact Hgn | lia]
             | lia | lia ]).
  all: rewrite Hscan, Z.ltb_irrefl; cbn [orb].
  all: destruct (mBufDataLen r1 <? FQ_BUF_SIZE) eqn:Hshort;
         [apply Z.ltb_lt in Hshort | apply Z.ltb_ge in Hshort].
  1, 3: (* a short read: the stream ends here *)
    assert (Hend : mFile r1 = []) by (rewrite HF; apply skipn_all2; lia);
    rewrite Hend in Hrest; symmetry in Hrest; apply app_eq_nil in Hrest;
    destruct Hrest as [-> ->]; rewrite app_nil_r in Hl; subst l2;
    replace (mBufDataLen r1 - 0) with (Z.of_nat (length got)) by lia;
    rewrite HB at 1; rewrite substr_0;
    replace (mBufDataLen r1 + 1 <? mBufDataLen r1 - 1) with false
      by (symmetry; apply Z.ltb_ge; lia);
    cbn [andb];
    eexists; split; [reflexivity |];
    split; [apply consistent_used; [exact Hc1 | lia | lia] |];
    split; [eapply same_setup_trans; [exact HS | apply same_setup_used] |];
    split;
    [ left; unfold unread; cbn [set_mBufUsedLen mBuf mBufUsedLen mBufDataLen mFile tl];
      rewrite Hend, app_nil_r; apply slice_empty; lia
    | intros _; cbn [set_mBufUsedLen mFileEof mBufDataLen mBufUsedLen];
      split; [rewrite HE; apply orb_true_iff; right; apply Z.ltb_lt; lia | lia] ].
  (* a full buffer without a terminator: one more round *)
  - exfalso. lia.
  - assert (Hfull : length got = Z.to_nat FQ_BUF_SIZE) by lia.
    destruct (IH r1 (str ++ substr (mBuf r1) 0 (mBufDataLen r1))%string l3 tail)
      as (r' & Hrun & Hc' & Hs' & Hu' & He').
    + rewrite HF, length_skipn. lia.
    + destruct HS as (S1 & S2 & S3 & S4 & S5 & S6 & S7). rewrite S2, S4. exact Hz.
    + destruct HS as (S1 & S2 & S3 & S4 & S5 & S6 & S7). rewrite S2, S3. exact Hnull.
    + destruct Hc1 as (_ & _ & _ & _ & H5 & _). exact H5.
    + exact Hrest.
    + exact Hl3n.
    + exact Htail.
    + exists r'. split.
      * rewrite Hrun. f_equal.
        rewrite append_assoc. f_equal.
        rewrite Hl, string_of_list_ascii_app. f_equal.
        rewrite HD. rewrite HB. apply substr_0.
      * split; [exact Hc' |].
        split; [eapply same_setup_trans; [exact HS | exact Hs'] |].
        split; [exact Hu' | exact He'].
Qed.

(** [getLine] on the unread stream: the next line, the terminator consumed
    and the reader left. *)
Lemma getLine_stream (wild : mem) (r : t) (l tail : list ascii) :
  consistent r -> unread r = l ++ tail -> no_eol l = true ->
  (tail = [] \/ is_eol (hd NUL tail) = true) ->
  exists r',
    getLine wild r = Ok (string_of_list_ascii l) r'
    /\ consistent r' /\ same_setup r r'
    /\ (unread r' = tl tail \/ (hd NUL (tl tail) = LF /\ unread r' = tl (tl tail)))
    /\ (tail = [] -> mFileEof r' = true /\ mBufDataLen r' <= mBufUsedLen r').
Proof.
  pose proof FQ_BUF_SIZE_pos as Hpos.
  intros Hc Hun Hl Htail.
  pose proof Hc as (H1 & H2 & H3 & H4 & H5 & H6 & H7 & H8).
  destruct (Z.ltb (mBufDataLen r) (mBufUsedLen r)) eqn:Hpast;
    [apply Z.ltb_lt in Hpast | apply Z.ltb_ge in Hpast].
  - (* behind the data of the last buffer *)
    destruct (H4 (H6 Hpast)) as [Hfile Heof].
    unfold unread in Hun. rewrite slice_empty, Hfile in Hun by lia.
    symmetry in Hun. apply app_eq_nil in Hun. destruct Hun as [-> ->].
    unfold getLine. rewrite scan_line_past by lia.
    replace (mBufUsedLen r <? mBufDataLen r) with false by (symmetry; apply Z.ltb_ge; lia).
    replace (mBufDataLen r <? FQ_BUF_SIZE) with true by (symmetry; apply Z.ltb_lt; lia).
    cbn [orb].
    replace (mBufUsedLen r + 1 <? mBufDataLen r - 1) with false
      by (symmetry; apply Z.ltb_ge; lia).
    cbn [andb]. unfold substr. rewrite slice_empty by lia.
    eexists. split; [reflexivity |].
    split; [apply consistent_used; [exact Hc | lia | lia] |].
    split; [apply same_setup_used |].
    split.
    + left. unfold unread. cbn [set_mBufUsedLen mBuf mBufUsedLen mBufDataLen mFile tl].
      rewrite Hfile, app_nil_r. apply slice_empty. lia.
    + intros _. cbn [set_mBufUsedLen mFileEof mBufDataLen mBufUsedLen]. split; [exact Heof | lia].
  - destruct (buffer_split (mBuf r) (mBufUsedLen r) (mBufDataLen r)) as [HB Hpre]; [lia | lia |].
    pose proof (slice_length_inside (mBuf r) (mBufUsedLen r) (mBufDataLen r)
                  ltac:(lia) ltac:(lia)) as Hav.
    unfold unread in Hun.
    set (pre := firstn (Z.to_nat (mBufUsedLen r)) (mBuf r)) in *.
    set (avail := slice (mBuf r) (mBufUsedLen r) (mBufDataLen r)) in *.
    set (post := skipn (Z.to_nat (mBufDataLen r)) (mBuf r)) in *.
    destruct (Nat.ltb (length l) (length avail)) eqn:Hcase;
      [apply Nat.ltb_lt in Hcase | apply Nat.ltb_ge in Hcase].
    + (* the terminator lies in the buffer *)
      destruct (app_cut_inside avail (mFile r) l tail Hun Hcase) as (x & rest1 & Ha & Ht).
      assert (Hx : is_eol x = true).
      { destruct Htail as [Htail | Htail]; [rewrite Htail in Ht; discriminate Ht |].
        rewrite Ht in Htail. exact Htail. }
      rewrite Ha in HB.
      destruct (getLine_in_buffer wild r pre l rest1 post x HB ltac:(lia)
                  ltac:(rewrite <- Ha; lia) Hl Hx) as (k & Hget & Hk).
      eexists. split; [exact Hget |].
      assert (Hlen : mBufDataLen r
                     = Z.of_nat (length pre) + Z.of_nat (length l) + 1 + Z.of_nat (length rest1)).
      { rewrite Ha, length_app in Hav. cbn [length] in Hav. lia. }
      assert (Hk' : 0 <= k /\ Z.of_nat (length pre + length l) + k <= mBufDataLen r).
      { destruct Hk as [-> | (-> & Hy & Hne)]; [lia |].
        destruct rest1; [congruence | cbn [length] in Hlen; lia]. }
      split; [apply consistent_used; [exact Hc | lia | lia] |].
      split; [apply same_setup_used |].
      split; [| intros ->; discriminate Ht].
      unfold unread. cbn [set_mBufUsedLen mBuf mBufUsedLen mBufDataLen mFile].
      destruct Hk as [-> | (-> & Hy & Hne)].
      * left. rewrite Ht. cbn [tl]. f_equal.
        rewrite HB.
        replace (pre ++ (l ++ x :: rest1) ++ post) with ((pre ++ l ++ [x]) ++ rest1 ++ post)
          by (rewrite <- !app_assoc; reflexivity).
        replace (Z.of_nat (length pre + length l) + 1)
          with (Z.of_nat (length (pre ++ l ++ [x])))
          by (rewrite !length_app; cbn [length]; lia).
        replace (mBufDataLen r) with (Z.of_nat (length (pre ++ l ++ [x]) + length rest1))
          by (rewrite Hlen, !length_app; cbn [length]; lia).
        apply slice_middle.
      * right. rewrite Ht. destruct rest1 as [| y rest1]; [congruence |].
        cbn [hd] in Hy. subst y. cbn [tl hd app]. split; [reflexivity |]. f_equal.
        rewrite HB.
        replace (pre ++ (l ++ x :: LF :: rest1) ++ post)
          with ((pre ++ l ++ [x; LF]) ++ rest1 ++ post)
          by (rewrite <- !app_assoc; reflexivity).
        replace (Z.of_nat (length pre + length l) + 2)
          with (Z.of_nat (length (pre ++ l ++ [x; LF])))
          by (rewrite !length_app; cbn [length]; lia).
        replace (mBufDataLen r) with (Z.of_nat (length (pre ++ l ++ [x; LF]) + length rest1))
          by (rewrite Hlen, !length_app; cbn [length]; lia).
        apply slice_middle.
    + (* the buffer holds a part of the line and no terminator *)
      destruct (app_cut_outside avail (mFile r) l tail Hun Hcase) as (l2 & Hl2 & Hfile).
      assert (Hn : no_eol avail = true /\ no_eol l2 = true)
        by (rewrite Hl2, no_eol_app in Hl; apply andb_true_iff in Hl; exact Hl).
      destruct Hn as [Hna Hnl2].
      assert (Hscan : scan_line (Z.to_nat (mBufDataLen r - mBufUsedLen r)) (ptr wild (mBuf r))
                        (mBufUsedLen r) (mBufDataLen r)
                      = mBufDataLen r).
      { apply (scan_line_runs (length avail)); [| lia | lia].
        intros j Hj. rewrite HB. rewrite <- Hpre, ptr_middle by lia.
        apply no_eol_at; [exact Hna | lia]. }
      assert (Hsub : substr (mBuf r) (mBufUsedLen r) (mBufDataLen r - mBufUsedLen r)
                     = string_of_list_ascii avail).
      { rewrite HB at 1. rewrite <- Hpre at 1.
        replace (mBufDataLen r - mBufUsedLen r) with (Z.of_nat (length avail)) by lia.
        apply substr_middle. }
      unfold getLine. rewrite Hscan, Z.ltb_irrefl. cbn [orb].
      destruct (mBufDataLen r <? FQ_BUF_SIZE) eqn:Hshort;
        [apply Z.ltb_lt in Hshort | apply Z.ltb_ge in Hshort].
      * destruct (H4 Hshort) as [Hend Heof].
        rewrite Hend in Hfile. symmetry in Hfile. apply app_eq_nil in Hfile.
        destruct Hfile as [-> ->]. rewrite app_nil_r in Hl2. subst l.
        rewrite Hsub.
        replace (mBufDataLen r + 1 <? mBufDataLen r - 1) with false
          by (symmetry; apply Z.ltb_ge; lia).
        cbn [andb].
        eexists. split; [reflexivity |].
        split; [apply consistent_used; [exact Hc | lia | lia] |].
        split; [apply same_setup_used |].
        split.
        -- left. unfold unread. cbn [set_mBufUsedLen mBuf mBufUsedLen mBufDataLen mFile tl].
           rewrite Hend, app_nil_r. apply slice_empty. lia.
        -- intros _. cbn [set_mBufUsedLen mFileEof mBufDataLen mBufUsedLen].
           split; [exact Heof | lia].
      * rewrite Hsub.
        destruct (getLine_refill_line wild (length (mFile r)) r (string_of_list_ascii avail)
                    l2 tail (le_n _) H7 H8 H5 Hfile Hnl2 Htail)
          as (r' & Hrun & Hc' & Hs' & Hu' & He').
        exists r'. split.
        -- rewrite Hrun, Hl2, string_of_list_ascii_app. reflexivity.
        -- split; [exact Hc' |]. split; [exact Hs' |]. split; [exact Hu' | exact He'].
Qed.

(** X3.  [getLine] returns the bytes of the stream up to the next terminator
    byte or the end of the stream, whatever the length of the line and
    wherever the buffer is refilled.  It consumes the terminator byte, and
    one byte more only when that byte is a ['\n']. *)
Theorem getLine_next_line (wild : mem) (r : t) (l tail : list ascii) :
  consistent r -> unread r = l ++ tail -> no_eol l = true ->
  (tail = [] \/ is_eol (hd NUL tail) = true) ->
  exists r',
    getLine wild r = Ok (string_of_list_ascii l) r'
    /\ consistent r' /\ same_setup r r'
    /\ (unread r' = tl tail \/ (hd NUL (tl tail) = LF /\ unread r' = tl (tl tail)))
    /\ (tail = [] -> mFileEof r' = true /\ mBufDataLen r' <= mBufUsedLen r').
Proof.
  intros Hc Hun Hl Htail.
  exact (getLine_stream wild r l tail Hc Hun Hl Htail).
Qed.

(** The constructor leaves a consistent reader with the whole file unread. *)
Lemma new_consistent (wild : mem) (filename : string) (file : list ascii)
    (broken hasQuality phred64 : bool) :
  ends_with filename ".gz" && broken = false ->
  exists r,
    new wild filename (Some file) broken hasQuality phred64 = Ok tt r
    /\ consistent r /\ unread r = file
    /\ mHasQuality r = hasQuality /\ mPhred64 r = phred64 /\ cerr r = [].
Proof.
  intros Hz. unfold new. cbv beta iota zeta.
  set (r0 := {| mFilename := filename; mFile := file; mFileEof := false;
                mFileBroken := broken; mZipFileNull := negb (ends_with filename ".gz");
                mZipped := ends_with filename ".gz"; mPhred64 := phred64;
                mHasQuality := hasQuality; mBuf := []; mBufDataLen := 0; mBufUsedLen := 0;
                mHasNoLineBreakAtEnd := false; cerr := [] |}).
  assert (Hz0 : mZipped r0 && mFileBroken r0 = false) by exact Hz.
  assert (Hn0 : mZipped r0 && mZipFileNull r0 = false)
    by (cbn [r0 mZipped mZipFileNull]; apply andb_negb_r).
  destruct (readToBuf_ok wild r0 Hz0) as (r1 & Hread & HB & HD & HU & HF & HE & HS).
  exists r1. split; [exact Hread |].
  split; [apply (readToBuf_consistent wild r0 r1 Hz0 Hn0); [discriminate | exact Hread] |].
  destruct HS as (S1 & S2 & S3 & S4 & S5 & S6 & S7).
  split; [| split; [exact S6 | split; [exact S5 | exact S7]]].
  unfold unread. rewrite HB, HD, HU, HF. cbn [r0 mBuf mFile].
  rewrite skipn_nil, app_nil_r.
  unfold slice. rewrite Z.sub_0_r, Nat2Z.id. cbn [Z.to_nat skipn].
  rewrite firstn_all. apply firstn_skipn.
Qed.

Lemma getLine_next_line_witness :
  let r := {| mFilename := "r.fq"; mFile := []; mFileEof := true;
              mFileBroken := false; mZipFileNull := true; mZipped := false;
              mPhred64 := false; mHasQuality := true;
              mBuf := bytes "@r" ++ [LF] ++ bytes "ACGT" ++ [LF];
              mBufDataLen := 8; mBufUsedLen := 0;
              mHasNoLineBreakAtEnd := false; cerr := [] |} in
  consistent r
  /\ exists r',
       getLine zeros r = Ok (string_of_list_ascii (bytes "@r")) r'
       /\ consistent r' /\ same_setup r r'
       /\ (unread r' = tl (LF :: bytes "ACGT" ++ [LF])
           \/ (hd NUL (tl (LF :: bytes "ACGT" ++ [LF])) = LF
               /\ unread r' = tl (tl (LF :: bytes "ACGT" ++ [LF]))))
       /\ (LF :: bytes "ACGT" ++ [LF] = [] -> mFileEof r' = true /\ mBufDataLen r' <= mBufUsedLen r').
Proof.
  intros r.
  assert (Hc : consistent r).
  { unfold consistent. cbn [r mBufUsedLen mBufDataLen mBuf mFile mFileEof mZipped
                             mFileBroken mZipFileNull].
    rewrite FQ_BUF_SIZE_value.
    repeat split; intros; try lia; try reflexivity; try (cbn; lia). }
  split; [exact Hc |].
  exact (getLine_next_line zeros r (bytes "@r") (LF :: bytes "ACGT" ++ [LF]) Hc
           eq_refl eq_refl (or_intror eq_refl)).
Defined.

Lemma break_line_spec (s : list ascii) :
  s = fst (break_line s) ++ snd (break_line s)
  /\ no_eol (fst (break_line s)) = true
  /\ (snd (break_line s) = [] \/ is_eol (hd NUL (snd (break_line s))) = true).
Proof.
  induction s as [| c s IH]; [cbn; auto |].
  cbn [break_line]. destruct (is_eol c) eqn:Hc.
  - cbn [fst snd app hd no_eol forallb]. auto.
  - destruct (break_line s) as [l tail]. cbn [fst snd] in *.
    destruct IH as (H1 & H2 & H3).
    split; [cbn [app]; f_equal; exact H1 |].
    split; [| exact H3].
    unfold no_eol in *. cbn [forallb]. rewrite Hc, H2. reflexivity.
Qed.

(** X4.  On every consistent reader [getLine] returns, the reader it leaves
    is consistent again, and the line it returns holds no ['\n'] and no
    ['\r']: it is what the stream holds in front of its first terminator
    byte. *)
Theorem getLine_never_returns_terminator (wild : mem) (r : t) :
  consistent r ->
  exists line r',
    getLine wild r = Ok line r'
    /\ consistent r'
    /\ no_eol (list_ascii_of_string line) = true
    /\ list_ascii_of_string line = fst (break_line (unread r)).
Proof.
  intros Hc.
  destruct (break_line_spec (unread r)) as (H1 & H2 & H3).
  destruct (getLine_stream wild r _ _ Hc H1 H2 H3) as (r' & Hget & Hc' & _).
  do 2 eexists. split; [exact Hget |]. split; [exact Hc' |].
  rewrite list_ascii_of_string_of_list_ascii. split; [exact H2 | reflexivity].
Qed.

Lemma getLine_never_returns_terminator_witness :
  let r := {| mFilename := "r.fq"; mFile := []; mFileEof := true;
              mFileBroken := false; mZipFileNull := true; mZipped := false;
              mPhred64 := false; mHasQuality := true;
              mBuf := bytes "ACGT" ++ [CR; LF] ++ bytes "+" ++ [CR; LF];
              mBufDataLen := 9; mBufUsedLen := 0;
              mHasNoLineBreakAtEnd := false; cerr := [] |} in
  consistent r
  /\ exists line r',
       getLine zeros r = Ok line r'
       /\ consistent r'
       /\ no_eol (list_ascii_of_string line) = true
       /\ list_ascii_of_string line = fst (break_line (unread r)).
Proof.
  intros r.
  assert (Hc : consistent r).
  { unfold consistent. cbn [r mBufUsedLen mBufDataLen mBuf mFile mFileEof mZipped
                             mFileBroken mZipFileNull].
    rewrite FQ_BUF_SIZE_value.
    repeat split; intros; try lia; try reflexivity; try (cbn; lia). }
  split; [exact Hc |].
  exact (getLine_never_returns_terminator zeros r Hc).
Defined.

(** A line that ends with a terminator of one byte. *)
Lemma getLine_line (wild : mem) (tm : Terminator) (r : t) (l rest : list ascii) :
  tm <> TermCRLF ->
  consistent r -> unread r = l ++ term_bytes tm ++ rest ->
  no_eol l = true -> hd NUL rest <> LF ->
  exists r',
    getLine wild r = Ok (string_of_list_ascii l) r'
    /\ consistent r' /\ same_setup r r' /\ unread r' = rest.
Proof.
  intros Htm Hc Hun Hl Hrest.
  assert (Hform : exists c, term_bytes tm ++ rest = c :: rest /\ is_eol c = true).
  { destruct tm; [exists LF | exists CR | congruence]; split; reflexivity. }
  destruct Hform as (c & Hform & Hcc). rewrite Hform in Hun.
  destruct (getLine_stream wild r l (c :: rest) Hc Hun Hl (or_intror Hcc))
    as (r' & Hget & Hc' & Hs' & Hu' & _).
  exists r'. split; [exact Hget |]. split; [exact Hc' |]. split; [exact Hs' |].
  cbn [tl] in Hu'. destruct Hu' as [Hu' | [Hu' _]]; [exact Hu' | contradiction].
Qed.

(** The same without a condition on what follows the line: a ['\n'] behind
    the terminator may be consumed with it. *)
Lemma getLine_line_any (wild : mem) (tm : Terminator) (r : t) (l rest : list ascii) :
  tm <> TermCRLF ->
  consistent r -> unread r = l ++ term_bytes tm ++ rest ->
  no_eol l = true ->
  exists r',
    getLine wild r = Ok (string_of_list_ascii l) r'
    /\ consistent r' /\ same_setup r r'
    /\ (unread r' = rest \/ (hd NUL rest = LF /\ unread r' = tl rest)).
Proof.
  intros Htm Hc Hun Hl.
  assert (Hform : exists c, term_bytes tm ++ rest = c :: rest /\ is_eol c = true).
  { destruct tm; [exists LF | exists CR | congruence]; split; reflexivity. }
  destruct Hform as (c & Hform & Hcc). rewrite Hform in Hun.
  destruct (getLine_stream wild r l (c :: rest) Hc Hun Hl (or_intror Hcc))
    as (r' & Hget & Hc' & Hs' & Hu' & _).
  exists r'. split; [exact Hget |]. split; [exact Hc' |]. split; [exact Hs' |].
  cbn [tl] in Hu'. exact Hu'.
Qed.

Lemma text_line_hd (l rest : list ascii) :
  text_line l = true -> hd NUL (l ++ rest) <> LF.
Proof.
  unfold text_line. intros H. apply andb_true_iff in H. destruct H as [Hn Hne].
  destruct l as [| c l]; [discriminate Hne |].
  cbn [app hd]. unfold no_eol in Hn. cbn [forallb] in Hn.
  apply andb_true_iff in Hn. destruct Hn as [Hc _].
  apply negb_true_iff in Hc. unfold is_eol in Hc. apply orb_false_elim in Hc.
  destruct Hc as [Hc _]. apply Ascii.eqb_neq in Hc. exact Hc.
Qed.

Lemma render_lines_hd (tm : Terminator) (ls : list (list ascii)) (more : list ascii) :
  forallb text_line ls = true -> hd NUL more <> LF ->
  hd NUL (render_lines tm ls ++ more) <> LF.
Proof.
  intros Hls Hmore. destruct ls as [| l ls]; [exact Hmore |].
  cbn [forallb] in Hls. apply andb_true_iff in Hls. destruct Hls as [Hl _].
  rewrite RecordFacts.render_lines_cons, <- !app_assoc. apply text_line_hd. exact Hl.
Qed.

(** X5.  The lines of a text come back as they are: on a stream of lines
    that are not empty, each ended by ["\n"] (or each by ["\r"]), as many
    calls of [getLine] as there are lines return the lines in order and
    leave what follows them, whatever the length of the lines and of the
    stream. *)
Theorem getLines_returns_the_lines (wild : mem) (tm : Terminator)
    (ls : list (list ascii)) (more : list ascii) :
  forall r : t,
    tm <> TermCRLF ->
    consistent r -> unread r = render_lines tm ls ++ more ->
    forallb text_line ls = true -> hd NUL more <> LF ->
    exists r',
      getLines wild (length ls) r = (map string_of_list_ascii ls, Ok tt r')
      /\ consistent r' /\ same_setup r r' /\ unread r' = more.
Proof.
  induction ls as [| l ls IH]; intros r Htm Hc Hun Hls Hmore.
  - exists r. cbn [getLines length map]. split; [reflexivity |].
    split; [exact Hc |]. split; [apply same_setup_refl | exact Hun].
  - cbn [forallb] in Hls. apply andb_true_iff in Hls. destruct Hls as [Hl Hls].
    rewrite RecordFacts.render_lines_cons, <- !app_assoc in Hun.
    destruct (getLine_line wild tm r l (render_lines tm ls ++ more) Htm Hc Hun)
      as (r1 & Hget & Hc1 & Hs1 & Hu1).
    { unfold text_line in Hl. apply andb_true_iff in Hl. apply Hl. }
    { apply render_lines_hd; assumption. }
    destruct (IH r1 Htm Hc1 Hu1 Hls Hmore) as (r' & Hrun & Hc' & Hs' & Hu').
    exists r'. cbn [getLines length map]. rewrite Hget, Hrun.
    split; [reflexivity |]. split; [exact Hc' |].
    split; [eapply same_setup_trans; eassumption | exact Hu'].
Qed.

Lemma getLines_returns_the_lines_witness :
  let ls := [bytes "@r1"; bytes "ACGT"; bytes "+"; bytes "IIII"] in
  let r := {| mFilename := "r.fq"; mFile := []; mFileEof := true;
              mFileBroken := false; mZipFileNull := true; mZipped := false;
              mPhred64 := false; mHasQuality := true;
              mBuf := render_lines TermLF ls;
              mBufDataLen := 16; mBufUsedLen := 0;
              mHasNoLineBreakAtEnd := false; cerr := [] |} in
  consistent r
  /\ exists r',
       getLines zeros (length ls) r = (map string_of_list_ascii ls, Ok tt r')
       /\ consistent r' /\ same_setup r r' /\ unread r' = [].
Proof.
  intros ls r.
  assert (Hc : consistent r).
  { unfold consistent. cbn [r mBufUsedLen mBufDataLen mBuf mFile mFileEof mZipped
                             mFileBroken mZipFileNull].
    rewrite FQ_BUF_SIZE_value.
    repeat split; intros; try lia; try reflexivity; try (cbn; lia). }
  split; [exact Hc |].
  apply (getLines_returns_the_lines zeros TermLF ls [] r);
    [discriminate | exact Hc | reflexivity | reflexivity | discriminate].
Defined.

End LineFacts.

Module ReadFacts.

Import FastqReader ReaderAux ReaderFacts LineFacts.

#[local] Opaque FQ_BUF_SIZE.

(** *** [read] over a stream *)

Lemma length_string_of_list_ascii (l : list ascii) :
  String.length (string_of_list_ascii l) = length l.
Proof.
  induction l as [| c l IH]; [reflexivity |].
  cbn [string_of_list_ascii String.length length]. rewrite IH. reflexivity.
Qed.

(** A name that begins with ['@'] ends the search for the name line. *)
Lemma skip_to_name_found (wild : mem) (fuel : nat) (name : list ascii) (r : t) :
  starts_with AT name = true ->
  skip_to_name wild fuel (string_of_list_ascii name) r = Ok (string_of_list_ascii name) r
  /\ empty (string_of_list_ascii name) = false.
Proof.
  intros H. destruct name as [| c name]; [discriminate H |].
  cbn [starts_with] in H.
  assert (Hcond : first_is_not_at (string_of_list_ascii (c :: name)) = false)
    by (cbn [string_of_list_ascii first_is_not_at]; rewrite H; reflexivity).
  assert (He : empty (string_of_list_ascii (c :: name)) = false) by reflexivity.
  split; [| exact He].
  destruct fuel; cbn [skip_to_name]; rewrite He, Hcond; reflexivity.
Qed.

(** Something unread keeps [read] from taking the stream for exhausted. *)
Lemma not_at_end (r : t) (c : ascii) (s : list ascii) :
  consistent r -> unread r = c :: s ->
  (mBufUsedLen r >=? mBufDataLen r) && eof r = false.
Proof.
  intros (H1 & H2 & H3 & H4 & H5 & H6 & H7 & H8) Hun.
  destruct ((mBufUsedLen r >=? mBufDataLen r) && eof r) eqn:Hg; [| reflexivity].
  apply andb_true_iff in Hg. destruct Hg as [Hu He]. apply Z.geb_le in Hu.
  unfold eof in He. unfold unread in Hun.
  rewrite (H5 He), slice_empty in Hun by lia. discriminate Hun.
Qed.

Lemma readable_fields (rec : FastqRecord) :
  readable rec = true ->
  no_eol (rec_name rec) = true /\ starts_with AT (rec_name rec) = true
  /\ text_line (rec_sequence rec) = true
  /\ no_eol (rec_strand rec) = true /\ starts_with PLUS (rec_strand rec) = true
  /\ no_eol (rec_quality rec) = true
  /\ length (rec_quality rec) = length (rec_sequence rec).
Proof.
  unfold readable, well_formed. intros H.
  repeat (apply andb_true_iff in H; destruct H as [H ?]).
  repeat split; try assumption. apply Nat.eqb_eq. assumption.
Qed.

Lemma starts_with_hd (c : ascii) (l rest : list ascii) :
  starts_with c l = true -> c <> LF -> hd NUL (l ++ rest) <> LF.
Proof.
  intros H Hc. destruct l as [| x l]; [discriminate H |].
  cbn [starts_with] in H. apply Ascii.eqb_eq in H. subst x. exact Hc.
Qed.

(** [read] on a reader with nothing unread. *)
Lemma read_at_end (wild : mem) (fuel : nat) (r : t) :
  consistent r -> unread r = [] ->
  exists r',
    read wild fuel r = Ok None r'
    /\ consistent r' /\ same_setup r r' /\ unread r' = [].
Proof.
  intros Hc Hun.
  pose proof Hc as (_ & _ & _ & _ & _ & _ & _ & H8).
  unfold read. rewrite H8.
  destruct ((mBufUsedLen r >=? mBufDataLen r) && eof r) eqn:Hg.
  - exists r. split; [reflexivity |].
    split; [exact Hc |]. split; [apply same_setup_refl | exact Hun].
  - destruct (getLine_stream wild r [] [] Hc Hun eq_refl (or_introl eq_refl))
      as (r1 & Hget & Hc1 & Hs1 & Hu1 & He1).
    destruct (He1 eq_refl) as [Heof Hused].
    rewrite Hget.
    assert (Hskip : skip_to_name wild fuel (string_of_list_ascii []) r1
                    = Ok (string_of_list_ascii []) r1).
    { assert (Hcond : (mBufUsedLen r1 >=? mBufDataLen r1) && eof r1 = true).
      { apply andb_true_iff. split; [apply Z.geb_le; lia | exact Heof]. }
      destruct fuel; cbn [skip_to_name string_of_list_ascii]; rewrite Hcond; reflexivity. }
    rewrite Hskip. cbn [string_of_list_ascii].
    exists r1. split; [reflexivity |].
    split; [exact Hc1 |]. split; [exact Hs1 |].
    destruct Hu1 as [Hu1 | [_ Hu1]]; exact Hu1.
Qed.

(** [read] on a stream that goes on with a readable record, whatever
    follows the record. *)
Lemma read_record_any (wild : mem) (fuel : nat) (tm : Terminator)
    (rec : FastqRecord) (more : list ascii) (r : t) :
  tm <> TermCRLF ->
  consistent r -> mHasQuality r = true ->
  unread r = render tm rec ++ more ->
  readable rec = true ->
  exists r',
    read wild fuel r = Ok (Some (as_Read rec (mPhred64 r))) r'
    /\ consistent r' /\ same_setup r r'
    /\ (unread r' = more \/ (hd NUL more = LF /\ unread r' = tl more)).
Proof.
  intros Htm Hc Hq Hun Hrec.
  destruct (readable_fields rec Hrec) as (Hn1 & Hat & Hseq & Hn3 & Hplus & Hn4 & Hlen).
  assert (Hn2 : no_eol (rec_sequence rec) = true)
    by (unfold text_line in Hseq; apply andb_true_iff in Hseq; apply Hseq).
  unfold render, record_lines in Hun.
  rewrite !RecordFacts.render_lines_cons, <- !app_assoc in Hun.
  change (render_lines tm [] ++ more) with more in Hun.
  assert (Hq4 : hd NUL (rec_quality rec ++ term_bytes tm ++ more) <> LF).
  { apply text_line_hd. unfold text_line. rewrite Hn4. cbn [andb].
    destruct (rec_quality rec); [| reflexivity].
    unfold text_line in Hseq. apply andb_true_iff in Hseq. destruct Hseq as [_ Hs].
    destruct (rec_sequence rec); [discriminate Hs | discriminate Hlen]. }
  destruct (getLine_line wild tm r _ _ Htm Hc Hun Hn1) as (r1 & Hg1 & Hc1 & Hs1 & Hu1).
  { apply text_line_hd. exact Hseq. }
  destruct (getLine_line wild tm r1 _ _ Htm Hc1 Hu1 Hn2) as (r2 & Hg2 & Hc2 & Hs2 & Hu2).
  { apply starts_with_hd with (c := PLUS); [exact Hplus | discriminate]. }
  destruct (getLine_line wild tm r2 _ _ Htm Hc2 Hu2 Hn3 Hq4) as (r3 & Hg3 & Hc3 & Hs3 & Hu3).
  destruct (getLine_line_any wild tm r3 _ _ Htm Hc3 Hu3 Hn4) as (r4 & Hg4 & Hc4 & Hs4 & Hu4).
  pose proof (same_setup_trans _ _ _ Hs1 (same_setup_trans _ _ _ Hs2 Hs3)) as Hs13.
  pose proof (same_setup_trans _ _ _ Hs13 Hs4) as Hs14.
  destruct (skip_to_name_found wild fuel (rec_name rec) r1 Hat) as [Hskip Hne].
  exists r4.
  split; [| split; [exact Hc4 | split; [exact Hs14 | exact Hu4]]].
  pose proof Hc as (_ & _ & _ & _ & _ & _ & _ & H8).
  destruct (rec_name rec) as [| c0 nm] eqn:Hname; [discriminate Hat |].
  unfold read. rewrite H8.
  rewrite (not_at_end r c0 _ Hc Hun).
  rewrite Hg1, Hskip, Hne, Hg2, Hg3.
  replace (mHasQuality r3) with true
    by (destruct Hs13 as (_ & _ & _ & _ & _ & E & _); rewrite E, Hq; reflexivity).
  cbn [negb]. rewrite Hg4.
  rewrite !length_string_of_list_ascii, Hlen, Nat.eqb_refl. cbn [negb].
  unfold as_Read. rewrite Hname.
  replace (mPhred64 r4) with (mPhred64 r)
    by (destruct Hs14 as (_ & _ & _ & _ & E & _); rewrite E; reflexivity).
  reflexivity.
Qed.

(** When what follows the record does not begin with ['\n'] the reader is
    left exactly behind the record. *)
Lemma read_record (wild : mem) (fuel : nat) (tm : Terminator)
    (rec : FastqRecord) (more : list ascii) (r : t) :
  tm <> TermCRLF ->
  consistent r -> mHasQuality r = true ->
  unread r = render tm rec ++ more ->
  readable rec = true -> hd NUL more <> LF ->
  exists r',
    read wild fuel r = Ok (Some (as_Read rec (mPhred64 r))) r'
    /\ consistent r' /\ same_setup r r' /\ unread r' = more.
Proof.
  intros Htm Hc Hq Hun Hrec Hmore.
  destruct (read_record_any wild fuel tm rec more r Htm Hc Hq Hun Hrec)
    as (r' & Hread & Hc' & Hs' & Hu').
  exists r'. split; [exact Hread |]. split; [exact Hc' |]. split; [exact Hs' |].
  destruct Hu' as [Hu' | [Hlf _]]; [exact Hu' | contradiction].
Qed.

(** X6.  [read] hands out the next record as it is.  On a stream that goes
    on with a well-formed four-line record whose sequence is not empty and
    whose quality is as long as the sequence, lines ended by ["\n"] (or by
    ["\r"]), the call returns the four fields, wherever the buffer is
    refilled and whatever follows the record.  The reader is left behind
    the record, or, when a ['\n'] follows the record, possibly behind that
    byte as well. *)
Theorem read_returns_the_record (wild : mem) (fuel : nat) (tm : Terminator)
    (rec : FastqRecord) (more : list ascii) (r : t) :
  tm <> TermCRLF ->
  consistent r -> mHasQuality r = true ->
  unread r = render tm rec ++ more ->
  readable rec = true ->
  exists r',
    read wild fuel r = Ok (Some (as_Read rec (mPhred64 r))) r'
    /\ consistent r' /\ same_setup r r'
    /\ (unread r' = more \/ (hd NUL more = LF /\ unread r' = tl more)).
Proof.
  intros Htm Hc Hq Hun Hrec.
  exact (read_record_any wild fuel tm rec more r Htm Hc Hq Hun Hrec).
Qed.

(** The theorem at work on a record that is followed by a blank line. *)
Lemma read_returns_the_record_witness :
  let rec := {| rec_name := bytes "@r1"; rec_sequence := bytes "ACGT";
                rec_strand := bytes "+"; rec_quality := bytes "@III" |} in
  let r := {| mFilename := "r.fq"; mFile := render TermLF rec ++ [LF]; mFileEof := false;
              mFileBroken := false; mZipFileNull := true; mZipped := false;
              mPhred64 := false; mHasQuality := true;
              mBuf := repeat "x"%char (Z.to_nat FQ_BUF_SIZE);
              mBufDataLen := FQ_BUF_SIZE; mBufUsedLen := FQ_BUF_SIZE;
              mHasNoLineBreakAtEnd := false; cerr := [] |} in
  consistent r
  /\ exists r',
       read zeros 0 r = Ok (Some (as_Read rec (mPhred64 r))) r'
       /\ consistent r' /\ same_setup r r'
       /\ (unread r' = [LF] \/ (hd NUL [LF] = LF /\ unread r' = tl [LF])).
Proof.
  intros rec r.
  assert (Hc : consistent r).
  { unfold consistent. cbn [r mBufUsedLen mBufDataLen mBuf mFile mFileEof mZipped
                             mFileBroken mZipFileNull].
    rewrite repeat_length.
    pose proof FQ_BUF_SIZE_pos.
    repeat split; intros; try lia; try reflexivity; try discriminate. }
  split; [exact Hc |].
  apply (read_returns_the_record zeros 0 TermLF rec [LF] r);
    [discriminate | exact Hc | reflexivity | | reflexivity].
  unfold unread. cbn [r mBuf mBufUsedLen mBufDataLen mFile].
  rewrite slice_empty by lia. reflexivity.
Defined.

(** X7.  Without quality ([hasQuality] false) [read] takes three lines: on
    a stream that goes on with a name line that begins with ['@'] and two
    lines that are not empty, each ended by ["\n"] (or each by ["\r"]), it
    returns them with a quality of as many ['K'] as the sequence has bytes.
    The reader is left behind the third line, or, when a ['\n'] follows it,
    possibly behind that byte as well. *)
Theorem read_without_quality (wild : mem) (fuel : nat) (tm : Terminator)
    (name sequence strand more : list ascii) (r : t) :
  tm <> TermCRLF ->
  consistent r -> mHasQuality r = false ->
  unread r = render_lines tm [name; sequence; strand] ++ more ->
  no_eol name = true -> starts_with AT name = true ->
  forallb text_line [sequence; strand] = true ->
  exists r',
    read wild fuel r
    = Ok (Some {| mName := string_of_list_ascii name;
                  mSeq := string_of_list_ascii sequence;
                  mStrand := string_of_list_ascii strand;
                  mQuality := string_of_list_ascii (repeat "K"%char (length sequence));
                  mHasPhred64 := mPhred64 r |}) r'
    /\ consistent r' /\ same_setup r r'
    /\ (unread r' = more \/ (hd NUL more = LF /\ unread r' = tl more)).
Proof.
  intros Htm Hc Hq Hun Hn1 Hat Hls.
  cbn [forallb] in Hls. apply andb_true_iff in Hls. destruct Hls as [Hseq Hls].
  apply andb_true_iff in Hls. destruct Hls as [Hstr _].
  assert (Hn2 : no_eol sequence = true)
    by (unfold text_line in Hseq; apply andb_true_iff in Hseq; apply Hseq).
  assert (Hn3 : no_eol strand = true)
    by (unfold text_line in Hstr; apply andb_true_iff in Hstr; apply Hstr).
  rewrite !RecordFacts.render_lines_cons, <- !app_assoc in Hun.
  change (render_lines tm [] ++ more) with more in Hun.
  destruct (getLine_line wild tm r _ _ Htm Hc Hun Hn1) as (r1 & Hg1 & Hc1 & Hs1 & Hu1).
  { apply text_line_hd. exact Hseq. }
  destruct (getLine_line wild tm r1 _ _ Htm Hc1 Hu1 Hn2) as (r2 & Hg2 & Hc2 & Hs2 & Hu2).
  { apply text_line_hd. exact Hstr. }
  destruct (getLine_line_any wild tm r2 _ _ Htm Hc2 Hu2 Hn3) as (r3 & Hg3 & Hc3 & Hs3 & Hu3).
  pose proof (same_setup_trans _ _ _ Hs1 (same_setup_trans _ _ _ Hs2 Hs3)) as Hs13.
  destruct (skip_to_name_found wild fuel name r1 Hat) as [Hskip Hne].
  exists r3.
  split; [| split; [exact Hc3 | split; [exact Hs13 | exact Hu3]]].
  pose proof Hc as (_ & _ & _ & _ & _ & _ & _ & H8).
  destruct name as [| c0 nm] eqn:Hname; [discriminate Hat |].
  unfold read. rewrite H8.
  rewrite (not_at_end r c0 _ Hc Hun).
  rewrite Hg1, Hskip, Hne, Hg2, Hg3.
  replace (mHasQuality r3) with false
    by (destruct Hs13 as (_ & _ & _ & _ & _ & E & _); rewrite E, Hq; reflexivity).
  cbn [negb]. rewrite length_string_of_list_ascii.
  replace (mPhred64 r3) with (mPhred64 r)
    by (destruct Hs13 as (_ & _ & _ & _ & E & _); rewrite E; reflexivity).
  reflexivity.
Qed.

Lemma read_without_quality_witness :
  let r := {| mFilename := "r.fa"; mFile := []; mFileEof := true;
              mFileBroken := false; mZipFileNull := true; mZipped := false;
              mPhred64 := false; mHasQuality := false;
              mBuf := render_lines TermLF [bytes "@r1"; bytes "ACGT"; bytes "+"];
              mBufDataLen := 11; mBufUsedLen := 0;
              mHasNoLineBreakAtEnd := false; cerr := [] |} in
  consistent r
  /\ exists r',
       read zeros 0 r
       = Ok (Some {| mName := string_of_list_ascii (bytes "@r1");
                     mSeq := string_of_list_ascii (bytes "ACGT");
                     mStrand := string_of_list_ascii (bytes "+");
                     mQuality := string_of_list_ascii (repeat "K"%char (length (bytes "ACGT")));
                     mHasPhred64 := mPhred64 r |}) r'
       /\ consistent r' /\ same_setup r r'
       /\ (unread r' = [] \/ (hd NUL [] = LF /\ unread r' = tl [])).
Proof.
  intros r.
  assert (Hc : consistent r).
  { unfold consistent. cbn [r mBufUsedLen mBufDataLen mBuf mFile mFileEof mZipped
                             mFileBroken mZipFileNull].
    rewrite FQ_BUF_SIZE_value.
    repeat split; intros; try lia; try reflexivity; try (cbn; lia). }
  split; [exact Hc |].
  apply (read_without_quality zeros 0 TermLF (bytes "@r1") (bytes "ACGT") (bytes "+") [] r);
    [discriminate | exact Hc | reflexivity | reflexivity | reflexivity | reflexivity
     | reflexivity].
Defined.

(** X8.  At the end of the stream [read] returns "no record", for every
    bound on its search for a name line, and keeps doing so. *)
Theorem read_at_end_of_stream (wild : mem) (fuel : nat) (r : t) :
  consistent r -> unread r = [] ->
  exists r',
    read wild fuel r = Ok None r'
    /\ consistent r' /\ same_setup r r' /\ unread r' = [].
Proof.
  intros Hc Hun.
  exact (read_at_end wild fuel r Hc Hun).
Qed.

Lemma read_at_end_of_stream_witness :
  let r := {| mFilename := "r.fq"; mFile := []; mFileEof := false;
              mFileBroken := false; mZipFileNull := true; mZipped := false;
              mPhred64 := false; mHasQuality := true;
              mBuf := repeat "x"%char (Z.to_nat FQ_BUF_SIZE);
              mBufDataLen := FQ_BUF_SIZE; mBufUsedLen := FQ_BUF_SIZE;
              mHasNoLineBreakAtEnd := false; cerr := [] |} in
  consistent r
  /\ exists r',
       read zeros 0 r = Ok None r'
       /\ consistent r' /\ same_setup r r' /\ unread r' = [].
Proof.
  intros r.
  assert (Hc : consistent r).
  { unfold consistent. cbn [r mBufUsedLen mBufDataLen mBuf mFile mFileEof mZipped
                             mFileBroken mZipFileNull].
    rewrite repeat_length.
    pose proof FQ_BUF_SIZE_pos.
    repeat split; intros; try lia; try reflexivity; try discriminate. }
  split; [exact Hc |].
  apply (read_at_end_of_stream zeros 0 r Hc).
  unfold unread. cbn [r mBuf mBufUsedLen mBufDataLen mFile].
  rewrite slice_empty by lia. reflexivity.
Defined.

(** [getLine] on any consistent reader. *)
Lemma getLine_total (wild : mem) (r : t) :
  consistent r ->
  exists line r',
    getLine wild r = Ok line r'
    /\ consistent r' /\ same_setup r r'
    /\ no_eol (list_ascii_of_string line) = true.
Proof.
  intros Hc.
  destruct (break_line_spec (unread r)) as (H1 & H2 & H3).
  destruct (getLine_stream wild r _ _ Hc H1 H2 H3) as (r' & Hget & Hc' & Hs' & _).
  do 2 eexists. split; [exact Hget |]. split; [exact Hc' |]. split; [exact Hs' |].
  rewrite list_ascii_of_string_of_list_ascii. exact H2.
Qed.

(** The search for the name line ends on an empty line or on a line that
    begins with ['@']. *)
Lemma skip_to_name_inv (wild : mem) (fuel : nat) :
  forall (name : string) (r : t) (name' : string) (r' : t),
    consistent r -> no_eol (list_ascii_of_string name) = true ->
    skip_to_name wild fuel name r = Ok name' r' ->
    consistent r' /\ same_setup r r'
    /\ no_eol (list_ascii_of_string name') = true
    /\ (empty name' = true \/ first_is_not_at name' = false).
Proof.
  induction fuel as [| fuel IH]; intros name r name' r' Hc Hn H; cbn [skip_to_name] in H.
  all: destruct ((empty name && negb ((mBufUsedLen r >=? mBufDataLen r) && eof r))
                 || (negb (empty name) && first_is_not_at name)) eqn:Hcond.
  all: try discriminate H.
  1, 3: injection H as <- <-;
    (split; [exact Hc |]); (split; [apply same_setup_refl |]); (split; [exact Hn |]);
    apply orb_false_elim in Hcond; destruct Hcond as [_ Hcond];
    destruct (empty name); [left; reflexivity | right; exact Hcond].
  destruct (getLine_total wild r Hc) as (line & r1 & Hget & Hc1 & Hs1 & Hn1).
  rewrite Hget in H.
  destruct (IH line r1 name' r' Hc1 Hn1 H) as (A & B & C & D).
  split; [exact A |]. split; [eapply same_setup_trans; eassumption |].
  split; [exact C | exact D].
Qed.

(** X9.  What every record that [read] hands out looks like, whatever the
    stream holds: its name begins with ['@'], no field holds a ['\n'] or a
    ['\r'], the quality is as long as the sequence, and the Phred flag is
    the reader's.  The reader is left consistent. *)
Theorem read_result_invariant (wild : mem) (fuel : nat) (r r' : t) (rd : Read) :
  consistent r ->
  read wild fuel r = Ok (Some rd) r' ->
  consistent r'
  /\ (exists rest, mName rd = String AT rest)
  /\ no_eol (list_ascii_of_string (mName rd)) = true
  /\ no_eol (list_ascii_of_string (mSeq rd)) = true
  /\ no_eol (list_ascii_of_string (mStrand rd)) = true
  /\ no_eol (list_ascii_of_string (mQuality rd)) = true
  /\ String.length (mQuality rd) = String.length (mSeq rd)
  /\ mHasPhred64 rd = mPhred64 r.
Proof.
  intros Hc H. unfold read in H.
  destruct (mZipped r && mZipFileNull r); [discriminate H |].
  destruct ((mBufUsedLen r >=? mBufDataLen r) && eof r); [discriminate H |].
  destruct (getLine_total wild r Hc) as (name0 & r1 & Hg1 & Hc1 & Hs1 & Hn1).
  rewrite Hg1 in H.
  destruct (skip_to_name wild fuel name0 r1) as [name r2 | | |] eqn:Hskip;
    try discriminate H.
  destruct (skip_to_name_inv wild fuel name0 r1 name r2 Hc1 Hn1 Hskip)
    as (Hc2 & Hs2 & Hn2 & Hat).
  destruct (empty name) eqn:Hne; [discriminate H |].
  destruct Hat as [Hat | Hat]; [discriminate Hat |].
  assert (Hname : exists rest, name = String AT rest).
  { destruct name as [| c rest]; [discriminate Hne |].
    cbn [first_is_not_at] in Hat. apply negb_false_iff in Hat.
    apply Ascii.eqb_eq in Hat. subst c. exists rest. reflexivity. }
  destruct (getLine_total wild r2 Hc2) as (sequence & r3 & Hg3 & Hc3 & Hs3 & Hn3).
  rewrite Hg3 in H.
  destruct (getLine_total wild r3 Hc3) as (strand & r4 & Hg4 & Hc4 & Hs4 & Hn4).
  rewrite Hg4 in H.
  pose proof (same_setup_trans _ _ _ Hs1 (same_setup_trans _ _ _ Hs2
               (same_setup_trans _ _ _ Hs3 Hs4))) as Hs14.
  destruct (negb (mHasQuality r4)).
  - injection H as <- <-. cbn [mName mSeq mStrand mQuality mHasPhred64].
    split; [exact Hc4 |]. split; [exact Hname |].
    split; [exact Hn2 |]. split; [exact Hn3 |]. split; [exact Hn4 |].
    rewrite list_ascii_of_string_of_list_ascii, length_string_of_list_ascii, repeat_length.
    split; [| split; [reflexivity |]].
    + unfold no_eol. apply forallb_forall. intros x Hx.
      apply repeat_spec in Hx. subst x. reflexivity.
    + destruct Hs14 as (_ & _ & _ & _ & E & _). exact E.
  - destruct (getLine_total wild r4 Hc4) as (quality & r5 & Hg5 & Hc5 & Hs5 & Hn5).
    rewrite Hg5 in H.
    destruct (negb (String.length quality =? String.length sequence)%nat) eqn:Hlen;
      [discriminate H |].
    injection H as <- <-. cbn [mName mSeq mStrand mQuality mHasPhred64].
    split; [exact Hc5 |]. split; [exact Hname |].
    split; [exact Hn2 |]. split; [exact Hn3 |]. split; [exact Hn4 |].
    split; [exact Hn5 |].
    split.
    + apply negb_false_iff in Hlen. apply Nat.eqb_eq in Hlen. exact Hlen.
    + pose proof (same_setup_trans _ _ _ Hs14 Hs5) as (_ & _ & _ & _ & E & _). exact E.
Qed.

Lemma read_result_invariant_witness :
  let r := {| mFilename := "r.fq"; mFile := []; mFileEof := true;
              mFileBroken := false; mZipFileNull := true; mZipped := false;
              mPhred64 := true; mHasQuality := true;
              mBuf := bytes "junk" ++ [CR; LF] ++ bytes "@r1" ++ [CR; LF] ++ bytes "ACGT"
                      ++ [CR; LF] ++ bytes "+" ++ [CR; LF] ++ bytes "IIII";
              mBufDataLen := 24; mBufUsedLen := 0;
              mHasNoLineBreakAtEnd := true; cerr := [] |} in
  exists rd r',
    read zeros 3 r = Ok (Some rd) r'
    /\ consistent r'
    /\ (exists rest, mName rd = String AT rest)
    /\ no_eol (list_ascii_of_string (mName rd)) = true
    /\ no_eol (list_ascii_of_string (mSeq rd)) = true
    /\ no_eol (list_ascii_of_string (mStrand rd)) = true
    /\ no_eol (list_ascii_of_string (mQuality rd)) = true
    /\ String.length (mQuality rd) = String.length (mSeq rd)
    /\ mHasPhred64 rd = mPhred64 r.
Proof.
  intros r.
  assert (Hc : consistent r).
  { unfold consistent. cbn [r mBufUsedLen mBufDataLen mBuf mFile mFileEof mZipped
                             mFileBroken mZipFileNull].
    rewrite FQ_BUF_SIZE_value.
    repeat split; intros; try lia; try reflexivity; try (cbn; lia). }
  destruct (read zeros 3 r) as [[rd |] r' | | |] eqn:H.
  - exists rd, r'. split; [reflexivity |].
    exact (read_result_invariant zeros 3 r r' rd Hc H).
  - vm_compute in H. discriminate H.
  - vm_compute in H. discriminate H.
  - vm_compute in H. discriminate H.
  - vm_compute in H. discriminate H.
Defined.

End ReadFacts.

Module PairStreamFacts.

Import FastqReader ReaderAux ReaderFacts LineFacts ReadFacts.

#[local] Opaque FQ_BUF_SIZE.

(** *** [FastqReaderPair::read] over two streams *)

Lemma records_hd (tm : Terminator) (recs : list FastqRecord) :
  forallb readable recs = true ->
  hd NUL (concat (map (render tm) recs)) <> LF.
Proof.
  intros H. destruct recs as [| a recs]; [discriminate |].
  cbn [forallb] in H. apply andb_true_iff in H. destruct H as [Ha _].
  destruct (readable_fields a Ha) as (_ & Hat & _).
  cbn [map concat]. unfold render, record_lines.
  rewrite RecordFacts.render_lines_cons, <- !app_assoc.
  apply starts_with_hd with (c := AT); [exact Hat | discriminate].
Qed.

(** [read] on a stream of records returns, with a record or without. *)
Lemma read_some_or_none (wild : mem) (fuel : nat) (tm : Terminator)
    (recs : list FastqRecord) (r : t) :
  tm <> TermCRLF -> consistent r -> mHasQuality r = true ->
  unread r = concat (map (render tm) recs) -> forallb readable recs = true ->
  exists x r', read wild fuel r = Ok x r'.
Proof.
  intros Htm Hc Hq Hun Hrecs. destruct recs as [| a recs].
  - destruct (read_at_end wild fuel r Hc Hun) as (r' & H & _).
    do 2 eexists. exact H.
  - cbn [forallb] in Hrecs. apply andb_true_iff in Hrecs. destruct Hrecs as [Ha Hrecs].
    destruct (read_record wild fuel tm a _ r Htm Hc Hq Hun Ha
                (records_hd tm recs Hrecs)) as (r' & H & _).
    do 2 eexists. exact H.
Qed.

(** X10.  Two files read side by side.  On two streams of well-formed
    records, lines ended by ["\n"] or ["\r"], the calls of
    [FastqReaderPair::read] return the records pair by pair, as many pairs
    as the shorter file has records, and then "no pair". *)
Theorem reads_pairs_the_records (wild : mem) (fuel : nat) (tmL tmR : Terminator) :
  forall (recsL recsR : list FastqRecord) (rl rr : t),
    tmL <> TermCRLF -> tmR <> TermCRLF ->
    consistent rl -> consistent rr ->
    mHasQuality rl = true -> mHasQuality rr = true ->
    unread rl = concat (map (render tmL) recsL) ->
    unread rr = concat (map (render tmR) recsR) ->
    forallb readable recsL = true -> forallb readable recsR = true ->
    exists p',
      FastqReaderPair.reads wild (S (Nat.min (length recsL) (length recsR))) fuel
        {| FastqReaderPair.mLeft := rl; FastqReaderPair.mRight := Some rr;
           FastqReaderPair.mInterleaved := false |}
      = (map Some (zip_pairs recsL recsR (mPhred64 rl) (mPhred64 rr)) ++ [None], Ok tt p').
Proof.
  induction recsL as [| a recsL IH];
    intros recsR rl rr HtL HtR Hcl Hcr Hql Hqr Hul Hur HL HR.
  - destruct (read_at_end wild fuel rl Hcl Hul) as (rl' & Hl & _).
    destruct (read_some_or_none wild fuel tmR recsR rr HtR Hcr Hqr Hur HR) as (x & rr' & Hr).
    cbn [length Nat.min FastqReaderPair.reads zip_pairs map app].
    unfold FastqReaderPair.read.
    cbn [FastqReaderPair.mLeft FastqReaderPair.mRight FastqReaderPair.mInterleaved].
    rewrite Hl, Hr. cbn [FastqReaderPair.pair_or_null].
    eexists. reflexivity.
  - cbn [forallb] in HL. apply andb_true_iff in HL. destruct HL as [Ha HL].
    cbn [map concat] in Hul.
    destruct (read_record wild fuel tmL a _ rl HtL Hcl Hql Hul Ha
                (records_hd tmL recsL HL)) as (rl' & Hl & Hcl' & Hsl & Hul').
    destruct recsR as [| b recsR].
    + destruct (read_at_end wild fuel rr Hcr Hur) as (rr' & Hr & _).
      cbn [length Nat.min FastqReaderPair.reads zip_pairs map app].
      unfold FastqReaderPair.read.
      cbn [FastqReaderPair.mLeft FastqReaderPair.mRight FastqReaderPair.mInterleaved].
      rewrite Hl, Hr. cbn [FastqReaderPair.pair_or_null].
      eexists. reflexivity.
    + cbn [forallb] in HR. apply andb_true_iff in HR. destruct HR as [Hb HR].
      cbn [map concat] in Hur.
      destruct (read_record wild fuel tmR b _ rr HtR Hcr Hqr Hur Hb
                  (records_hd tmR recsR HR)) as (rr' & Hr & Hcr' & Hsr & Hur').
      destruct Hsl as (_ & _ & _ & _ & Pl & Ql & _).
      destruct Hsr as (_ & _ & _ & _ & Pr & Qr & _).
      destruct (IH recsR rl' rr' HtL HtR Hcl' Hcr') as (p' & Hrun); try assumption;
        try congruence.
      rewrite Pl, Pr in Hrun.
      exists p'.
      cbn [length Nat.min zip_pairs map app].
      change (FastqReaderPair.reads wild (S (S (Nat.min (length recsL) (length recsR)))) fuel ?p)
        with (match FastqReaderPair.read wild fuel p with
              | Ok x p0 =>
                  let (xs, final) :=
                    FastqReaderPair.reads wild (S (Nat.min (length recsL) (length recsR))) fuel p0
                  in (x :: xs, final)
              | Exit msg => ([], Exit msg)
              | Crash => ([], Crash)
              | Spin => ([], Spin)
              end).
      unfold FastqReaderPair.read.
      cbn [FastqReaderPair.mLeft FastqReaderPair.mRight FastqReaderPair.mInterleaved].
      rewrite Hl, Hr. cbn [FastqReaderPair.pair_or_null].
      rewrite Hrun. reflexivity.
Qed.

Lemma reads_pairs_the_records_witness :
  let a := {| rec_name := bytes "@a/1"; rec_sequence := bytes "ACGT";
              rec_strand := bytes "+"; rec_quality := bytes "IIII" |} in
  let b := {| rec_name := bytes "@a/2"; rec_sequence := bytes "GG";
              rec_strand := bytes "+"; rec_quality := bytes "@I" |} in
  let rl := {| mFilename := "l.fq"; mFile := []; mFileEof := true;
               mFileBroken := false; mZipFileNull := true; mZipped := false;
               mPhred64 := false; mHasQuality := true;
               mBuf := render TermLF a ++ render TermLF a;
               mBufDataLen := 34; mBufUsedLen := 0;
               mHasNoLineBreakAtEnd := false; cerr := [] |} in
  let rr := {| mFilename := "r.fq"; mFile := []; mFileEof := true;
               mFileBroken := false; mZipFileNull := true; mZipped := false;
               mPhred64 := false; mHasQuality := true;
               mBuf := render TermCR b;
               mBufDataLen := 13; mBufUsedLen := 0;
               mHasNoLineBreakAtEnd := true; cerr := [] |} in
  consistent rl /\ consistent rr
  /\ exists p',
       FastqReaderPair.reads zeros (S (Nat.min (length [a; a]) (length [b]))) 0
         {| FastqReaderPair.mLeft := rl; FastqReaderPair.mRight := Some rr;
            FastqReaderPair.mInterleaved := false |}
       = (map Some (zip_pairs [a; a] [b] (mPhred64 rl) (mPhred64 rr)) ++ [None], Ok tt p').
Proof.
  intros a b rl rr.
  assert (Hcl : consistent rl).
  { unfold consistent. cbn [rl mBufUsedLen mBufDataLen mBuf mFile mFileEof mZipped
                             mFileBroken mZipFileNull].
    rewrite FQ_BUF_SIZE_value.
    repeat split; intros; try lia; try reflexivity; try (cbn; lia). }
  assert (Hcr : consistent rr).
  { unfold consistent. cbn [rr mBufUsedLen mBufDataLen mBuf mFile mFileEof mZipped
                             mFileBroken mZipFileNull].
    rewrite FQ_BUF_SIZE_value.
    repeat split; intros; try lia; try reflexivity; try (cbn; lia). }
  split; [exact Hcl |]. split; [exact Hcr |].
  apply (reads_pairs_the_records zeros 0 TermLF TermCR [a; a] [b] rl rr);
    [discriminate | discriminate | exact Hcl | exact Hcr
     | reflexivity | reflexivity | reflexivity | reflexivity | reflexivity | reflexivity].
Defined.





End PairStreamFacts.

Module SetupFacts.

Import FastqReader ReaderAux ReaderFacts LineFacts.

#[local] Opaque FQ_BUF_SIZE.

(** *** The constructor *)

(** X12.  The constructor on a file that can be opened and decoded leaves a
    consistent reader in front of the whole file, with the options it was
    given.  [hasNoLineBreakAtEnd] then tells, for a file shorter than the
    buffer, whether its last byte is no ['\n'] (a final ['\r'] counts as no
    line break); for an empty file the byte looked at is the one in front
    of the buffer. *)
Theorem new_opens_the_file (wild : mem) (filename : string) (file : list ascii)
    (broken hasQuality phred64 : bool) :
  ends_with filename ".gz" && broken = false ->
  exists r,
    new wild filename (Some file) broken hasQuality phred64 = Ok tt r
    /\ consistent r /\ unread r = file
    /\ mHasQuality r = hasQuality /\ mPhred64 r = phred64
    /\ isZipped r = ends_with filename ".gz"
    /\ (Z.of_nat (length file) < FQ_BUF_SIZE ->
        hasNoLineBreakAtEnd r
        = negb (ptr wild file (Z.of_nat (length file) - 1) =? LF)%char)
    /\ (FQ_BUF_SIZE <= Z.of_nat (length file) -> hasNoLineBreakAtEnd r = false).
Proof.
  intros Hz.
  destruct (new_consistent wild filename file broken hasQuality phred64 Hz)
    as (r & Hnew & Hc & Hu & Hq & Hp & _).
  exists r. split; [exact Hnew |]. split; [exact Hc |]. split; [exact Hu |].
  split; [exact Hq |]. split; [exact Hp |].
  unfold new in Hnew. cbv beta iota zeta in Hnew.
  unfold readToBuf in Hnew. cbn [mZipped mFileBroken] in Hnew. rewrite Hz in Hnew.
  injection Hnew as <-.
  unfold isZipped, hasNoLineBreakAtEnd.
  cbn [mZipped mHasNoLineBreakAtEnd mBuf mFile].
  split; [reflexivity |].
  rewrite StreamFacts.store_0, skipn_nil, app_nil_r, length_firstn.
  split; intros Hlen.
  - replace (Nat.min (Z.to_nat FQ_BUF_SIZE) (length file)) with (length file) by lia.
    replace (Z.of_nat (length file) <? FQ_BUF_SIZE) with true
      by (symmetry; apply Z.ltb_lt; lia).
    rewrite firstn_all2 by lia.
    destruct (ptr wild file (Z.of_nat (length file) - 1) =? LF)%char; reflexivity.
  - replace (Z.of_nat (Nat.min (Z.to_nat FQ_BUF_SIZE) (length file)) <? FQ_BUF_SIZE)
      with false by (symmetry; apply Z.ltb_ge; lia).
    reflexivity.
Qed.

Lemma new_opens_the_file_witness :
  (exists r,
      new zeros "reads.fq" (Some (bytes "@r" ++ [LF] ++ bytes "A" ++ [CR])) false true false
      = Ok tt r
      /\ consistent r /\ unread r = bytes "@r" ++ [LF] ++ bytes "A" ++ [CR]
      /\ mHasQuality r = true /\ mPhred64 r = false
      /\ isZipped r = ends_with "reads.fq" ".gz"
      /\ (Z.of_nat (length (bytes "@r" ++ [LF] ++ bytes "A" ++ [CR])) < FQ_BUF_SIZE ->
          hasNoLineBreakAtEnd r
          = negb (ptr zeros (bytes "@r" ++ [LF] ++ bytes "A" ++ [CR])
                    (Z.of_nat (length (bytes "@r" ++ [LF] ++ bytes "A" ++ [CR])) - 1) =? LF)%char)
      /\ (FQ_BUF_SIZE <= Z.of_nat (length (bytes "@r" ++ [LF] ++ bytes "A" ++ [CR])) ->
          hasNoLineBreakAtEnd r = false)).
Proof.
  exact (new_opens_the_file zeros "reads.fq" (bytes "@r" ++ [LF] ++ bytes "A" ++ [CR])
           false true false eq_refl).
Defined.

(** *** File names *)

Lemma string_length_append (a b : string) :
  String.length (a ++ b) = (String.length a + String.length b)%nat.
Proof.
  induction a as [| c a IH]; [reflexivity |].
  cbn [String.append String.length]. rewrite IH. reflexivity.
Qed.

Lemma substring_whole (s : string) : substring 0 (String.length s) s = s.
Proof.
  induction s as [| c s IH]; [reflexivity |].
  cbn [String.length substring]. rewrite IH. reflexivity.
Qed.

Lemma substring_skip (pre suf : string) :
  substring (String.length pre) (String.length suf) (pre ++ suf) = suf.
Proof.
  induction pre as [| c pre IH]; [apply substring_whole |].
  cbn [String.length String.append substring]. exact IH.
Qed.

Lemma substring_split (s : string) :
  forall k, (k <= String.length s)%nat ->
  s = (substring 0 k s ++ substring k (String.length s - k) s)%string.
Proof.
  induction s as [| c s IH]; intros k Hk.
  - cbn [String.length] in Hk. replace k with O by lia. reflexivity.
  - destruct k as [| k].
    + cbn [substring String.append String.length Nat.sub].
      rewrite substring_whole. reflexivity.
    + cbn [String.length] in Hk. cbn [substring String.append String.length Nat.sub].
      f_equal. apply IH. lia.
Qed.

Lemma ends_with_app (pre suf : string) : ends_with (pre ++ suf) suf = true.
Proof.
  unfold ends_with. rewrite string_length_append.
  replace (String.length pre + String.length suf - String.length suf)%nat
    with (String.length pre) by lia.
  rewrite substring_skip, String.eqb_refl.
  replace (String.length suf <=? String.length pre + String.length suf)%nat with true
    by (symmetry; apply Nat.leb_le; lia).
  reflexivity.
Qed.

Lemma ends_with_inv (s suf : string) :
  ends_with s suf = true -> exists pre, s = (pre ++ suf)%string.
Proof.
  unfold ends_with. intros H. apply andb_true_iff in H. destruct H as [Hle Heq].
  apply Nat.leb_le in Hle. apply String.eqb_eq in Heq.
  exists (substring 0 (String.length s - String.length suf) s).
  rewrite (substring_split s (String.length s - String.length suf)) at 1 by lia.
  f_equal.
  replace (String.length s - (String.length s - String.length suf))%nat
    with (String.length suf) by lia.
  exact Heq.
Qed.

Lemma list_ascii_of_string_app (a b : string) :
  list_ascii_of_string (a ++ b) = list_ascii_of_string a ++ list_ascii_of_string b.
Proof.
  induction a as [| c a IH]; [reflexivity |].
  cbn [String.append list_ascii_of_string app]. rewrite IH. reflexivity.
Qed.

(** The last byte of a name that ends with [suf ++ [c]] is [c]. *)
Lemma ends_with_last (s suf : string) (c : ascii) :
  ends_with s (suf ++ String c EmptyString) = true ->
  last (list_ascii_of_string s) NUL = c.
Proof.
  intros H. apply ends_with_inv in H. destruct H as [pre ->].
  rewrite !list_ascii_of_string_app. cbn [list_ascii_of_string].
  rewrite app_assoc. apply last_last.
Qed.

(** X13.  The two tests of a file name and the mode the constructor opens
    the file in agree: a name [isZipFastq] accepts ends with [".gz"], so the
    reader is opened through [gzopen]; a name [isFastq] accepts does not,
    so it is opened as a plain file; and no name passes both tests. *)
Theorem name_tests_agree_with_mode (filename : string) :
  (isZipFastq filename = true -> ends_with filename ".gz" = true)
  /\ (isFastq filename = true -> ends_with filename ".gz" = false)
  /\ (isZipFastq filename = true -> isFastq filename = false).
Proof.
  assert (Hzip : isZipFastq filename = true -> ends_with filename ".gz" = true).
  { unfold isZipFastq. intros H.
    destruct (ends_with filename ".fastq.gz") eqn:E1.
    { apply ends_with_inv in E1. destruct E1 as [pre ->].
      change ".fastq.gz"%string with (".fastq" ++ ".gz")%string.
      rewrite <- LineFacts.append_assoc. apply ends_with_app. }
    destruct (ends_with filename ".fq.gz") eqn:E2.
    { apply ends_with_inv in E2. destruct E2 as [pre ->].
      change ".fq.gz"%string with (".fq" ++ ".gz")%string.
      rewrite <- LineFacts.append_assoc. apply ends_with_app. }
    destruct (ends_with filename ".fasta.gz") eqn:E3.
    { apply ends_with_inv in E3. destruct E3 as [pre ->].
      change ".fasta.gz"%string with (".fasta" ++ ".gz")%string.
      rewrite <- LineFacts.append_assoc. apply ends_with_app. }
    destruct (ends_with filename ".fa.gz") eqn:E4; [| discriminate H].
    apply ends_with_inv in E4. destruct E4 as [pre ->].
    change ".fa.gz"%string with (".fa" ++ ".gz")%string.
    rewrite <- LineFacts.append_assoc. apply ends_with_app. }
  assert (Hplain : isFastq filename = true -> ends_with filename ".gz" = false).
  { unfold isFastq. intros H.
    destruct (ends_with filename ".gz") eqn:Egz; [| reflexivity].
    pose proof (ends_with_last filename ".g" "z" Egz) as Hz.
    destruct (ends_with filename ".fastq") eqn:E1.
    { pose proof (ends_with_last filename ".fast" "q" E1) as Hq.
      rewrite Hz in Hq. discriminate Hq. }
    destruct (ends_with filename ".fq") eqn:E2.
    { pose proof (ends_with_last filename ".f" "q" E2) as Hq.
      rewrite Hz in Hq. discriminate Hq. }
    destruct (ends_with filename ".fasta") eqn:E3.
    { pose proof (ends_with_last filename ".fast" "a" E3) as Hq.
      rewrite Hz in Hq. discriminate Hq. }
    destruct (ends_with filename ".fa") eqn:E4; [| discriminate H].
    pose proof (ends_with_last filename ".f" "a" E4) as Hq.
    rewrite Hz in Hq. discriminate Hq. }
  split; [exact Hzip |]. split; [exact Hplain |].
  intros H. destruct (isFastq filename) eqn:E; [| reflexivity].
  rewrite (Hplain eq_refl) in Hzip. specialize (Hzip H). discriminate Hzip.
Qed.

Lemma name_tests_agree_with_mode_witness :
  ends_with "reads_1.fastq.gz" ".gz" = true
  /\ ends_with "reads_1.fq" ".gz" = false.
Proof.
  split.
  - apply (proj1 (name_tests_agree_with_mode "reads_1.fastq.gz")). reflexivity.
  - apply (proj1 (proj2 (name_tests_agree_with_mode "reads_1.fq"))). reflexivity.
Defined.

End SetupFacts.

Module ChunkFacts.

Import FastqChunkReaderPair Aux ReaderAux ScannerFacts SkipFacts.

(** *** [count_line] *)

Lemma count_lf_app (a b : list ascii) : count_lf (a ++ b) = count_lf a + count_lf b.
Proof. unfold count_lf. rewrite filter_app, length_app. lia. Qed.

Lemma count_lf_no_eol (l : list ascii) : no_eol l = true -> count_lf l = 0.
Proof.
  unfold count_lf, no_eol. induction l as [| c l IH]; intros H; [reflexivity |].
  cbn [forallb] in H. apply andb_true_iff in H. destruct H as [Hc Hl].
  apply negb_true_iff in Hc. unfold is_eol in Hc. apply orb_false_elim in Hc.
  destruct Hc as [Hc _]. cbn [filter]. rewrite Hc. apply IH. exact Hl.
Qed.

(** [count_line] over the bytes of a list that lies at the start of the
    buffer. *)
Lemma count_line_list (wild : mem) (l : list ascii) :
  forall post, count_line (ptr wild (l ++ post)) (Z.of_nat (length l)) = count_lf l.
Proof.
  induction l as [| x l IH] using rev_ind; intros post.
  - apply count_line_nonpos. cbn [length]. lia.
  - rewrite length_app. cbn [length].
    replace (Z.of_nat (length l + 1)) with (Z.of_nat (length l) + 1) by lia.
    rewrite count_line_succ by lia.
    rewrite <- app_assoc. rewrite IH.
    replace (Z.of_nat (length l)) with (Z.of_nat (length l) + 0) by lia.
    rewrite (ReaderFacts.ptr_app_right wild l ([x] ++ post) 0) by (cbn [length app]; lia).
    change (Z.to_nat 0) with O. cbn [app nth].
    rewrite count_lf_app. unfold count_lf. cbn [filter].
    destruct (x =? LF)%char; cbn [length]; lia.
Qed.

(** X14.  [count_line] counts lines: over text whose lines end with ["\n"]
    or ["\r\n"] it returns the number of lines, over text whose lines end
    with a lone ["\r"] it returns 0.  (The text is shorter than 2^31 bytes,
    the range of the loop counter.) *)
Theorem count_line_counts_lines (wild : mem) (tm : Terminator)
    (ls : list (list ascii)) (post : list ascii) :
  forallb no_eol ls = true ->
  Z.of_nat (length (render_lines tm ls)) < 2 ^ 31 ->
  count_line (ptr wild (render_lines tm ls ++ post)) (Z.of_nat (length (render_lines tm ls)))
  = match tm with TermCR => 0 | _ => Z.of_nat (length ls) end.
Proof.
  intros Hls _. rewrite count_line_list.
  induction ls as [| l ls IH].
  - destruct tm; reflexivity.
  - cbn [forallb] in Hls. apply andb_true_iff in Hls. destruct Hls as [Hl Hls].
    rewrite RecordFacts.render_lines_cons, !count_lf_app, (count_lf_no_eol l Hl), (IH Hls).
    destruct tm; cbn [term_bytes length]; unfold count_lf; cbn [filter length];
      change ((LF =? LF)%char) with true; change ((CR =? LF)%char) with false;
      cbn [filter length]; lia.
Qed.

Lemma count_line_counts_lines_witness :
  count_line (ptr zeros (render_lines TermCRLF [bytes "@r"; bytes "ACGT"; bytes "+"; bytes "IIII"]
                         ++ bytes "@next"))
    (Z.of_nat (length (render_lines TermCRLF [bytes "@r"; bytes "ACGT"; bytes "+"; bytes "IIII"])))
  = Z.of_nat (length [bytes "@r"; bytes "ACGT"; bytes "+"; bytes "IIII"]).
Proof.
  apply (count_line_counts_lines zeros TermCRLF
           [bytes "@r"; bytes "ACGT"; bytes "+"; bytes "IIII"] (bytes "@next"));
    [reflexivity | vm_compute; reflexivity].
Defined.

(** *** [SkipToEol] and [GetNextRecordPos] *)

(** Without a terminator byte in front of [size_] the loop runs to [size_]. *)
Lemma SkipToEol_loop_runs (k : nat) :
  forall (n : nat) (data_ : mem) (pos_ size_ : Z),
    (forall j, 0 <= j < Z.of_nat k -> is_eol (data_ (pos_ + j)) = false) ->
    size_ = pos_ + Z.of_nat k ->
    (k <= n)%nat ->
    fst (SkipToEol_loop n data_ pos_ size_) = size_.
Proof.
  induction k as [| k IH]; intros n data_ pos_ size_ Hpre Hsize Hn.
  - rewrite SkipToEol_loop_eq.
    replace (pos_ <? size_) with false by (symmetry; apply Z.ltb_ge; lia).
    rewrite andb_false_r. lia.
  - destruct n as [| n]; [lia |].
    assert (H0 : is_eol (data_ pos_) = false).
    { specialize (Hpre 0). replace (pos_ + 0) with pos_ in Hpre by lia. apply Hpre. lia. }
    apply is_eol_false in H0. destruct H0 as [HLF HCR].
    rewrite SkipToEol_loop_eq, HLF, HCR.
    replace (pos_ <? size_) with true by (symmetry; apply Z.ltb_lt; lia).
    cbn [negb andb].
    apply IH; [| lia | lia].
    intros j Hj. replace (pos_ + 1 + j) with (pos_ + (j + 1)) by lia. apply Hpre. lia.
Qed.

(** X15.  Where [SkipToEol] stops.  From [pos_], over [k] bytes that are no
    terminators: on the terminator byte that follows them in front of
    [size_], or on the ['\n'] behind it when that byte is a ['\r'] followed
    by a ['\n'], and then [usesCrlf] is set; at [size_] when the [k] bytes
    reach it, and [usesCrlf] is left as it was. *)
Theorem SkipToEol_stops (data_ : mem) (pos_ size_ : Z) (u : bool) (k : Z) :
  0 <= k ->
  (forall j, 0 <= j < k -> is_eol (data_ (pos_ + j)) = false) ->
  (pos_ + k < size_ -> is_eol (data_ (pos_ + k)) = true ->
   fst (SkipToEol data_ pos_ size_ u)
   = if (data_ (pos_ + k) =? CR)%char && (data_ (pos_ + k + 1) =? LF)%char
     then (pos_ + k + 1, true) else (pos_ + k, u))
  /\ (pos_ + k = size_ -> fst (SkipToEol data_ pos_ size_ u) = (size_, u)).
Proof.
  intros Hk Hpre. split.
  - intros Hsize Hstop. rewrite SkipToEol_eq. cbv zeta.
    rewrite (SkipToEol_loop_stops (Z.to_nat k)).
    + replace (pos_ + Z.of_nat (Z.to_nat k)) with (pos_ + k) by lia.
      replace (pos_ + k <? size_) with true by (symmetry; apply Z.ltb_lt; lia).
      rewrite andb_true_r. reflexivity.
    + intros j Hj. apply Hpre. lia.
    + replace (pos_ + Z.of_nat (Z.to_nat k)) with (pos_ + k) by lia. exact Hstop.
    + lia.
    + lia.
  - intros Hsize. rewrite SkipToEol_eq. cbv zeta.
    rewrite (SkipToEol_loop_runs (Z.to_nat k)).
    + rewrite Z.ltb_irrefl, andb_false_r. reflexivity.
    + intros j Hj. apply Hpre. lia.
    + lia.
    + lia.
Qed.

Lemma SkipToEol_stops_witness :
  fst (SkipToEol (ptr zeros (bytes "ACGT" ++ [CR; LF] ++ bytes "+")) 1 7 false)
  = (if (ptr zeros (bytes "ACGT" ++ [CR; LF] ++ bytes "+") (1 + 3) =? CR)%char
        && (ptr zeros (bytes "ACGT" ++ [CR; LF] ++ bytes "+") (1 + 3 + 1) =? LF)%char
     then (1 + 3 + 1, true) else (1 + 3, false)).
Proof.
  apply (SkipToEol_stops (ptr zeros (bytes "ACGT" ++ [CR; LF] ++ bytes "+")) 1 7 false 3).
  - lia.
  - intros j Hj.
    assert (Hc : j = 0 \/ j = 1 \/ j = 2) by lia.
    destruct Hc as [-> | [-> | ->]]; reflexivity.
  - lia.
  - reflexivity.
Defined.

(** The scan never moves backwards and never goes past [size_], unless it
    started there. *)
Lemma SkipToEol_loop_range (n : nat) :
  forall (data_ : mem) (pos_ size_ : Z),
    pos_ <= fst (SkipToEol_loop n data_ pos_ size_) <= Z.max pos_ size_.
Proof.
  induction n as [| n IH]; intros data_ pos_ size_; rewrite SkipToEol_loop_eq.
  - destruct (negb (data_ pos_ =? LF)%char && negb (data_ pos_ =? CR)%char
              && (pos_ <? size_)); lia.
  - destruct (negb (data_ pos_ =? LF)%char && negb (data_ pos_ =? CR)%char
              && (pos_ <? size_)) eqn:Hc; [| lia].
    apply andb_true_iff in Hc. destruct Hc as [_ Hc]. apply Z.ltb_lt in Hc.
    specialize (IH data_ (pos_ + 1) size_). lia.
Qed.

Lemma SkipToEol_range (data_ : mem) (pos_ size_ : Z) (u : bool) :
  pos_ <= fst (fst (SkipToEol data_ pos_ size_ u)) <= Z.max pos_ size_.
Proof.
  rewrite SkipToEol_eq. cbv zeta.
  pose proof (SkipToEol_loop_range (Z.to_nat (size_ - pos_)) data_ pos_ size_) as Hr.
  match goal with |- context [if ?c then _ else _] => destruct c eqn:Hc end; cbn [fst].
  - apply andb_true_iff in Hc. destruct Hc as [Hc _].
    apply andb_true_iff in Hc. destruct Hc as [_ Hc]. apply Z.ltb_lt in Hc. lia.
  - exact Hr.
Qed.

(** The search for ['@'] ends on a ['@'], further on. *)
Lemma find_at_lands (fuel : nat) :
  forall (data_ : mem) (pos_ size_ : Z) (u : bool) (q : Z) (u' : bool),
    0 <= pos_ -> Z.max pos_ size_ + Z.of_nat fuel < 2 ^ 64 ->
    fst (find_at fuel data_ pos_ size_ u) = Some (q, u') ->
    data_ q = AT /\ pos_ <= q <= Z.max pos_ size_ + Z.of_nat fuel.
Proof.
  induction fuel as [| fuel IH]; intros data_ pos_ size_ u q u' Hpos Hmax H;
    rewrite find_at_eq in H;
    destruct (data_ pos_ =? AT)%char eqn:Hat; cbn [negb] in H; try discriminate H.
  1, 2: injection H as <- <-; apply Ascii.eqb_eq in Hat; split; [exact Hat | lia].
  pose proof (SkipToEol_range data_ pos_ size_ u) as Hr.
  rewrite u64_small in H by lia.
  apply IH in H; [| lia | lia].
  destruct H as [Hq Hrange]. split; [exact Hq | lia].
Qed.

(** X16.  Whatever the buffer holds, a cut that [GetNextRecordPos] returns
    is the offset of a ['@'], it lies behind the offset the search started
    from, and a [usesCrlf] that was set stays set.  (The offsets stay in
    the range of [uint64].) *)
Theorem GetNextRecordPos_lands_on_at (fuel : nat) (data_ : mem) (pos_ size_ : Z)
    (u : bool) (c : Z) (u' : bool) :
  0 <= pos_ -> Z.max pos_ size_ + Z.of_nat fuel + 3 < 2 ^ 64 ->
  fst (GetNextRecordPos fuel data_ pos_ size_ u) = Some (c, u') ->
  data_ c = AT /\ pos_ < c /\ (u = true -> u' = true).
Proof.
  intros Hpos Hmax H.
  split; [| split; [| intros Hu; eapply GetNextRecordPos_latch; eassumption]].
  all: rewrite GetNextRecordPos_eq in H; cbv zeta in H.
  all: pose proof (SkipToEol_range data_ pos_ size_ u) as Hr0.
  all: rewrite u64_small in H by lia.
  all: destruct (fst (find_at fuel data_ _ size_ _)) as [[pos0 u0] |] eqn:Hf;
         [| discriminate H].
  all: apply find_at_lands in Hf; [| lia | lia].
  all: destruct Hf as [Hat0 Hrange0].
  all: unfold probe in H; cbv zeta in H.
  all: pose proof (SkipToEol_range data_ pos0 size_ u0) as Hr1.
  all: rewrite u64_small in H by lia.
  all: destruct (data_ (fst (fst (SkipToEol data_ pos0 size_ u0)) + 1) =? AT)%char eqn:Hat1;
         injection H as <- _.
  - apply Ascii.eqb_eq in Hat1. exact Hat1.
  - exact Hat0.
  - lia.
  - lia.
Qed.

Lemma GetNextRecordPos_lands_on_at_witness :
  let data_ := ptr zeros (bytes "II" ++ [LF] ++ bytes "@r2" ++ [LF] ++ bytes "AC" ++ [LF]
                          ++ bytes "+" ++ [LF] ++ bytes "II" ++ [LF]) in
  data_ 3 = AT /\ 0 < 3 /\ (false = true -> false = true).
Proof.
  intros data_.
  apply (GetNextRecordPos_lands_on_at 3 data_ 0 15 false 3 false);
    [lia | vm_compute; reflexivity | vm_compute; reflexivity].
Defined.

(** *** The re-synchronisation and the last round *)

(** X17.  Where the re-synchronisation does balance a pair: the two
    candidate cuts are line starts (the byte in front of each is a ['\n'],
    the byte at each is none).  Then the bytes in front of the two final
    cuts hold the same number of ['\n'], nothing is printed, and without
    [usesCrlf] the first [size] bytes of the two chunks hold the same
    number as well. *)
Theorem resync_balances_line_starts (wild : mem) (data : list ascii) (chunkEnd cbufSize : Z)
    (data_right : list ascii) (chunkEnd_right cbufSize_right : Z) (u : bool)
    (swapL swapR : list ascii) :
  1 <= chunkEnd -> 1 <= chunkEnd_right ->
  ptr wild data (chunkEnd - 1) = LF -> ptr wild data_right (chunkEnd_right - 1) = LF ->
  ptr wild data chunkEnd <> LF -> ptr wild data_right chunkEnd_right <> LF ->
  let y := resync wild data chunkEnd cbufSize data_right chunkEnd_right cbufSize_right
             u swapL swapR in
  count_line (ptr wild data) (y_chunkEnd y)
  = count_line (ptr wild data_right) (y_chunkEnd_right y)
  /\ y_out y = []
  /\ (u = false ->
      count_line (ptr wild data) (y_size_left y)
      = count_line (ptr wild data_right) (y_size_right y)).
Proof.
  intros H1 H2 H3 H4 H5 H6.
  exact (BalanceFacts.resync_balanced wild data chunkEnd cbufSize data_right chunkEnd_right
           cbufSize_right u swapL swapR H1 H2 H3 H4 H5 H6).
Qed.

Lemma resync_balances_line_starts_witness :
  let data := unlines TermLF ["@a"; "A"; "+"; "I"; "@a"; "A"; "+"; "I"; "@a"]%string in
  let data_right := unlines TermLF ["@b"; "ACGT"; "+"; "IIII"; "@b"]%string in
  let y := resync zeros data 18 21 data_right 15 18 false [] [] in
  count_line (ptr zeros data) (y_chunkEnd y)
  = count_line (ptr zeros data_right) (y_chunkEnd_right y)
  /\ y_out y = []
  /\ (false = false ->
      count_line (ptr zeros data) (y_size_left y)
      = count_line (ptr zeros data_right) (y_size_right y)).
Proof.
  intros data data_right.
  apply (resync_balances_line_starts zeros data 18 21 data_right 15 18 false [] []);
    [lia | lia | reflexivity | reflexivity | discriminate | discriminate].
Defined.

(** A refill that reads the rest of its file and does not fill the chunk. *)
Lemma refill_short (tmp : Z) (wild : mem) (fuel : nat) (short zero : message)
    (buf swap : list ascii) (b : Z) (src : list ascii) (u : bool) :
  0 <= b <= Z.of_nat (length swap) ->
  0 < Z.of_nat (length src) ->
  b + Z.of_nat (length src) < Z.of_nat (length buf) ->
  exists L,
    refill tmp wild fuel short zero buf swap b src u = Some L
    /\ r_eof L = true /\ r_abort L = false /\ r_rest L = [] /\ r_usesCrlf L = u
    /\ r_bufferSize L = 0
    /\ r_size L = u64 (b + Z.of_nat (length src) - (if u then 2 else 1))
    /\ firstn (Z.to_nat (b + Z.of_nat (length src))) (r_data L)
       = firstn (Z.to_nat b) swap ++ src.
Proof.
  intros Hb Hsrc Hroom.
  assert (Hgot : firstn (Z.to_nat (Z.of_nat (length buf) - b)) src = src)
    by (apply firstn_all2; lia).
  assert (Hsome : exists L, refill tmp wild fuel short zero buf swap b src u = Some L).
  { unfold refill, Read. cbv zeta. rewrite Hgot.
    destruct (b >? 0);
      (replace (Z.of_nat (length src) >? 0) with true by (symmetry; apply Z.gtb_lt; lia);
       replace (Z.of_nat (length src) =? Z.of_nat (length buf) - b) with false
         by (symmetry; apply Z.eqb_neq; lia);
       eexists; reflexivity). }
  destruct Hsome as [L HL]. exists L. split; [exact HL |].
  pose proof (StreamFacts.refill_stream tmp wild fuel short zero buf swap b src u L HL Hb
                ltac:(lia) Hsrc) as Hs.
  cbv zeta in Hs. rewrite Hgot in Hs.
  destruct Hs as (_ & Hdata & _ & _ & Hbs & Habort & [(_ & _ & Hfull) | Hshort]); [lia |].
  destruct Hshort as (He & Hsz & _ & Hu & Hrest & _).
  repeat split; try assumption.
  rewrite Hsz. unfold u64. destruct u.
  - rewrite Zminus_mod_idemp_l. f_equal. lia.
  - f_equal. lia.
Qed.

Lemma payload_of_short (data pending : list ascii) (n w : Z) :
  firstn (Z.to_nat n) data = pending -> Z.of_nat (length pending) = n -> 0 <= w ->
  firstn (Z.to_nat (n - w)) data
  = firstn (Z.to_nat (Z.of_nat (length pending) - w)) pending.
Proof.
  intros Hd Hn Hw. rewrite Hn, <- Hd, firstn_firstn. f_equal. lia.
Qed.

(** X18.  The last round.  When both files end in the same call (each
    delivers what it has left and less than its chunk holds) the call
    returns a pair and sets [eof].  Each [size] is the number of bytes that
    were carried over and left in the file, less one, less two when
    [usesCrlf] is set, as a [uint64]: with [usesCrlf] set and a single byte
    it is [2^64 - 1].  When there are that many bytes, the first [size]
    bytes of the chunk are those bytes without the last one (the last two),
    whatever these are. *)
Theorem last_round_leaves_out_last_byte (tmp : Z) (wild : mem) (fuel : nat) (s : t)
    (bufL bufR : list ascii) (restL restR : list (list ascii)) :
  eof s = false ->
  available (fastqPool_left s) = bufL :: restL ->
  available (fastqPool_right s) = bufR :: restR ->
  Z.of_nat (length bufL) < 2 ^ 64 -> Z.of_nat (length bufR) < 2 ^ 64 ->
  0 <= bufferSize_left s <= Z.of_nat (length (swapBuffer_left s)) ->
  0 <= bufferSize_right s <= Z.of_nat (length (swapBuffer_right s)) ->
  0 < Z.of_nat (length (mLeft s)) -> 0 < Z.of_nat (length (mRight s)) ->
  bufferSize_left s + Z.of_nat (length (mLeft s)) < Z.of_nat (length bufL) ->
  bufferSize_right s + Z.of_nat (length (mRight s)) < Z.of_nat (length bufR) ->
  exists p s',
    readNextChunkPair_interleaved tmp wild fuel s = Returned (Some p) s'
    /\ eof s' = true /\ usesCrlf s' = usesCrlf s
    /\ mLeft s' = [] /\ mRight s' = []
    /\ size (leftpart p) = u64 (Z.of_nat (length (pending_left s)) - width s)
    /\ size (rightpart p) = u64 (Z.of_nat (length (pending_right s)) - width s)
    /\ (width s <= Z.of_nat (length (pending_left s)) ->
        payload (leftpart p)
        = firstn (Z.to_nat (Z.of_nat (length (pending_left s)) - width s)) (pending_left s))
    /\ (width s <= Z.of_nat (length (pending_right s)) ->
        payload (rightpart p)
        = firstn (Z.to_nat (Z.of_nat (length (pending_right s)) - width s)) (pending_right s)).
Proof.
  intros Heof HaL HaR HcL HcR HbL HbR HsL HsR HrL HrR.
  destruct (refill_short tmp wild fuel Read1Short Read1Zero bufL (swapBuffer_left s)
              (bufferSize_left s) (mLeft s) (usesCrlf s) HbL HsL HrL)
    as (L & HL & HeL & HabL & HrestL & HuL & _ & HszL & HdL).
  destruct (refill_short tmp wild fuel Read2Short Read2Zero bufR (swapBuffer_right s)
              (bufferSize_right s) (mRight s) (usesCrlf s) HbR HsR HrR)
    as (R & HR & HeR & HabR & HrestR & HuR & _ & HszR & HdR).
  unfold readNextChunkPair_interleaved, Acquire.
  rewrite HaL, HaR, Heof, HL, HabL, HuL, HR, HabR. cbv zeta.
  rewrite HeL, HeR. cbn [andb negb].
  do 2 eexists. split; [reflexivity |].
  cbn [eof usesCrlf mLeft mRight leftpart rightpart].
  split; [reflexivity |]. split; [exact HuR |].
  split; [exact HrestL |]. split; [exact HrestR |].
  assert (HpL : Z.of_nat (length (pending_left s))
                = bufferSize_left s + Z.of_nat (length (mLeft s)))
    by (unfold pending_left; rewrite length_app, length_firstn; lia).
  assert (HpR : Z.of_nat (length (pending_right s))
                = bufferSize_right s + Z.of_nat (length (mRight s)))
    by (unfold pending_right; rewrite length_app, length_firstn; lia).
  unfold payload, width. cbn [data size].
  rewrite HszL, HszR.
  split; [rewrite HpL; reflexivity |]. split; [rewrite HpR; reflexivity |].
  split; intros Hw.
  - rewrite u64_small by (destruct (usesCrlf s); lia).
    apply payload_of_short; [exact HdL | exact HpL | destruct (usesCrlf s); lia].
  - rewrite u64_small by (destruct (usesCrlf s); lia).
    apply payload_of_short; [exact HdR | exact HpR | destruct (usesCrlf s); lia].
Qed.

Lemma last_round_leaves_out_last_byte_witness :
  let buf := repeat NUL 32 in
  let s := new 32 (bytes "@a" ++ [LF] ++ bytes "ACGT" ++ [LF] ++ bytes "+" ++ [LF] ++ bytes "IIII")
             (bytes "@b" ++ [LF] ++ bytes "AC" ++ [LF] ++ bytes "+" ++ [LF] ++ bytes "II" ++ [LF])
             false [buf] [buf] in
  exists p s',
    readNextChunkPair_interleaved 16 zeros 3 s = Returned (Some p) s'
    /\ eof s' = true /\ usesCrlf s' = usesCrlf s
    /\ mLeft s' = [] /\ mRight s' = []
    /\ size (leftpart p) = u64 (Z.of_nat (length (pending_left s)) - width s)
    /\ size (rightpart p) = u64 (Z.of_nat (length (pending_right s)) - width s)
    /\ (width s <= Z.of_nat (length (pending_left s)) ->
        payload (leftpart p)
        = firstn (Z.to_nat (Z.of_nat (length (pending_left s)) - width s)) (pending_left s))
    /\ (width s <= Z.of_nat (length (pending_right s)) ->
        payload (rightpart p)
        = firstn (Z.to_nat (Z.of_nat (length (pending_right s)) - width s)) (pending_right s)).
Proof.
  intros buf s.
  apply (last_round_leaves_out_last_byte 16 zeros 3 s buf buf [] []);
    try reflexivity; cbn; lia.
Defined.

End ChunkFacts.

Module CrlfStreamFacts.

Import FastqReader ReaderAux ReaderFacts LineFacts ReadFacts PairStreamFacts.

#[local] Opaque FQ_BUF_SIZE.

(** *** Lines that end with ["\r\n"] *)

(** The first branch of [getLine] on a ["\r\n"] that is followed by one more
    byte of the buffer: both bytes are consumed. *)
Lemma getLine_crlf_in_buffer (wild : mem) (r : t) (pre l rest1 post : list ascii) (y : ascii) :
  mBuf r = pre ++ (l ++ CR :: LF :: y :: rest1) ++ post ->
  mBufUsedLen r = Z.of_nat (length pre) ->
  mBufDataLen r = Z.of_nat (length pre + length (l ++ CR :: LF :: y :: rest1)) ->
  no_eol l = true ->
  getLine wild r
  = Ok (string_of_list_ascii l) (set_mBufUsedLen r (Z.of_nat (length pre + length l) + 2)).
Proof.
  intros Hbuf Hused Hdata Hn.
  rewrite length_app in Hdata. cbn [length] in Hdata.
  assert (Hscan : scan_line (Z.to_nat (mBufDataLen r - mBufUsedLen r)) (ptr wild (mBuf r))
                    (mBufUsedLen r) (mBufDataLen r)
                  = Z.of_nat (length pre) + Z.of_nat (length l)).
  { rewrite Hused. apply scan_line_stops.
    - intros j Hj. rewrite Hbuf, <- !app_assoc, ptr_middle by lia.
      apply no_eol_at; [exact Hn | lia].
    - rewrite Hbuf, <- !app_assoc, (app_assoc pre l).
      replace (Z.of_nat (length pre) + Z.of_nat (length l))
        with (Z.of_nat (length (pre ++ l)) + 0) by (rewrite length_app; lia).
      rewrite ptr_app_right by (cbn [length app]; lia). reflexivity.
    - lia.
    - lia. }
  unfold getLine. rewrite Hscan.
  replace (Z.of_nat (length pre) + Z.of_nat (length l) <? mBufDataLen r) with true
    by (symmetry; apply Z.ltb_lt; lia).
  cbn [orb].
  rewrite Hused.
  replace (Z.of_nat (length pre) + Z.of_nat (length l) - Z.of_nat (length pre))
    with (Z.of_nat (length l)) by lia.
  assert (Hline : substr (mBuf r) (Z.of_nat (length pre)) (Z.of_nat (length l))
                  = string_of_list_ascii l).
  { rewrite Hbuf, <- !app_assoc. apply substr_middle. }
  rewrite Hline.
  replace (Z.of_nat (length pre) + Z.of_nat (length l) + 1 <? mBufDataLen r - 1) with true
    by (symmetry; apply Z.ltb_lt; lia).
  assert (HCR : ptr wild (mBuf r) (Z.of_nat (length pre) + Z.of_nat (length l) + 1 - 1) = CR).
  { rewrite Hbuf, <- !app_assoc, (app_assoc pre l).
    replace (Z.of_nat (length pre) + Z.of_nat (length l) + 1 - 1)
      with (Z.of_nat (length (pre ++ l)) + 0) by (rewrite length_app; lia).
    rewrite ptr_app_right by (cbn [length app]; lia). reflexivity. }
  assert (HLF : ptr wild (mBuf r) (Z.of_nat (length pre) + Z.of_nat (length l) + 1) = LF).
  { rewrite Hbuf, <- !app_assoc, (app_assoc pre l).
    replace (Z.of_nat (length pre) + Z.of_nat (length l) + 1)
      with (Z.of_nat (length (pre ++ l)) + 1) by (rewrite length_app; lia).
    rewrite ptr_app_right by (cbn [length app]; lia). reflexivity. }
  rewrite HCR, HLF. cbn [andb Ascii.eqb]. rewrite !Ascii.eqb_refl. cbn [andb].
  f_equal. f_equal. lia.
Qed.

(** [getLine] on a line ended by ["\r\n"] that has one more byte of the
    buffer behind it. *)
Lemma getLine_crlf_in (wild : mem) (r : t) (l rest : list ascii) :
  consistent r -> unread r = l ++ CR :: LF :: rest -> no_eol l = true ->
  Z.of_nat (length l) + 2 < mBufDataLen r - mBufUsedLen r ->
  exists r',
    getLine wild r = Ok (string_of_list_ascii l) r'
    /\ consistent r' /\ same_setup r r' /\ unread r' = rest
    /\ mFileEof r' = mFileEof r.
Proof.
  intros Hc Hun Hl Hroom.
  pose proof Hc as (H1 & H2 & H3 & H4 & H5 & H6 & H7 & H8).
  destruct (buffer_split (mBuf r) (mBufUsedLen r) (mBufDataLen r)) as [HB Hpre]; [lia | lia |].
  pose proof (slice_length_inside (mBuf r) (mBufUsedLen r) (mBufDataLen r)
                ltac:(lia) ltac:(lia)) as Hav.
  unfold unread in Hun.
  set (pre := firstn (Z.to_nat (mBufUsedLen r)) (mBuf r)) in *.
  set (avail := slice (mBuf r) (mBufUsedLen r) (mBufDataLen r)) in *.
  set (post := skipn (Z.to_nat (mBufDataLen r)) (mBuf r)) in *.
  replace (l ++ CR :: LF :: rest) with ((l ++ [CR; LF]) ++ rest) in Hun
    by (rewrite <- app_assoc; reflexivity).
  destruct (app_cut_inside avail (mFile r) (l ++ [CR; LF]) rest Hun) as (y & rest1 & Ha & Hr).
  { rewrite length_app. cbn [length]. lia. }
  rewrite <- app_assoc in Ha. cbn [app] in Ha.
  rewrite Ha in HB.
  assert (Hlen : mBufDataLen r
                 = Z.of_nat (length pre) + Z.of_nat (length l) + 3 + Z.of_nat (length rest1)).
  { rewrite Ha, length_app in Hav. cbn [length] in Hav. lia. }
  rewrite (getLine_crlf_in_buffer wild r pre l rest1 post y HB ltac:(lia)
             ltac:(rewrite length_app; cbn [length]; lia) Hl).
  eexists. split; [reflexivity |].
  split; [apply consistent_used; [exact Hc | lia | lia] |].
  split; [apply same_setup_used |].
  split; [| reflexivity].
  unfold unread. cbn [set_mBufUsedLen mBuf mBufUsedLen mBufDataLen mFile].
  rewrite Hr. change (y :: rest1 ++ mFile r) with ((y :: rest1) ++ mFile r). f_equal.
  rewrite HB.
  replace (pre ++ (l ++ CR :: LF :: y :: rest1) ++ post)
    with ((pre ++ l ++ [CR; LF]) ++ (y :: rest1) ++ post)
    by (rewrite <- !app_assoc; reflexivity).
  replace (Z.of_nat (length pre + length l) + 2)
    with (Z.of_nat (length (pre ++ l ++ [CR; LF])))
    by (rewrite !length_app; cbn [length]; lia).
  replace (mBufDataLen r)
    with (Z.of_nat (length (pre ++ l ++ [CR; LF]) + length (y :: rest1)))
    by (rewrite Hlen, !length_app; cbn [length]; lia).
  apply slice_middle.
Qed.

(** X19.  A ["\r\n"] that is followed by one more byte of the buffer is
    consumed as one terminator: the line in front of it is returned and the
    stream goes on behind the ['\n']. *)
Theorem getLine_crlf_inside (wild : mem) (r : t) (l rest : list ascii) :
  consistent r -> unread r = l ++ CR :: LF :: rest -> no_eol l = true ->
  Z.of_nat (length l) + 2 < mBufDataLen r - mBufUsedLen r ->
  exists r',
    getLine wild r = Ok (string_of_list_ascii l) r'
    /\ consistent r' /\ same_setup r r' /\ unread r' = rest
    /\ mFileEof r' = mFileEof r.
Proof.
  intros Hc Hun Hl Hroom.
  exact (getLine_crlf_in wild r l rest Hc Hun Hl Hroom).
Qed.

Lemma getLine_crlf_inside_witness :
  let r := {| mFilename := "r.fq"; mFile := []; mFileEof := true;
              mFileBroken := false; mZipFileNull := true; mZipped := false;
              mPhred64 := false; mHasQuality := true;
              mBuf := bytes "@r" ++ [CR; LF] ++ bytes "ACGT" ++ [CR; LF];
              mBufDataLen := 10; mBufUsedLen := 0;
              mHasNoLineBreakAtEnd := false; cerr := [] |} in
  consistent r
  /\ exists r',
       getLine zeros r = Ok (string_of_list_ascii (bytes "@r")) r'
       /\ consistent r' /\ same_setup r r'
       /\ unread r' = bytes "ACGT" ++ [CR; LF]
       /\ mFileEof r' = mFileEof r.
Proof.
  intros r.
  assert (Hc : consistent r).
  { unfold consistent. cbn [r mBufUsedLen mBufDataLen mBuf mFile mFileEof mZipped
                             mFileBroken mZipFileNull].
    rewrite FQ_BUF_SIZE_value.
    repeat split; intros; try lia; try reflexivity; try (cbn; lia). }
  split; [exact Hc |].
  apply (getLine_crlf_inside zeros r (bytes "@r") (bytes "ACGT" ++ [CR; LF]) Hc);
    [reflexivity | reflexivity | cbn; lia].
Defined.

(** The end-of-file indicator, once up, stays up. *)
Lemma readToBuf_keeps_eof (wild : mem) (r r1 : t) :
  readToBuf wild r = Ok tt r1 -> mFileEof r = true -> mFileEof r1 = true.
Proof.
  unfold readToBuf. destruct (mZipped r && mFileBroken r); [discriminate |].
  intros H He. injection H as <-. cbn [mFileEof]. rewrite He. reflexivity.
Qed.

Lemma getLine_refill_keeps_eof (wild : mem) (n : nat) :
  forall (r : t) (str line : string) (r' : t),
    getLine_refill wild n r str = Ok line r' -> mFileEof r = true -> mFileEof r' = true.
Proof.
  induction n as [| n IH]; intros r str line r' H He; rewrite getLine_refill_eq in H.
  all: destruct (readToBuf wild r) as [[] r1 | | |] eqn:Hread; try discriminate H.
  all: pose proof (readToBuf_keeps_eof wild r r1 Hread He) as He1.
  all: cbv zeta in H.
  all: match type of H with (if ?c then _ else _) = _ => destruct c end.
  all: try discriminate H.
  1, 2: injection H as _ <-; exact He1.
  eapply IH; eassumption.
Qed.

Lemma getLine_keeps_eof (wild : mem) (r : t) (line : string) (r' : t) :
  getLine wild r = Ok line r' -> mFileEof r = true -> mFileEof r' = true.
Proof.
  unfold getLine. intros H He.
  match type of H with (if ?c then _ else _) = _ => destruct c end.
  - injection H as _ <-. exact He.
  - eapply getLine_refill_keeps_eof; eassumption.
Qed.

Lemma unread_nil_used (r : t) :
  consistent r -> unread r = [] -> mBufDataLen r <= mBufUsedLen r.
Proof.
  intros (H1 & H2 & H3 & _) Hun. unfold unread in Hun.
  apply app_eq_nil in Hun. destruct Hun as [Hs _].
  destruct (Z_le_gt_dec (mBufDataLen r) (mBufUsedLen r)) as [Hle | Hgt]; [exact Hle |].
  pose proof (slice_length_inside (mBuf r) (mBufUsedLen r) (mBufDataLen r)
                ltac:(lia) ltac:(lia)) as Hlen.
  rewrite Hs in Hlen. cbn [length] in Hlen. lia.
Qed.

(** In the last buffer a ["\r\n"] that is followed by something is one
    terminator. *)
Lemma getLine_crlf_small (wild : mem) (r : t) (l rest : list ascii) :
  consistent r -> mFileEof r = true ->
  unread r = l ++ CR :: LF :: rest -> rest <> [] -> no_eol l = true ->
  exists r',
    getLine wild r = Ok (string_of_list_ascii l) r'
    /\ consistent r' /\ same_setup r r' /\ unread r' = rest /\ mFileEof r' = true.
Proof.
  intros Hc He Hun Hrest Hl.
  pose proof Hc as (H1 & H2 & H3 & H4 & H5 & H6 & H7 & H8).
  assert (Hroom : Z.of_nat (length l) + 2 < mBufDataLen r - mBufUsedLen r).
  { pose proof Hun as Hun'. unfold unread in Hun'. rewrite (H5 He), app_nil_r in Hun'.
    destruct (Z_le_gt_dec (mBufUsedLen r) (mBufDataLen r)) as [Hle | Hgt].
    - pose proof (slice_length_inside (mBuf r) (mBufUsedLen r) (mBufDataLen r)
                    ltac:(lia) ltac:(lia)) as Hlen.
      rewrite Hun', length_app in Hlen. cbn [length] in Hlen.
      destruct rest; [congruence | cbn [length] in Hlen; lia].
    - rewrite slice_empty in Hun' by lia. destruct l; discriminate Hun'. }
  destruct (getLine_crlf_in wild r l rest Hc Hun Hl Hroom)
    as (r' & Hg & Hc' & Hs' & Hu' & He').
  exists r'. split; [exact Hg |]. split; [exact Hc' |]. split; [exact Hs' |].
  split; [exact Hu' | rewrite He'; exact He].
Qed.

Lemma starts_with_nonempty (c : ascii) (l rest : list ascii) :
  starts_with c l = true -> l ++ rest <> [].
Proof. destruct l; [discriminate | discriminate]. Qed.

(** A record whose lines end with ["\r\n"], in the last buffer. *)
Lemma read_crlf_record (wild : mem) (fuel : nat) (rec : FastqRecord) (more : list ascii)
    (r : t) :
  consistent r -> mFileEof r = true -> mHasQuality r = true ->
  unread r = render TermCRLF rec ++ more ->
  readable rec = true ->
  exists r',
    read wild fuel r = Ok (Some (as_Read rec (mPhred64 r))) r'
    /\ consistent r' /\ same_setup r r' /\ mFileEof r' = true
    /\ (unread r' = more \/ (more = [] /\ (unread r' = [LF] \/ unread r' = []))).
Proof.
  intros Hc He Hq Hun Hrec.
  destruct (readable_fields rec Hrec) as (Hn1 & Hat & Hseq & Hn3 & Hplus & Hn4 & Hlen).
  assert (Hn2 : no_eol (rec_sequence rec) = true)
    by (unfold text_line in Hseq; apply andb_true_iff in Hseq; apply Hseq).
  assert (Hseq_ne : forall x, rec_sequence rec ++ x <> []).
  { intros x. unfold text_line in Hseq. apply andb_true_iff in Hseq. destruct Hseq as [_ Hs].
    destruct (rec_sequence rec); [discriminate Hs | discriminate]. }
  assert (Hqual_ne : forall x, rec_quality rec ++ x <> []).
  { intros x. specialize (Hseq_ne []). rewrite app_nil_r in Hseq_ne.
    destruct (rec_quality rec); [| discriminate].
    destruct (rec_sequence rec); [congruence | discriminate Hlen]. }
  unfold render, record_lines in Hun.
  rewrite !RecordFacts.render_lines_cons, <- !app_assoc in Hun.
  change (render_lines TermCRLF [] ++ more) with more in Hun.
  cbn [term_bytes app] in Hun.
  destruct (getLine_crlf_small wild r _ _ Hc He Hun (Hseq_ne _) Hn1)
    as (r1 & Hg1 & Hc1 & Hs1 & Hu1 & He1).
  destruct (getLine_crlf_small wild r1 _ _ Hc1 He1 Hu1
              (starts_with_nonempty PLUS _ _ Hplus) Hn2)
    as (r2 & Hg2 & Hc2 & Hs2 & Hu2 & He2).
  destruct (getLine_crlf_small wild r2 _ _ Hc2 He2 Hu2 (Hqual_ne _) Hn3)
    as (r3 & Hg3 & Hc3 & Hs3 & Hu3 & He3).
  assert (Hlast : exists r4,
            getLine wild r3 = Ok (string_of_list_ascii (rec_quality rec)) r4
            /\ consistent r4 /\ same_setup r3 r4 /\ mFileEof r4 = true
            /\ (unread r4 = more \/ (more = [] /\ (unread r4 = [LF] \/ unread r4 = [])))).
  { destruct more as [| m more].
    - destruct (getLine_stream wild r3 (rec_quality rec) [CR; LF] Hc3 Hu3 Hn4
                  (or_intror eq_refl)) as (r4 & Hg4 & Hc4 & Hs4 & Hu4 & _).
      exists r4. split; [exact Hg4 |]. split; [exact Hc4 |]. split; [exact Hs4 |].
      split; [eapply getLine_keeps_eof; eassumption |].
      right. split; [reflexivity |]. cbn [tl] in Hu4.
      destruct Hu4 as [Hu4 | [_ Hu4]]; [left | right]; exact Hu4.
    - destruct (getLine_crlf_small wild r3 _ _ Hc3 He3 Hu3 ltac:(discriminate) Hn4)
        as (r4 & Hg4 & Hc4 & Hs4 & Hu4 & He4).
      exists r4. split; [exact Hg4 |]. split; [exact Hc4 |]. split; [exact Hs4 |].
      split; [exact He4 | left; exact Hu4]. }
  destruct Hlast as (r4 & Hg4 & Hc4 & Hs4 & He4 & Hu4).
  pose proof (same_setup_trans _ _ _ Hs1 (same_setup_trans _ _ _ Hs2 Hs3)) as Hs13.
  pose proof (same_setup_trans _ _ _ Hs13 Hs4) as Hs14.
  destruct (skip_to_name_found wild fuel (rec_name rec) r1 Hat) as [Hskip Hne].
  exists r4.
  split; [| split; [exact Hc4 | split; [exact Hs14 | split; [exact He4 | exact Hu4]]]].
  pose proof Hc as (_ & _ & _ & _ & _ & _ & _ & H8).
  destruct (rec_name rec) as [| c0 nm] eqn:Hname; [discriminate Hat |].
  unfold read. rewrite H8.
  rewrite (not_at_end r c0 _ Hc Hun).
  rewrite Hg1, Hskip, Hne, Hg2, Hg3.
  replace (mHasQuality r3) with true
    by (destruct Hs13 as (_ & _ & _ & _ & _ & E & _); rewrite E, Hq; reflexivity).
  cbn [negb]. rewrite Hg4.
  rewrite !length_string_of_list_ascii, Hlen, Nat.eqb_refl. cbn [negb].
  unfold as_Read. rewrite Hname.
  replace (mPhred64 r4) with (mPhred64 r)
    by (destruct Hs14 as (_ & _ & _ & _ & E & _); rewrite E; reflexivity).
  reflexivity.
Qed.

(** Behind the last record of the last buffer, where at most the ['\n'] of
    its ["\r\n"] is left, [read] returns "no record". *)
Lemma read_none_at_blank (wild : mem) (fuel : nat) (r : t) :
  consistent r -> mFileEof r = true ->
  (unread r = [] \/ unread r = [LF]) ->
  exists r', read wild fuel r = Ok None r' /\ consistent r' /\ same_setup r r'.
Proof.
  intros Hc He [Hun | Hun].
  - destruct (read_at_end wild fuel r Hc Hun) as (r' & H & Hc' & Hs' & _).
    exists r'. split; [exact H |]. split; assumption.
  - pose proof Hc as (_ & _ & _ & _ & _ & _ & _ & H8).
    destruct (getLine_stream wild r [] [LF] Hc Hun eq_refl (or_intror eq_refl))
      as (r1 & Hget & Hc1 & Hs1 & Hu1 & _).
    assert (Hun1 : unread r1 = []).
    { cbn [tl hd] in Hu1. destruct Hu1 as [Hu1 | [Hbad _]]; [exact Hu1 | discriminate Hbad]. }
    pose proof (getLine_keeps_eof wild r _ r1 Hget He) as He1.
    pose proof (unread_nil_used r1 Hc1 Hun1) as Hused.
    unfold read. rewrite H8, (not_at_end r LF [] Hc Hun), Hget.
    assert (Hskip : skip_to_name wild fuel (string_of_list_ascii []) r1
                    = Ok (string_of_list_ascii []) r1).
    { assert (Hcond : (mBufUsedLen r1 >=? mBufDataLen r1) && eof r1 = true).
      { apply andb_true_iff. split; [apply Z.geb_le; lia | exact He1]. }
      destruct fuel; cbn [skip_to_name string_of_list_ascii]; rewrite Hcond; reflexivity. }
    rewrite Hskip. cbn [string_of_list_ascii].
    exists r1. split; [reflexivity |]. split; assumption.
Qed.

Lemma read_n_succ (wild : mem) (n fuel : nat) (r : t) :
  read_n wild (S n) fuel r
  = match read wild fuel r with
    | Ok x r => let (xs, final) := read_n wild n fuel r in (x :: xs, final)
    | Exit msg => ([], Exit msg)
    | Crash => ([], Crash)
    | Spin => ([], Spin)
    end.
Proof. reflexivity. Qed.

(** X20.  A whole file of records.  On a stream of well-formed records,
    lines ended by ["\n"] or by ["\r"] and the stream of any length, or
    lines ended by ["\r\n"] and the stream read to its end into the
    buffer, the calls of [read] return the records one by one, in order,
    and then "no record". *)
Theorem read_n_returns_all_records (wild : mem) (fuel : nat) (tm : Terminator) :
  forall (recs : list FastqRecord) (r : t),
    consistent r -> mHasQuality r = true ->
    (tm = TermCRLF -> mFileEof r = true) ->
    unread r = concat (map (render tm) recs) ->
    forallb readable recs = true ->
    exists r',
      read_n wild (S (length recs)) fuel r
      = (map (fun a => Some (as_Read a (mPhred64 r))) recs ++ [None], Ok tt r').
Proof.
  induction recs as [| a recs IH]; intros r Hc Hq Htm Hun Hrecs.
  - destruct (read_at_end wild fuel r Hc Hun) as (r' & H & _).
    exists r'. cbn [length map app]. rewrite read_n_succ, H. reflexivity.
  - cbn [forallb] in Hrecs. apply andb_true_iff in Hrecs. destruct Hrecs as [Ha Hrecs].
    cbn [map concat] in Hun. cbn [length map app]. rewrite read_n_succ.
    assert (Hstep : exists r1,
              read wild fuel r = Ok (Some (as_Read a (mPhred64 r))) r1
              /\ consistent r1 /\ same_setup r r1
              /\ (tm = TermCRLF -> mFileEof r1 = true)
              /\ (unread r1 = concat (map (render tm) recs)
                  \/ (recs = [] /\ mFileEof r1 = true
                      /\ (unread r1 = [LF] \/ unread r1 = [])))).
    { assert (Hdec : tm = TermCRLF \/ tm <> TermCRLF)
        by (destruct tm; [right; discriminate | right; discriminate | left; reflexivity]).
      destruct Hdec as [-> | Hne].
      - destruct (read_crlf_record wild fuel a _ r Hc (Htm eq_refl) Hq Hun Ha)
          as (r1 & H & Hc1 & Hs1 & He1 & Hu1).
        exists r1. split; [exact H |]. split; [exact Hc1 |]. split; [exact Hs1 |].
        split; [intros _; exact He1 |].
        destruct Hu1 as [Hu1 | [Hnil Hu1]]; [left; exact Hu1 |].
        right. destruct recs as [| b recs]; [auto |].
        exfalso. cbn [map concat] in Hnil.
        cbn [forallb] in Hrecs. apply andb_true_iff in Hrecs. destruct Hrecs as [Hb _].
        destruct (readable_fields b Hb) as (_ & Hat & _).
        unfold render, record_lines in Hnil.
        rewrite RecordFacts.render_lines_cons, <- !app_assoc in Hnil.
        exact (starts_with_nonempty AT _ _ Hat Hnil).
      - destruct (read_record wild fuel tm a _ r Hne Hc Hq Hun Ha
                    (records_hd tm recs Hrecs)) as (r1 & H & Hc1 & Hs1 & Hu1).
        exists r1. split; [exact H |]. split; [exact Hc1 |]. split; [exact Hs1 |].
        split; [intros E; contradiction | left; exact Hu1]. }
    destruct Hstep as (r1 & H & Hc1 & Hs1 & Htm1 & Hu1).
    rewrite H.
    assert (Hq1 : mHasQuality r1 = true)
      by (destruct Hs1 as (_ & _ & _ & _ & _ & E & _); rewrite E; exact Hq).
    assert (Hp1 : mPhred64 r1 = mPhred64 r)
      by (destruct Hs1 as (_ & _ & _ & _ & E & _); exact E).
    destruct Hu1 as [Hu1 | (-> & He1 & Hu1)].
    + destruct (IH r1 Hc1 Hq1 Htm1 Hu1 Hrecs) as (r' & Hrun).
      rewrite Hrun, Hp1. exists r'. reflexivity.
    + destruct (read_none_at_blank wild fuel r1 Hc1 He1
                  ltac:(destruct Hu1; [right | left]; assumption)) as (r' & Hnone & _).
      cbn [length map app]. rewrite read_n_succ, Hnone. cbn [read_n].
      exists r'. reflexivity.
Qed.

Lemma read_n_returns_all_records_witness :
  let a := {| rec_name := bytes "@r1"; rec_sequence := bytes "ACGT";
              rec_strand := bytes "+"; rec_quality := bytes "IIII" |} in
  let b := {| rec_name := bytes "@r2"; rec_sequence := bytes "GG";
              rec_strand := bytes "+r2"; rec_quality := bytes "@@" |} in
  let r := {| mFilename := "r.fq"; mFile := []; mFileEof := true;
              mFileBroken := false; mZipFileNull := true; mZipped := false;
              mPhred64 := false; mHasQuality := true;
              mBuf := render TermCRLF a ++ render TermCRLF b;
              mBufDataLen := 38; mBufUsedLen := 0;
              mHasNoLineBreakAtEnd := false; cerr := [] |} in
  consistent r
  /\ exists r',
       read_n zeros (S (length [a; b])) 0 r
       = (map (fun x => Some (as_Read x (mPhred64 r))) [a; b] ++ [None], Ok tt r').
Proof.
  intros a b r.
  assert (Hc : consistent r).
  { unfold consistent. cbn [r mBufUsedLen mBufDataLen mBuf mFile mFileEof mZipped
                             mFileBroken mZipFileNull].
    rewrite FQ_BUF_SIZE_value.
    repeat split; intros; try lia; try reflexivity; try (cbn; lia). }
  split; [exact Hc |].
  apply (read_n_returns_all_records zeros 0 TermCRLF [a; b] r Hc);
    [reflexivity | intros _; reflexivity | reflexivity | reflexivity].
Defined.

End CrlfStreamFacts.

Module ReadEdgeFacts.

Import FastqReader ReaderAux ReaderFacts LineFacts ReadFacts CrlfStreamFacts.

#[local] Opaque FQ_BUF_SIZE.

(** *** Lines in front of a record, and a record that is dropped *)

Lemma skipped_line_cond (l : list ascii) (r : t) :
  skipped_line l = true ->
  (empty (string_of_list_ascii l) && negb ((mBufUsedLen r >=? mBufDataLen r) && eof r))
  || (negb (empty (string_of_list_ascii l)) && first_is_not_at (string_of_list_ascii l))
  = true.
Proof.
  unfold skipped_line, text_line. intros H.
  apply andb_true_iff in H. destruct H as [H Hat].
  apply andb_true_iff in H. destruct H as [_ Hne].
  destruct l as [| c l]; [discriminate Hne |].
  cbn [starts_with] in Hat. cbn [string_of_list_ascii first_is_not_at].
  rewrite Hat. reflexivity.
Qed.

Lemma skipped_line_text (l : list ascii) : skipped_line l = true -> text_line l = true.
Proof. unfold skipped_line. intros H. apply andb_true_iff in H. apply H. Qed.

Lemma text_line_no_eol (l : list ascii) : text_line l = true -> no_eol l = true.
Proof. unfold text_line. intros H. apply andb_true_iff in H. apply H. Qed.

(** The search for the name line passes over the lines that do not begin
    with ['@']. *)
Lemma skip_to_name_skips (wild : mem) (tm : Terminator) (name rest : list ascii) :
  tm <> TermCRLF -> no_eol name = true -> starts_with AT name = true ->
  hd NUL rest <> LF ->
  forall (junk : list (list ascii)) (fuel : nat) (l0 : list ascii) (r : t),
    skipped_line l0 = true -> forallb skipped_line junk = true ->
    (length junk < fuel)%nat ->
    consistent r ->
    unread r = render_lines tm junk ++ name ++ term_bytes tm ++ rest ->
    exists r',
      skip_to_name wild fuel (string_of_list_ascii l0) r = Ok (string_of_list_ascii name) r'
      /\ consistent r' /\ same_setup r r' /\ unread r' = rest.
Proof.
  intros Htm Hname Hat Hrest.
  induction junk as [| j junk IH]; intros fuel l0 r Hl0 Hjunk Hfuel Hc Hun.
  - destruct fuel as [| fuel]; [cbn [length] in Hfuel; lia |].
    cbn [skip_to_name]. rewrite (skipped_line_cond l0 r Hl0).
    cbn [render_lines map concat app] in Hun.
    destruct (getLine_line wild tm r name rest Htm Hc Hun Hname Hrest)
      as (r1 & Hg & Hc1 & Hs1 & Hu1).
    rewrite Hg.
    destruct (skip_to_name_found wild fuel name r1 Hat) as [Hskip _].
    exists r1. split; [exact Hskip |]. split; [exact Hc1 |]. split; assumption.
  - destruct fuel as [| fuel]; [cbn [length] in Hfuel; lia |].
    cbn [forallb] in Hjunk. apply andb_true_iff in Hjunk. destruct Hjunk as [Hj Hjunk].
    cbn [skip_to_name]. rewrite (skipped_line_cond l0 r Hl0).
    rewrite RecordFacts.render_lines_cons, <- !app_assoc in Hun.
    destruct (getLine_line wild tm r j _ Htm Hc Hun (text_line_no_eol j (skipped_line_text j Hj)))
      as (r1 & Hg & Hc1 & Hs1 & Hu1).
    { destruct junk as [| j' junk].
      - cbn [render_lines map concat app].
        apply starts_with_hd with (c := AT); [exact Hat | discriminate].
      - cbn [forallb] in Hjunk. apply andb_true_iff in Hjunk. destruct Hjunk as [Hj' _].
        rewrite RecordFacts.render_lines_cons, <- !app_assoc.
        apply text_line_hd. apply skipped_line_text. exact Hj'. }
    rewrite Hg.
    destruct (IH fuel j r1 Hj Hjunk ltac:(cbn [length] in Hfuel; lia) Hc1 Hu1)
      as (r' & Hrun & Hc' & Hs' & Hu').
    exists r'. split; [exact Hrun |]. split; [exact Hc' |].
    split; [eapply same_setup_trans; eassumption | exact Hu'].
Qed.

(** [read] on a stream that goes on with lines that do not begin with ['@']
    and then four lines of text, the first of which begins with ['@'],
    whatever follows them. *)
Lemma read_general (wild : mem) (fuel : nat) (tm : Terminator)
    (junk : list (list ascii)) (name sequence strand quality more : list ascii) (r : t) :
  tm <> TermCRLF ->
  consistent r -> mHasQuality r = true ->
  unread r = render_lines tm junk ++ render_lines tm [name; sequence; strand; quality] ++ more ->
  forallb skipped_line junk = true -> (length junk <= fuel)%nat ->
  no_eol name = true -> starts_with AT name = true ->
  forallb text_line [sequence; strand; quality] = true ->
  exists r',
    consistent r' /\ same_setup r r'
    /\ (unread r' = more \/ (hd NUL more = LF /\ unread r' = tl more))
    /\ read wild fuel r
       = if negb (length quality =? length sequence)%nat
         then Ok None (write_cerr r' (mismatch_report (string_of_list_ascii name)
                                        (string_of_list_ascii sequence)
                                        (string_of_list_ascii strand)
                                        (string_of_list_ascii quality)))
         else Ok (Some {| mName := string_of_list_ascii name;
                          mSeq := string_of_list_ascii sequence;
                          mStrand := string_of_list_ascii strand;
                          mQuality := string_of_list_ascii quality;
                          mHasPhred64 := mPhred64 r |}) r'.
Proof.
  intros Htm Hc Hq Hun Hjunk Hfuel Hname Hat Hls.
  cbn [forallb] in Hls.
  apply andb_true_iff in Hls. destruct Hls as [Hseq Hls].
  apply andb_true_iff in Hls. destruct Hls as [Hstr Hls].
  apply andb_true_iff in Hls. destruct Hls as [Hqual _].
  rewrite !RecordFacts.render_lines_cons, <- !app_assoc in Hun.
  change (render_lines tm [] ++ more) with more in Hun.
  set (rest := sequence ++ term_bytes tm ++ strand ++ term_bytes tm
               ++ quality ++ term_bytes tm ++ more) in *.
  assert (Hrest : hd NUL rest <> LF) by (apply text_line_hd; exact Hseq).
  (* the name *)
  assert (Hphase : exists name0 r1 r2,
            getLine wild r = Ok name0 r1
            /\ skip_to_name wild fuel name0 r1 = Ok (string_of_list_ascii name) r2
            /\ consistent r2 /\ same_setup r r2 /\ unread r2 = rest).
  { destruct junk as [| j0 junk].
    - cbn [render_lines map concat app] in Hun.
      destruct (getLine_line wild tm r name rest Htm Hc Hun Hname Hrest)
        as (r1 & Hg & Hc1 & Hs1 & Hu1).
      destruct (skip_to_name_found wild fuel name r1 Hat) as [Hskip _].
      exists (string_of_list_ascii name), r1, r1.
      split; [exact Hg |]. split; [exact Hskip |]. split; [exact Hc1 |].
      split; [exact Hs1 | exact Hu1].
    - cbn [forallb] in Hjunk. apply andb_true_iff in Hjunk. destruct Hjunk as [Hj0 Hjunk].
      rewrite RecordFacts.render_lines_cons, <- !app_assoc in Hun.
      destruct (getLine_line wild tm r j0 _ Htm Hc Hun
                  (text_line_no_eol j0 (skipped_line_text j0 Hj0)))
        as (r1 & Hg & Hc1 & Hs1 & Hu1).
      { destruct junk as [| j' junk].
        - cbn [render_lines map concat app].
          apply starts_with_hd with (c := AT); [exact Hat | discriminate].
        - cbn [forallb] in Hjunk. apply andb_true_iff in Hjunk. destruct Hjunk as [Hj' _].
          rewrite RecordFacts.render_lines_cons, <- !app_assoc.
          apply text_line_hd. apply skipped_line_text. exact Hj'. }
      destruct (skip_to_name_skips wild tm name rest Htm Hname Hat Hrest junk fuel j0 r1
                  Hj0 Hjunk ltac:(cbn [length] in Hfuel; lia) Hc1 Hu1)
        as (r2 & Hskip & Hc2 & Hs2 & Hu2).
      exists (string_of_list_ascii j0), r1, r2.
      split; [exact Hg |]. split; [exact Hskip |]. split; [exact Hc2 |].
      split; [eapply same_setup_trans; eassumption | exact Hu2]. }
  destruct Hphase as (name0 & r1 & r2 & Hg1 & Hskip & Hc2 & Hs2 & Hu2).
  unfold rest in Hu2.
  destruct (getLine_line wild tm r2 _ _ Htm Hc2 Hu2 (text_line_no_eol _ Hseq))
    as (r3 & Hg3 & Hc3 & Hs3 & Hu3).
  { apply text_line_hd. exact Hstr. }
  destruct (getLine_line wild tm r3 _ _ Htm Hc3 Hu3 (text_line_no_eol _ Hstr))
    as (r4 & Hg4 & Hc4 & Hs4 & Hu4).
  { apply text_line_hd. exact Hqual. }
  destruct (getLine_line_any wild tm r4 _ _ Htm Hc4 Hu4 (text_line_no_eol _ Hqual))
    as (r5 & Hg5 & Hc5 & Hs5 & Hu5).
  pose proof (same_setup_trans _ _ _ Hs2 (same_setup_trans _ _ _ Hs3 Hs4)) as Hs24.
  pose proof (same_setup_trans _ _ _ Hs24 Hs5) as Hs25.
  exists r5. split; [exact Hc5 |]. split; [exact Hs25 |]. split; [exact Hu5 |].
  pose proof Hc as (_ & _ & _ & _ & _ & _ & _ & H8).
  assert (Hguard : (mBufUsedLen r >=? mBufDataLen r) && eof r = false).
  { destruct (unread r) as [| c0 s] eqn:E.
    - exfalso. symmetry in Hun. apply app_eq_nil in Hun. destruct Hun as [_ Hun].
      exact (starts_with_nonempty AT _ _ Hat Hun).
    - exact (not_at_end r c0 s Hc E). }
  assert (Hne : empty (string_of_list_ascii name) = false)
    by (destruct name; [discriminate Hat | reflexivity]).
  unfold read. rewrite H8, Hguard, Hg1, Hskip, Hne, Hg3, Hg4.
  replace (mHasQuality r4) with true
    by (destruct Hs24 as (_ & _ & _ & _ & _ & E & _); rewrite E, Hq; reflexivity).
  cbn [negb]. rewrite Hg5, !length_string_of_list_ascii.
  replace (mPhred64 r5) with (mPhred64 r)
    by (destruct Hs25 as (_ & _ & _ & _ & E & _); rewrite E; reflexivity).
  destruct (negb (length quality =? length sequence)%nat); reflexivity.
Qed.

Lemma readable_text_lines (rec : FastqRecord) :
  readable rec = true ->
  forallb text_line [rec_sequence rec; rec_strand rec; rec_quality rec] = true.
Proof.
  intros H. destruct (readable_fields rec H) as (_ & _ & Hseq & Hn3 & Hplus & Hn4 & Hlen).
  cbn [forallb]. rewrite Hseq. unfold text_line. rewrite Hn3, Hn4. cbn [andb].
  destruct (rec_strand rec); [discriminate Hplus |].
  destruct (rec_quality rec); [| reflexivity].
  unfold text_line in Hseq. apply andb_true_iff in Hseq. destruct Hseq as [_ Hs].
  destruct (rec_sequence rec); [discriminate Hs | discriminate Hlen].
Qed.

(** X21.  [read] passes over the lines in front of a record.  On a stream
    of lines ended by ["\n"] (or by ["\r"]) that goes on with lines of text
    that do not begin with ['@'], no more of them than the bound on the
    search, and then a well-formed record whose quality is as long as its
    sequence, the lines are dropped and the record is returned, whatever
    follows it.  The reader is left behind the record, or, when a ['\n']
    follows the record, possibly behind that byte as well. *)
Theorem read_skips_to_the_next_name (wild : mem) (fuel : nat) (tm : Terminator)
    (junk : list (list ascii)) (rec : FastqRecord) (more : list ascii) (r : t) :
  tm <> TermCRLF ->
  consistent r -> mHasQuality r = true ->
  unread r = render_lines tm junk ++ render tm rec ++ more ->
  forallb skipped_line junk = true -> (length junk <= fuel)%nat ->
  readable rec = true ->
  exists r',
    read wild fuel r = Ok (Some (as_Read rec (mPhred64 r))) r'
    /\ consistent r' /\ same_setup r r'
    /\ (unread r' = more \/ (hd NUL more = LF /\ unread r' = tl more)).
Proof.
  intros Htm Hc Hq Hun Hjunk Hfuel Hrec.
  destruct (readable_fields rec Hrec) as (Hn1 & Hat & _ & _ & _ & _ & Hlen).
  destruct (read_general wild fuel tm junk (rec_name rec) (rec_sequence rec) (rec_strand rec)
              (rec_quality rec) more r Htm Hc Hq Hun Hjunk Hfuel Hn1 Hat
              (readable_text_lines rec Hrec))
    as (r' & Hc' & Hs' & Hu' & Hread).
  rewrite Hlen, Nat.eqb_refl in Hread. cbn [negb] in Hread.
  exists r'. split; [exact Hread |]. split; [exact Hc' |]. split; assumption.
Qed.

Lemma read_skips_to_the_next_name_witness :
  let rec := {| rec_name := bytes "@r1"; rec_sequence := bytes "ACGT";
                rec_strand := bytes "+"; rec_quality := bytes "IIII" |} in
  let junk := [bytes "IIII"; bytes ">x"] in
  let r := {| mFilename := "r.fq"; mFile := []; mFileEof := true;
              mFileBroken := false; mZipFileNull := true; mZipped := false;
              mPhred64 := false; mHasQuality := true;
              mBuf := render_lines TermLF junk ++ render TermLF rec ++ [LF];
              mBufDataLen := 25; mBufUsedLen := 0;
              mHasNoLineBreakAtEnd := false; cerr := [] |} in
  consistent r
  /\ exists r',
       read zeros 2 r = Ok (Some (as_Read rec (mPhred64 r))) r'
       /\ consistent r' /\ same_setup r r'
       /\ (unread r' = [LF] \/ (hd NUL [LF] = LF /\ unread r' = tl [LF])).
Proof.
  intros rec junk r.
  assert (Hc : consistent r).
  { unfold consistent. cbn [r mBufUsedLen mBufDataLen mBuf mFile mFileEof mZipped
                             mFileBroken mZipFileNull].
    rewrite FQ_BUF_SIZE_value.
    repeat split; intros; try lia; try reflexivity; try (cbn; lia). }
  split; [exact Hc |].
  apply (read_skips_to_the_next_name zeros 2 TermLF junk rec [LF] r);
    [discriminate | exact Hc | reflexivity | reflexivity | reflexivity | cbn; lia
     | reflexivity].
Defined.

(** X22.  A record that is dropped does not stop the reader.  On a stream
    of lines ended by ["\n"] (or by ["\r"]) that goes on with four lines of
    text, the first of which begins with ['@'] and the second and fourth of
    which differ in length, and then a well-formed record whose quality is
    as long as its sequence: [read] writes its report and returns "no
    record", and the next call returns the record that follows, whatever
    comes after it.  The reader is then behind that record, or, when a
    ['\n'] follows it, possibly behind that byte as well. *)
Theorem read_goes_on_after_mismatch (wild : mem) (fuel : nat) (tm : Terminator)
    (name sequence strand quality : list ascii) (rec : FastqRecord) (more : list ascii)
    (r : t) :
  tm <> TermCRLF ->
  consistent r -> mHasQuality r = true ->
  unread r = render_lines tm [name; sequence; strand; quality] ++ render tm rec ++ more ->
  no_eol name = true -> starts_with AT name = true ->
  forallb text_line [sequence; strand; quality] = true ->
  length quality <> length sequence ->
  readable rec = true ->
  exists r1 r2,
    read wild fuel r = Ok None r1
    /\ cerr r1 = cerr r ++ mismatch_report (string_of_list_ascii name)
                             (string_of_list_ascii sequence)
                             (string_of_list_ascii strand)
                             (string_of_list_ascii quality)
    /\ read wild fuel r1 = Ok (Some (as_Read rec (mPhred64 r))) r2
    /\ consistent r2
    /\ (unread r2 = more \/ (hd NUL more = LF /\ unread r2 = tl more)).
Proof.
  intros Htm Hc Hq Hun Hname Hat Hls Hlen Hrec.
  destruct (readable_fields rec Hrec) as (Hn1' & Hat' & _ & _ & _ & _ & Hlen').
  assert (Hnext : hd NUL (render tm rec ++ more) <> LF).
  { unfold render, record_lines. rewrite RecordFacts.render_lines_cons, <- !app_assoc.
    apply starts_with_hd with (c := AT); [exact Hat' | discriminate]. }
  destruct (read_general wild fuel tm [] name sequence strand quality (render tm rec ++ more) r
              Htm Hc Hq Hun eq_refl (Nat.le_0_l _) Hname Hat Hls)
    as (r' & Hc' & Hs' & Hu' & Hread).
  destruct Hu' as [Hu' | [Hlf _]]; [| contradiction].
  apply Nat.eqb_neq in Hlen. rewrite Hlen in Hread. cbn [negb] in Hread.
  set (r1 := write_cerr r' (mismatch_report (string_of_list_ascii name)
                              (string_of_list_ascii sequence) (string_of_list_ascii strand)
                              (string_of_list_ascii quality))) in *.
  destruct Hs' as (S1 & S2 & S3 & S4 & S5 & S6 & S7).
  assert (Hc1 : consistent r1) by exact Hc'.
  assert (Hu1 : unread r1 = render_lines tm [] ++ render tm rec ++ more) by exact Hu'.
  assert (Hq1 : mHasQuality r1 = true) by (cbn [r1 write_cerr mHasQuality]; congruence).
  unfold render at 1, record_lines in Hu1.
  destruct (read_general wild fuel tm [] (rec_name rec) (rec_sequence rec) (rec_strand rec)
              (rec_quality rec) more r1 Htm Hc1 Hq1 Hu1 eq_refl (Nat.le_0_l _) Hn1' Hat'
              (readable_text_lines rec Hrec))
    as (r2 & Hc2 & _ & Hu2 & Hread2).
  rewrite Hlen', Nat.eqb_refl in Hread2. cbn [negb] in Hread2.
  exists r1, r2. split; [exact Hread |].
  split; [cbn [r1 write_cerr cerr]; rewrite S7; reflexivity |].
  split; [| split; assumption].
  rewrite Hread2. unfold as_Read. cbn [r1 write_cerr mPhred64]. rewrite S5. reflexivity.
Qed.

Lemma read_goes_on_after_mismatch_witness :
  let rec := {| rec_name := bytes "@r2"; rec_sequence := bytes "ACGT";
                rec_strand := bytes "+"; rec_quality := bytes "IIII" |} in
  let r := {| mFilename := "r.fq"; mFile := []; mFileEof := true;
              mFileBroken := false; mZipFileNull := true; mZipped := false;
              mPhred64 := false; mHasQuality := true;
              mBuf := render_lines TermLF [bytes "@r1"; bytes "ACGT"; bytes "+"; bytes "II"]
                      ++ render TermLF rec;
              mBufDataLen := 30; mBufUsedLen := 0;
              mHasNoLineBreakAtEnd := false; cerr := [] |} in
  consistent r
  /\ exists r1 r2,
       read zeros 0 r = Ok None r1
       /\ cerr r1 = cerr r ++ mismatch_report (string_of_list_ascii (bytes "@r1"))
                                (string_of_list_ascii (bytes "ACGT"))
                                (string_of_list_ascii (bytes "+"))
                                (string_of_list_ascii (bytes "II"))
       /\ read zeros 0 r1 = Ok (Some (as_Read rec (mPhred64 r))) r2
       /\ consistent r2
       /\ (unread r2 = [] \/ (hd NUL [] = LF /\ unread r2 = tl [])).
Proof.
  intros rec r.
  assert (Hc : consistent r).
  { unfold consistent. cbn [r mBufUsedLen mBufDataLen mBuf mFile mFileEof mZipped
                             mFileBroken mZipFileNull].
    rewrite FQ_BUF_SIZE_value.
    repeat split; intros; try lia; try reflexivity; try (cbn; lia). }
  split; [exact Hc |].
  apply (read_goes_on_after_mismatch zeros 0 TermLF (bytes "@r1") (bytes "ACGT") (bytes "+")
           (bytes "II") rec [] r);
    [discriminate | exact Hc | reflexivity | reflexivity | reflexivity | reflexivity
     | reflexivity | cbn; lia | reflexivity].
Defined.

End ReadEdgeFacts.

Module LastRoundFacts.

Import FastqChunkReaderPair Aux ReaderAux ScannerFacts SkipFacts.

(** *** The last round after the files ended with the chunk before *)

(** A refill that finds its file at the end and bytes carried over. *)
Lemma refill_nothing_read (tmp : Z) (wild : mem) (fuel : nat) (short zero : message)
    (buf swap : list ascii) (b : Z) (u : bool) :
  0 < b <= Z.of_nat (length swap) ->
  b <= Z.of_nat (length buf) ->
  exists L,
    refill tmp wild fuel short zero buf swap b [] u = Some L
    /\ r_eof L = true /\ r_abort L = false /\ r_rest L = [] /\ r_usesCrlf L = u
    /\ r_bufferSize L = 0
    /\ r_size L = b
    /\ firstn (Z.to_nat b) (r_data L) = firstn (Z.to_nat b) swap.
Proof.
  intros Hb Hroom. unfold refill, Read. cbv zeta.
  replace (b >? 0) with true by (symmetry; apply Z.gtb_lt; lia).
  rewrite firstn_nil, skipn_nil. cbn [length Z.of_nat].
  change (0 >? 0) with false. cbv iota.
  eexists. split; [reflexivity |].
  cbn [r_eof r_abort r_rest r_usesCrlf r_size r_data r_bufferSize].
  split; [reflexivity |].
  split; [apply Z.eqb_neq; lia |].
  split; [reflexivity |]. split; [reflexivity |]. split; [reflexivity |].
  split; [reflexivity |].
  unfold store at 1. cbn [length app]. rewrite Nat.add_0_r, firstn_skipn.
  rewrite StreamFacts.store_0, StreamFacts.slice_0.
  rewrite firstn_app, firstn_firstn, Nat.min_id.
  replace (Z.to_nat b - length (firstn (Z.to_nat b) swap))%nat with O
    by (rewrite length_firstn; lia).
  cbn [firstn]. apply app_nil_r.
Qed.

(** X23.  The last round after an exact end.  When both files were read to
    their ends by the round before and bytes are carried over on both
    sides, the call reads nothing, returns a pair and sets [eof]; each
    chunk's first [size] bytes are the carried bytes, all of them: no last
    byte is left out, unlike in a round that reads the last bytes. *)
Theorem last_round_after_exact_end (tmp : Z) (wild : mem) (fuel : nat) (s : t)
    (bufL bufR : list ascii) (restL restR : list (list ascii)) :
  eof s = false ->
  available (fastqPool_left s) = bufL :: restL ->
  available (fastqPool_right s) = bufR :: restR ->
  mLeft s = [] -> mRight s = [] ->
  0 < bufferSize_left s <= Z.of_nat (length (swapBuffer_left s)) ->
  0 < bufferSize_right s <= Z.of_nat (length (swapBuffer_right s)) ->
  bufferSize_left s <= Z.of_nat (length bufL) ->
  bufferSize_right s <= Z.of_nat (length bufR) ->
  exists p s',
    readNextChunkPair_interleaved tmp wild fuel s = Returned (Some p) s'
    /\ eof s' = true /\ usesCrlf s' = usesCrlf s
    /\ payload (leftpart p) = pending_left s
    /\ payload (rightpart p) = pending_right s.
Proof.
  intros Heof HaL HaR HfL HfR HbL HbR HrL HrR.
  destruct (refill_nothing_read tmp wild fuel Read1Short Read1Zero bufL (swapBuffer_left s)
              (bufferSize_left s) (usesCrlf s) HbL HrL)
    as (L & HL & HeL & HabL & HrestL & HuL & _ & HszL & HdL).
  destruct (refill_nothing_read tmp wild fuel Read2Short Read2Zero bufR (swapBuffer_right s)
              (bufferSize_right s) (usesCrlf s) HbR HrR)
    as (R & HR & HeR & HabR & HrestR & HuR & _ & HszR & HdR).
  unfold readNextChunkPair_interleaved, Acquire.
  rewrite HaL, HaR, Heof, HfL, HL, HabL, HuL, HfR, HR, HabR. cbv zeta.
  rewrite HeL, HeR. cbn [andb negb].
  do 2 eexists. split; [reflexivity |].
  cbn [eof usesCrlf leftpart rightpart].
  split; [reflexivity |]. split; [exact HuR |].
  unfold payload, pending_left, pending_right. cbn [data size].
  rewrite HszL, HszR, HfL, HfR, !app_nil_r. split; assumption.
Qed.

Lemma last_round_after_exact_end_witness :
  let buf := repeat NUL 32 in
  let s := {| mLeft := []; mRight := []; mInterleaved := false;
              fastqPool_left := {| available := [buf]; acquired := 1; released := 1 |};
              fastqPool_right := {| available := [buf]; acquired := 1; released := 1 |};
              swapBuffer_left := unlines TermLF ["@a"; "A"; "+"; "I"]%string ++ repeat NUL 23;
              swapBuffer_right := unlines TermLF ["@b"; "AC"; "+"; "II"]%string ++ repeat NUL 21;
              bufferSize_left := 9; bufferSize_right := 11;
              eof := false; usesCrlf := false; stdout := [] |} in
  exists p s',
    readNextChunkPair_interleaved 16 zeros 3 s = Returned (Some p) s'
    /\ eof s' = true /\ usesCrlf s' = usesCrlf s
    /\ payload (leftpart p) = pending_left s
    /\ payload (rightpart p) = pending_right s.
Proof.
  intros buf s.
  apply (last_round_after_exact_end 16 zeros 3 s buf buf [] []);
    try reflexivity; cbn; lia.
Defined.

End LastRoundFacts.

Module BoundsFacts.

Import FastqChunkReaderPair Aux ScanAux ScannerFacts SkipFacts RecordFacts ChunkFacts.

(** *** The loads of the scanner on well-formed records *)

Lemma safe_trace_app (size_ : Z) (a b : list event) :
  safe_trace size_ (a ++ b) = safe_trace size_ a && safe_trace size_ b.
Proof. unfold safe_trace. apply forallb_app. Qed.

Lemma safe_load (size_ i : Z) : 0 <= i < size_ -> safe_trace size_ [Load i] = true.
Proof.
  intros H. unfold safe_trace. cbn [forallb safe_event].
  replace (0 <=? i) with true by (symmetry; apply Z.leb_le; lia).
  replace (i <? size_) with true by (symmetry; apply Z.ltb_lt; lia).
  reflexivity.
Qed.

(** The traces, function by function. *)
Lemma SkipToEol_loop_snd (n : nat) (data_ : mem) (pos_ size_ : Z) :
  snd (SkipToEol_loop n data_ pos_ size_)
  = Load pos_
    :: (if negb (data_ pos_ =? LF)%char && negb (data_ pos_ =? CR)%char && (pos_ <? size_)
        then match n with
             | S n' => snd (SkipToEol_loop n' data_ (pos_ + 1) size_)
             | O => []
             end
        else []).
Proof.
  destruct n; cbn [SkipToEol_loop]; rewrite snd_bind; cbn [load fst snd app];
    match goal with |- context [if ?c then _ else _] => destruct c end; reflexivity.
Qed.

Lemma SkipToEol_snd (data_ : mem) (pos_ size_ : Z) (u : bool) :
  snd (SkipToEol data_ pos_ size_ u)
  = let loop := SkipToEol_loop (Z.to_nat (size_ - pos_)) data_ pos_ size_ in
    Assert (pos_ <? size_) :: snd loop
    ++ Load (fst loop)
       :: (if (data_ (fst loop) =? CR)%char && (fst loop <? size_)
           then [Load (fst loop + 1)] else []).
Proof.
  unfold SkipToEol. rewrite !snd_bind. cbn [ASSERT load fst snd app]. cbv zeta.
  f_equal. f_equal. f_equal.
  destruct ((data_ _ =? CR)%char && (_ <? size_)); [| reflexivity].
  rewrite snd_bind. cbn [load fst snd app].
  destruct (data_ _ =? LF)%char; reflexivity.
Qed.

Lemma find_at_snd (fuel : nat) (data_ : mem) (pos_ size_ : Z) (u : bool) :
  snd (find_at fuel data_ pos_ size_ u)
  = Load pos_
    :: (if negb (data_ pos_ =? AT)%char then
          match fuel with
          | S fuel' =>
              snd (SkipToEol data_ pos_ size_ u)
              ++ snd (find_at fuel' data_ (u64 (fst (fst (SkipToEol data_ pos_ size_ u)) + 1))
                        size_ (snd (fst (SkipToEol data_ pos_ size_ u))))
          | O => []
          end
        else []).
Proof.
  destruct fuel; cbn [find_at]; rewrite snd_bind; cbn [load fst snd app];
    destruct (negb (data_ pos_ =? AT)%char); try reflexivity.
  rewrite snd_bind. destruct (fst (SkipToEol data_ pos_ size_ u)). reflexivity.
Qed.

Lemma GetNextRecordPos_snd (fuel : nat) (data_ : mem) (pos_ size_ : Z) (u : bool) :
  snd (GetNextRecordPos fuel data_ pos_ size_ u)
  = let s0 := SkipToEol data_ pos_ size_ u in
    snd s0 ++ search_trace fuel data_ size_ (u64 (fst (fst s0) + 1)) (snd (fst s0)).
Proof.
  unfold search_trace, GetNextRecordPos, probe_trace. rewrite snd_bind. cbv zeta.
  destruct (fst (SkipToEol data_ pos_ size_ u)) as [p0 u0]. cbn [fst snd].
  f_equal. rewrite snd_bind. f_equal.
  destruct (fst (find_at fuel data_ (u64 (p0 + 1)) size_ u0)) as [[p1 u1] |];
    [| reflexivity].
  rewrite snd_bind.
  destruct (fst (SkipToEol data_ p1 size_ u1)) as [p2 u2]. cbn [fst snd].
  f_equal. rewrite snd_bind. cbn [load fst snd app]. f_equal.
  destruct (data_ (u64 (p2 + 1)) =? AT)%char; [reflexivity |].
  rewrite snd_bind.
  destruct (fst (SkipToEol data_ (u64 (p2 + 1)) size_ u2)) as [p3 u3]. cbn [fst snd].
  f_equal. rewrite !snd_bind. cbn [load fst snd app].
  f_equal.
  destruct (negb (data_ (u64 (p3 + 1)) =? PLUS)%char).
  - rewrite snd_bind. cbn [load cout ASSERT fst snd app]. reflexivity.
  - cbn [ret load ASSERT fst snd app]. reflexivity.
Qed.

(** The scanning loop loads the bytes from where it starts to where it stops. *)
Lemma SkipToEol_loop_safe (n : nat) :
  forall (data_ : mem) (pos_ size_ : Z),
    0 <= pos_ ->
    fst (SkipToEol_loop n data_ pos_ size_) < size_ ->
    safe_trace size_ (snd (SkipToEol_loop n data_ pos_ size_)) = true.
Proof.
  induction n as [| n IH]; intros data_ pos_ size_ Hpos Hstop;
    pose proof (SkipToEol_loop_range 0 data_ pos_ size_) as Hr0;
    rewrite SkipToEol_loop_snd; rewrite SkipToEol_loop_eq in Hstop.
  - change (safe_trace size_ ([Load pos_] ++
              (if negb (data_ pos_ =? LF)%char && negb (data_ pos_ =? CR)%char
                  && (pos_ <? size_) then [] else [])) = true).
    rewrite safe_trace_app, safe_load.
    + destruct (_ && _ && _); reflexivity.
    + destruct (_ && _ && _); lia.
  - destruct (negb (data_ pos_ =? LF)%char && negb (data_ pos_ =? CR)%char
              && (pos_ <? size_)) eqn:Hc.
    + apply andb_true_iff in Hc. destruct Hc as [_ Hc]. apply Z.ltb_lt in Hc.
      change (safe_trace size_ ([Load pos_] ++ snd (SkipToEol_loop n data_ (pos_ + 1) size_))
              = true).
      rewrite safe_trace_app, safe_load by lia.
      apply IH; [lia | exact Hstop].
    + apply safe_load. lia.
Qed.

(** [SkipToEol] from any offset of a line that is followed by one more byte
    of the buffer: every load is inside the buffer and its ASSERT holds. *)
Lemma skip_line_safe (data : mem) (size_ : Z) (t : Terminator) (p : Z) (l : list ascii)
    (pos : Z) (u : bool) :
  line_at data size_ t p l ->
  p <= pos < p + llen t l ->
  p + llen t l < size_ ->
  safe_trace size_ (snd (SkipToEol data pos size_ u)) = true.
Proof.
  intros Hl Hpos Hnext.
  pose proof (line_at_term _ _ _ _ _ Hl) as Ht.
  pose proof (fun j => line_at_inside _ _ _ _ _ j Hl) as Hin.
  destruct Hl as (_ & _ & Hp & Hsz & _).
  unfold llen, tlen in *.
  assert (Hstop : pos <= fst (SkipToEol_loop (Z.to_nat (size_ - pos)) data pos size_)
                  < p + Z.of_nat (length l) + Z.of_nat (length (term_bytes t))).
  { destruct (Z_le_gt_dec pos (p + Z.of_nat (length l))) as [Hle | Hgt].
    - rewrite (SkipToEol_loop_stops (Z.to_nat (p + Z.of_nat (length l) - pos))).
      + destruct t; simpl; lia.
      + intros j Hj. replace (pos + j) with (p + (pos - p + j)) by lia.
        apply Hin. lia.
      + replace (pos + Z.of_nat (Z.to_nat (p + Z.of_nat (length l) - pos)))
          with (p + Z.of_nat (length l)) by lia.
        unfold is_eol. destruct t; simpl in Ht.
        * rewrite Ht. reflexivity.
        * destruct Ht as [-> _]. reflexivity.
        * destruct Ht as [-> _]. reflexivity.
      + lia.
      + lia.
    - destruct t; simpl in *; try lia.
      assert (pos = p + Z.of_nat (length l) + 1) by lia. subst pos.
      destruct Ht as [_ Ht2].
      rewrite (SkipToEol_loop_stops O).
      + lia.
      + intros j Hj. lia.
      + rewrite Z.add_0_r. rewrite Ht2. reflexivity.
      + lia.
      + lia. }
  rewrite SkipToEol_snd. cbv zeta.
  set (stop := fst (SkipToEol_loop (Z.to_nat (size_ - pos)) data pos size_)) in *.
  change (safe_trace size_
            ([Assert (pos <? size_)]
             ++ snd (SkipToEol_loop (Z.to_nat (size_ - pos)) data pos size_)
             ++ [Load stop]
             ++ (if (data stop =? CR)%char && (stop <? size_) then [Load (stop + 1)] else []))
          = true).
  rewrite !safe_trace_app.
  rewrite SkipToEol_loop_safe by (fold stop; lia).
  rewrite (safe_load size_ stop) by lia.
  replace (safe_trace size_ [Assert (pos <? size_)]) with true
    by (unfold safe_trace; cbn [forallb safe_event];
        replace (pos <? size_) with true by (symmetry; apply Z.ltb_lt; lia); reflexivity).
  destruct ((data stop =? CR)%char && (stop <? size_)); [| reflexivity].
  rewrite safe_load by lia. reflexivity.
Qed.

Lemma find_at_hit_safe (fuel : nat) (data : mem) (p size_ : Z) (u : bool) :
  (data p =? AT)%char = true -> 0 <= p < size_ ->
  safe_trace size_ (snd (find_at fuel data p size_ u)) = true.
Proof. intros H Hp. rewrite find_at_snd, H. apply safe_load. exact Hp. Qed.

Lemma find_at_skip_safe (fuel : nat) (data : mem) (size_ : Z) (t : Terminator) (p : Z)
    (l : list ascii) (u : bool) :
  line_at data size_ t p l ->
  size_ < 2 ^ 64 ->
  p + llen t l < size_ ->
  (data p =? AT)%char = false ->
  safe_trace size_ (snd (find_at fuel data (p + llen t l) size_ (flag_after t 0 0 u))) = true ->
  safe_trace size_ (snd (find_at (S fuel) data p size_ u)) = true.
Proof.
  intros Hl Hsz Hnext Hb Hrest. rewrite find_at_snd, Hb. cbn [negb].
  pose proof (llen_pos t l) as Hpos.
  assert (Hr : p <= p < p + llen t l) by lia.
  rewrite (skip_line _ _ _ _ _ p u Hl Hr). cbn [fst snd].
  change (safe_trace size_
            ([Load p] ++ snd (SkipToEol data p size_ u)
             ++ snd (find_at fuel data (u64 (p + llen t l - 1 + 1)) size_
                       (flag_after t p (p + Z.of_nat (length l)) u))) = true).
  rewrite !safe_trace_app.
  rewrite (skip_line_safe _ _ _ _ _ p u Hl Hr Hnext).
  destruct Hl as (_ & _ & Hp & Hle & _).
  rewrite safe_load by lia.
  replace (p + llen t l - 1 + 1) with (p + llen t l) by lia.
  rewrite u64_small by lia.
  rewrite flag_after_start by lia.
  rewrite Hrest. reflexivity.
Qed.

(** The probe from a line whose follower begins with ['@']. *)
Lemma probe_quality_safe (data : mem) (size_ : Z) (t : Terminator) (p : Z) (l : list ascii)
    (u : bool) :
  line_at data size_ t p l ->
  size_ < 2 ^ 64 ->
  p + llen t l < size_ ->
  (data (p + llen t l) =? AT)%char = true ->
  safe_trace size_ (probe_trace data size_ p u) = true.
Proof.
  intros Hl Hsz Hnext Hb. unfold probe_trace. cbv zeta.
  pose proof (llen_pos t l) as Hpos.
  assert (Hr : p <= p < p + llen t l) by lia.
  rewrite (skip_line _ _ _ _ _ p u Hl Hr). cbn [fst snd].
  rewrite !safe_trace_app.
  rewrite (skip_line_safe _ _ _ _ _ p u Hl Hr Hnext).
  destruct Hl as (_ & _ & Hp & Hle & _).
  replace (p + llen t l - 1 + 1) with (p + llen t l) by lia.
  rewrite u64_small by lia.
  rewrite Hb. rewrite safe_load by lia. reflexivity.
Qed.

(** The probe from a name line: its sequence line and the first byte of the
    separator line behind it are loaded, and that byte is ['+']. *)
Lemma probe_name_safe (data : mem) (size_ : Z) (t : Terminator) (p : Z) (l l' : list ascii)
    (u : bool) :
  line_at data size_ t p l ->
  line_at data size_ t (p + llen t l) l' ->
  size_ < 2 ^ 64 ->
  p + llen t l + llen t l' < size_ ->
  (data (p + llen t l) =? AT)%char = false ->
  data (p + llen t l + llen t l') = PLUS ->
  safe_trace size_ (probe_trace data size_ p u) = true.
Proof.
  intros Hl Hl' Hsz Hnext Hb Hplus. unfold probe_trace. cbv zeta.
  pose proof (llen_pos t l) as Hpos. pose proof (llen_pos t l') as Hpos'.
  assert (Hr : p <= p < p + llen t l) by lia.
  rewrite (skip_line _ _ _ _ _ p u Hl Hr). cbn [fst snd].
  rewrite !safe_trace_app.
  rewrite (skip_line_safe _ _ _ _ _ p u Hl Hr) by lia.
  pose proof Hl as (_ & _ & Hp & Hle & _).
  replace (p + llen t l - 1 + 1) with (p + llen t l) by lia.
  rewrite u64_small by lia.
  rewrite Hb. rewrite safe_load by lia.
  assert (Hr' : p + llen t l <= p + llen t l < p + llen t l + llen t l') by lia.
  rewrite (skip_line _ _ _ _ _ _ _ Hl' Hr'). cbn [fst snd].
  rewrite !safe_trace_app.
  rewrite (skip_line_safe _ _ _ _ _ _ _ Hl' Hr' Hnext).
  replace (p + llen t l + llen t l' - 1 + 1) with (p + llen t l + llen t l') by lia.
  rewrite u64_small by lia.
  rewrite Hplus. rewrite safe_load by lia.
  unfold safe_trace. cbn [negb Ascii.eqb Bool.eqb PLUS forallb safe_event app].
  replace (0 <=? p + llen t l + llen t l') with true by (symmetry; apply Z.leb_le; lia).
  replace (p + llen t l + llen t l' <? size_) with true by (symmetry; apply Z.ltb_lt; lia).
  reflexivity.
Qed.

Lemma search_hit_safe (fuel : nat) (data : mem) (p size_ : Z) (u : bool) :
  (data p =? AT)%char = true -> 0 <= p < size_ ->
  safe_trace size_ (probe_trace data size_ p u) = true ->
  safe_trace size_ (search_trace fuel data size_ p u) = true.
Proof.
  intros H Hp Hprobe. unfold search_trace. cbv zeta.
  rewrite find_at_hit by exact H. rewrite safe_trace_app.
  rewrite find_at_snd, H. cbn [negb]. rewrite safe_load by exact Hp.
  exact Hprobe.
Qed.

Lemma search_skip_safe (fuel : nat) (data : mem) (size_ : Z) (t : Terminator) (p : Z)
    (l : list ascii) (u : bool) :
  line_at data size_ t p l ->
  size_ < 2 ^ 64 ->
  p + llen t l < size_ ->
  (data p =? AT)%char = false ->
  safe_trace size_ (search_trace fuel data size_ (p + llen t l) (flag_after t 0 0 u)) = true ->
  safe_trace size_ (search_trace (S fuel) data size_ p u) = true.
Proof.
  intros Hl Hsz Hnext Hb Hrest. unfold search_trace in *. cbv zeta in *.
  rewrite (find_at_skip _ _ _ _ _ _ u Hl Hsz Hb).
  rewrite safe_trace_app in *. apply andb_true_iff in Hrest. destruct Hrest as [H1 H2].
  rewrite H2, andb_true_r.
  apply (find_at_skip_safe _ _ _ _ _ _ u Hl Hsz Hnext Hb H1).
Qed.

Lemma search_from_quality_safe (data : mem) (size_ : Z) (t : Terminator) (o3 : Z)
    (q n1 s1 : list ascii) (fuel : nat) (u : bool) :
  line_at data size_ t o3 q ->
  line_at data size_ t (o3 + llen t q) n1 ->
  line_at data size_ t (o3 + llen t q + llen t n1) s1 ->
  size_ < 2 ^ 64 ->
  o3 + llen t q + llen t n1 + llen t s1 < size_ ->
  data (o3 + llen t q) = AT ->
  (data (o3 + llen t q + llen t n1) =? AT)%char = false ->
  data (o3 + llen t q + llen t n1 + llen t s1) = PLUS ->
  safe_trace size_ (search_trace (S fuel) data size_ o3 u) = true.
Proof.
  intros Hq Hn1 Hs1 Hsz Hnext Hat Hnot Hplus.
  pose proof (llen_pos t q) as Pq. pose proof (llen_pos t n1) as Pn1.
  pose proof (llen_pos t s1) as Ps1.
  assert (Hat' : (data (o3 + llen t q) =? AT)%char = true)
    by (rewrite Hat; apply Ascii.eqb_refl).
  assert (Ho3 : 0 <= o3) by (destruct Hq as (_ & _ & ? & _); assumption).
  destruct (data o3 =? AT)%char eqn:Hq0.
  - apply search_hit_safe; [exact Hq0 | lia |].
    apply (probe_quality_safe _ _ _ _ _ u Hq Hsz); [lia | exact Hat'].
  - apply (search_skip_safe _ _ _ _ _ _ u Hq Hsz); [lia | exact Hq0 |].
    apply search_hit_safe; [exact Hat' | lia |].
    apply (probe_name_safe _ _ _ _ _ _ _ Hn1 Hs1 Hsz Hnext Hnot Hplus).
Qed.

(** X24.  In a buffer that holds two consecutive well-formed four-line
    records [rk] and [rk1] from offset [base] on, inside the first [size_]
    bytes, a call of [GetNextRecordPos] from any offset of [rk] loads only
    bytes of the buffer (every index is in [0, size_)) and both of its
    ASSERTs hold, whatever the line terminator and whether or not the
    quality of [rk] begins with ['@']. *)
Theorem GetNextRecordPos_stays_in_buffer
    (data : mem) (size_ base : Z) (t : Terminator) (rk rk1 : FastqRecord)
    (pos : Z) (u : bool) (fuel : nat) :
  well_formed rk = true ->
  well_formed rk1 = true ->
  holds data base (render t rk ++ render t rk1) ->
  0 <= base ->
  base <= pos < base + Z.of_nat (length (render t rk)) ->
  base + Z.of_nat (length (render t rk)) + Z.of_nat (length (render t rk1)) <= size_ ->
  size_ < 2 ^ 64 ->
  (3 <= fuel)%nat ->
  safe_trace size_ (snd (GetNextRecordPos fuel data pos size_ u)) = true.
Proof.
  intros Hwk Hwk1 Hh Hbase Hpos Hsz H64 Hfuel.
  unfold well_formed in Hwk, Hwk1.
  repeat (match goal with H : _ && _ = true |- _ => apply andb_true_iff in H; destruct H end).
  match goal with H : negb (starts_with AT (rec_sequence rk)) = true |- _ =>
    apply negb_true_iff in H; rename H into Hs_at end.
  match goal with H : negb (starts_with AT (rec_sequence rk1)) = true |- _ =>
    apply negb_true_iff in H; rename H into Hs1_at end.
  assert (Hlines : lines_at data size_ t base (record_lines rk ++ record_lines rk1)).
  { apply lines_at_of_holds.
    - rewrite render_lines_app. exact Hh.
    - unfold record_lines. simpl.
      repeat (apply andb_true_iff; split); auto.
    - exact Hbase.
    - rewrite render_lines_app, length_app. unfold render in Hsz. lia. }
  rewrite render_length in *.
  unfold record_lines in Hlines. simpl in Hlines.
  destruct rk as [n s p q], rk1 as [n1 s1 p1 q1].
  cbn [rec_name rec_sequence rec_strand rec_quality] in *.
  destruct Hlines as (Ln & Ls & Lp & Lq & Ln1 & Ls1 & Lp1 & Hq1).
  pose proof (llen_pos t n) as Pn. pose proof (llen_pos t s) as Ps.
  pose proof (llen_pos t p) as Pp. pose proof (llen_pos t q) as Pq.
  pose proof (llen_pos t n1) as Pn1. pose proof (llen_pos t s1) as Ps1.
  pose proof (llen_pos t p1) as Pp1. pose proof (llen_pos t q1) as Pq1.
  assert (Bs : (data (base + llen t n) =? AT)%char = false).
  { destruct Ls as (Hs & _). rewrite (holds_first_byte _ _ _ _ Hs).
    apply first_byte_not_at. exact Hs_at. }
  assert (Bp : (data (base + llen t n + llen t s) =? AT)%char = false).
  { destruct Lp as (Hp & _). rewrite (holds_first_byte _ _ _ _ Hp).
    rewrite (starts_with_first_byte t PLUS) by assumption. reflexivity. }
  assert (Bn1 : data (base + llen t n + llen t s + llen t p + llen t q) = AT).
  { destruct Ln1 as (Hn1 & _). rewrite (holds_first_byte _ _ _ _ Hn1).
    apply starts_with_first_byte. assumption. }
  assert (Bs1 : (data (base + llen t n + llen t s + llen t p + llen t q + llen t n1)
                 =? AT)%char = false).
  { destruct Ls1 as (Hs1 & _). rewrite (holds_first_byte _ _ _ _ Hs1).
    apply first_byte_not_at. exact Hs1_at. }
  assert (Bp1 : data (base + llen t n + llen t s + llen t p + llen t q + llen t n1
                      + llen t s1) = PLUS).
  { destruct Lp1 as (Hp1 & _). rewrite (holds_first_byte _ _ _ _ Hp1).
    apply starts_with_first_byte. assumption. }
  assert (Hend : base + llen t n + llen t s + llen t p + llen t q + llen t n1
                 + llen t s1 < size_)
    by (destruct Lp1 as (_ & _ & _ & ? & _); lia).
  rewrite GetNextRecordPos_snd. cbv zeta.
  destruct fuel as [| [| [| fuel]]]; try lia.
  pose proof (search_from_quality_safe data size_ t
                (base + llen t n + llen t s + llen t p) q n1 s1) as Hsearch.
  specialize (fun f v => Hsearch f v Lq Ln1 Ls1 H64 Hend Bn1 Bs1 Bp1).
  assert (Hu64 : forall x, 0 <= x < size_ -> u64 (x - 1 + 1) = x).
  { intros x Hx. replace (x - 1 + 1) with x by lia. apply u64_small. lia. }
  rewrite safe_trace_app.
  destruct (Z_lt_ge_dec pos (base + llen t n)) as [C0 | C0].
  { (* in the name line *)
    rewrite (skip_line_safe _ _ _ _ _ pos u Ln) by lia.
    rewrite (skip_line _ _ _ _ _ pos u Ln) by lia. cbn [fst snd andb].
    rewrite Hu64 by lia.
    apply (search_skip_safe _ _ _ _ _ _ _ Ls H64); [lia | exact Bs |].
    apply (search_skip_safe _ _ _ _ _ _ _ Lp H64); [lia | exact Bp |].
    apply Hsearch. }
  destruct (Z_lt_ge_dec pos (base + llen t n + llen t s)) as [C1 | C1].
  { (* in the sequence line *)
    rewrite (skip_line_safe _ _ _ _ _ pos u Ls) by lia.
    rewrite (skip_line _ _ _ _ _ pos u Ls) by lia. cbn [fst snd andb].
    rewrite Hu64 by lia.
    apply (search_skip_safe _ _ _ _ _ _ _ Lp H64); [lia | exact Bp |].
    apply Hsearch. }
  destruct (Z_lt_ge_dec pos (base + llen t n + llen t s + llen t p)) as [C2 | C2].
  { (* in the separator line *)
    rewrite (skip_line_safe _ _ _ _ _ pos u Lp) by lia.
    rewrite (skip_line _ _ _ _ _ pos u Lp) by lia. cbn [fst snd andb].
    rewrite Hu64 by lia.
    apply Hsearch. }
  (* in the quality line *)
  rewrite (skip_line_safe _ _ _ _ _ pos u Lq) by lia.
  rewrite (skip_line _ _ _ _ _ pos u Lq) by lia. cbn [fst snd andb].
  rewrite Hu64 by lia.
  apply search_hit_safe; [rewrite Bn1; apply Ascii.eqb_refl | lia |].
  apply (probe_name_safe _ _ _ _ _ _ _ Ln1 Ls1 H64 Hend Bs1 Bp1).
Qed.

(** The theorem at work on CR-LF lines, from the last byte of the first
    record, whose quality begins with ['@']. *)
Lemma GetNextRecordPos_stays_in_buffer_witness :
  let rk := {| rec_name := bytes "@r1"; rec_sequence := bytes "ACGT";
               rec_strand := bytes "+"; rec_quality := bytes "@III" |} in
  let rk1 := {| rec_name := bytes "@r2"; rec_sequence := bytes "GGCC";
                rec_strand := bytes "+"; rec_quality := bytes "IIII" |} in
  let data := ptr zeros (render TermCRLF rk ++ render TermCRLF rk1) in
  (well_formed rk = true /\ well_formed rk1 = true
   /\ holds data 0 (render TermCRLF rk ++ render TermCRLF rk1)
   /\ 0 <= 19 < 20 /\ 40 <= 40 < 2 ^ 64 /\ (3 <= 3)%nat)
  /\ safe_trace 40 (snd (GetNextRecordPos 3 data 19 40 false)) = true.
Proof.
  intros rk rk1 data.
  assert (Hh : holds data 0 (render TermCRLF rk ++ render TermCRLF rk1))
    by apply holds_ptr.
  split.
  - repeat split; try reflexivity; try lia. exact Hh.
  - apply (GetNextRecordPos_stays_in_buffer data 40 0 TermCRLF rk rk1 19 false 3);
      try reflexivity; try exact Hh; try (vm_compute; intuition discriminate); lia.
Defined.

End BoundsFacts.

Module RoundFacts.

Import FastqChunkReaderPair Aux ReaderAux SessionAux ScannerFacts SkipFacts RecordFacts
       SplitterFacts CrlfFacts StreamFacts ChunkFacts LastRoundFacts.

(** *** A chunk that is filled: the scan for the cut *)

(** The scan of [GetNextRecordPos] over two consecutive records, as in C3. *)
Lemma scan_next_record
    (data : mem) (size_ base : Z) (t : Terminator) (rk rk1 : FastqRecord)
    (pos : Z) (u : bool) (fuel : nat) :
  well_formed rk = true ->
  well_formed rk1 = true ->
  holds data base (render t rk ++ render t rk1) ->
  0 <= base ->
  base <= pos < base + Z.of_nat (length (render t rk)) ->
  base + Z.of_nat (length (render t rk)) + Z.of_nat (length (render t rk1)) <= size_ ->
  size_ < 2 ^ 64 ->
  (3 <= fuel)%nat ->
  fst (GetNextRecordPos fuel data pos size_ u)
  = Some (base + Z.of_nat (length (render t rk)), flag_after t 0 0 u).
Proof.
  intros Hwk Hwk1 Hh Hbase Hpos Hsz H64 Hfuel.
  unfold well_formed in Hwk, Hwk1.
  repeat (match goal with H : _ && _ = true |- _ => apply andb_true_iff in H; destruct H end).
  match goal with H : negb (starts_with AT (rec_sequence rk)) = true |- _ =>
    apply negb_true_iff in H; rename H into Hs_at end.
  match goal with H : negb (starts_with AT (rec_sequence rk1)) = true |- _ =>
    apply negb_true_iff in H; rename H into Hs1_at end.
  assert (Hlines : lines_at data size_ t base (record_lines rk ++ record_lines rk1)).
  { apply lines_at_of_holds.
    - rewrite render_lines_app. exact Hh.
    - unfold record_lines. simpl.
      repeat (apply andb_true_iff; split); auto.
    - exact Hbase.
    - rewrite render_lines_app, length_app. unfold render in Hsz. lia. }
  rewrite render_length in *.
  unfold record_lines in Hlines. simpl in Hlines.
  destruct rk as [n s p q], rk1 as [n1 s1 p1 q1].
  cbn [rec_name rec_sequence rec_strand rec_quality] in *.
  destruct Hlines as (Ln & Ls & Lp & Lq & Ln1 & Ls1 & Lp1 & Hq1).
  pose proof (llen_pos t n) as Pn. pose proof (llen_pos t s) as Ps.
  pose proof (llen_pos t p) as Pp. pose proof (llen_pos t q) as Pq.
  assert (Bs : (data (base + llen t n) =? AT)%char = false).
  { destruct Ls as (Hs & _). rewrite (holds_first_byte _ _ _ _ Hs).
    apply first_byte_not_at. exact Hs_at. }
  assert (Bp : (data (base + llen t n + llen t s) =? AT)%char = false).
  { destruct Lp as (Hp & _). rewrite (holds_first_byte _ _ _ _ Hp).
    rewrite (starts_with_first_byte t PLUS) by assumption. reflexivity. }
  assert (Bn1 : data (base + llen t n + llen t s + llen t p + llen t q) = AT).
  { destruct Ln1 as (Hn1 & _). rewrite (holds_first_byte _ _ _ _ Hn1).
    apply starts_with_first_byte. assumption. }
  assert (Bs1 : (data (base + llen t n + llen t s + llen t p + llen t q + llen t n1)
                 =? AT)%char = false).
  { destruct Ls1 as (Hs1 & _). rewrite (holds_first_byte _ _ _ _ Hs1).
    apply first_byte_not_at. exact Hs1_at. }
  replace (base + (llen t n + llen t s + llen t p + llen t q))
    with (base + llen t n + llen t s + llen t p + llen t q) in * by lia.
  rewrite GetNextRecordPos_eq. cbv zeta.
  destruct fuel as [| [| [| fuel]]]; try lia.
  pose proof (search_from_quality data size_ t
                (base + llen t n + llen t s + llen t p) q n1 s1) as Hsearch.
  specialize (fun f v => Hsearch f v Lq Ln1 Ls1 H64 Bn1 Bs1).
  assert (Hu64 : forall x, 0 <= x < size_ -> u64 (x - 1 + 1) = x).
  { intros x Hx. replace (x - 1 + 1) with x by lia. apply u64_small. lia. }
  destruct (Z_lt_ge_dec pos (base + llen t n)) as [C0 | C0].
  { rewrite (skip_line _ _ _ _ _ pos u Ln) by lia. cbn [fst snd].
    rewrite Hu64 by (destruct Ls as (_ & _ & _ & ? & _); lia).
    rewrite (find_at_skip _ _ _ _ _ _ _ Ls H64 Bs).
    rewrite (find_at_skip _ _ _ _ _ _ _ Lp H64 Bp).
    rewrite Hsearch. rewrite !flag_after_absorb. reflexivity. }
  destruct (Z_lt_ge_dec pos (base + llen t n + llen t s)) as [C1 | C1].
  { rewrite (skip_line _ _ _ _ _ pos u Ls) by lia. cbn [fst snd].
    rewrite Hu64 by (destruct Lp as (_ & _ & _ & ? & _); lia).
    rewrite (find_at_skip _ _ _ _ _ _ _ Lp H64 Bp).
    rewrite Hsearch. rewrite !flag_after_absorb. reflexivity. }
  destruct (Z_lt_ge_dec pos (base + llen t n + llen t s + llen t p)) as [C2 | C2].
  { rewrite (skip_line _ _ _ _ _ pos u Lp) by lia. cbn [fst snd].
    rewrite Hu64 by (destruct Lq as (_ & _ & _ & ? & _); lia).
    rewrite Hsearch. rewrite !flag_after_absorb. reflexivity. }
  rewrite (skip_line _ _ _ _ _ pos u Lq) by lia. cbn [fst snd].
  rewrite Hu64 by (destruct Ln1 as (_ & _ & _ & ? & _); pose proof (llen_pos t n1); lia).
  rewrite find_at_hit by (rewrite Bn1; apply Ascii.eqb_refl).
  rewrite (probe_name _ _ _ _ _ _ _ Ln1 Ls1 H64 Bs1).
  rewrite flag_after_absorb. reflexivity.
Qed.

(** A refill is lost only when the chunk was filled and the scan ran out of
    its bound. *)
Lemma refill_lost (tmp : Z) (wild : mem) (fuel : nat) (short zero : message)
    (buf swap : list ascii) (bufferSize : Z) (src : list ascii) (u : bool) :
  refill tmp wild fuel short zero buf swap bufferSize src u = None ->
  let cbufSize := Z.of_nat (length buf) in
  let size0 := if bufferSize >? 0 then bufferSize else 0 in
  let got := firstn (Z.to_nat (cbufSize - bufferSize)) src in
  fst (GetNextRecordPos fuel
         (ptr wild (store (if bufferSize >? 0 then store buf 0 (slice swap 0 bufferSize)
                           else buf) size0 got))
         (u64 (cbufSize - tmp)) cbufSize u) = None.
Proof.
  unfold refill, Read. intros H. cbv zeta.
  set (toRead := Z.of_nat (length buf) - bufferSize) in *.
  destruct (bufferSize >? 0) eqn:Hb;
    (destruct (Z.of_nat (length (firstn (Z.to_nat toRead) src)) >? 0) eqn:Hr;
     [ destruct (Z.of_nat (length (firstn (Z.to_nat toRead) src)) =? toRead) eqn:Hfull;
       [ match type of H with
         | match ?g with _ => _ end = _ => destruct g as [[c u'] |] eqn:Hg; [discriminate |]
         end; reflexivity
       | discriminate ]
     | discriminate ]).
Qed.


(** The bytes a chunk holds when it was filled. *)
Lemma filled_data (buf swap src : list ascii) (b : Z) :
  0 <= b <= Z.of_nat (length swap) ->
  b < Z.of_nat (length buf) ->
  Z.of_nat (length buf) - b <= Z.of_nat (length src) ->
  store (if b >? 0 then store buf 0 (slice swap 0 b) else buf)
        (if b >? 0 then b else 0) (firstn (Z.to_nat (Z.of_nat (length buf) - b)) src)
  = firstn (length buf) (firstn (Z.to_nat b) swap ++ src).
Proof.
  intros Hb Hcap Hsrc.
  assert (Hg : length (firstn (Z.to_nat (Z.of_nat (length buf) - b)) src)
               = Z.to_nat (Z.of_nat (length buf) - b)) by (rewrite length_firstn; lia).
  rewrite refill_data by lia.
  rewrite Hg. rewrite skipn_all2 by lia. rewrite app_nil_r.
  rewrite firstn_app.
  rewrite (firstn_all2 (firstn (Z.to_nat b) swap)) by (rewrite length_firstn; lia).
  f_equal. rewrite length_firstn. f_equal. lia.
Qed.

(** A refill that fills its chunk with bytes among which two consecutive
    well-formed records lie around the start of the scan: the cut is the
    start of the second record, and [usesCrlf] is set when their lines end
    with ["\r\n"]. *)
Lemma refill_full (tmp : Z) (wild : mem) (fuel : nat) (short zero : message)
    (buf swap : list ascii) (b : Z) (src : list ascii) (u : bool)
    (t : Terminator) (rk rk1 : FastqRecord) (pre post : list ascii) :
  0 <= b <= Z.of_nat (length swap) ->
  b < Z.of_nat (length buf) ->
  Z.of_nat (length buf) - b <= Z.of_nat (length src) ->
  Z.of_nat (length buf) < 2 ^ 63 ->
  (3 <= fuel)%nat ->
  well_formed rk = true -> well_formed rk1 = true ->
  firstn (length buf) (firstn (Z.to_nat b) swap ++ src)
  = pre ++ render t rk ++ render t rk1 ++ post ->
  Z.of_nat (length pre) <= Z.of_nat (length buf) - tmp
  < Z.of_nat (length pre) + Z.of_nat (length (render t rk)) ->
  exists L,
    refill tmp wild fuel short zero buf swap b src u = Some L
    /\ r_data L = firstn (length buf) (firstn (Z.to_nat b) swap ++ src)
    /\ r_chunkEnd L = Z.of_nat (length pre) + Z.of_nat (length (render t rk))
    /\ r_cbufSize L = Z.of_nat (length buf)
    /\ r_usesCrlf L = flag_after t 0 0 u
    /\ r_eof L = false /\ r_abort L = false /\ r_out L = []
    /\ r_rest L = skipn (Z.to_nat (Z.of_nat (length buf) - b)) src
    /\ r_bufferSize L = 0.
Proof.
  intros Hb Hcap Hsrc H63 Hfuel Hwk Hwk1 Hdata Hpos.
  set (cap := Z.of_nat (length buf)) in *.
  set (D := firstn (length buf) (firstn (Z.to_nat b) swap ++ src)) in *.
  assert (HlenD : Z.of_nat (length D) <= cap) by (unfold D; rewrite length_firstn; lia).
  assert (Hfit : Z.of_nat (length pre) + Z.of_nat (length (render t rk))
                 + Z.of_nat (length (render t rk1)) <= cap).
  { rewrite Hdata in HlenD. rewrite !length_app in HlenD. lia. }
  assert (Hscan : fst (GetNextRecordPos fuel (ptr wild D) (u64 (cap - tmp)) cap u)
                  = Some (Z.of_nat (length pre) + Z.of_nat (length (render t rk)),
                          flag_after t 0 0 u)).
  { rewrite u64_small by lia.
    apply scan_next_record with (rk1 := rk1); try assumption; try lia.
    rewrite Hdata.
    replace (pre ++ render t rk ++ render t rk1 ++ post)
      with (pre ++ (render t rk ++ render t rk1) ++ post)
      by (rewrite <- !app_assoc; reflexivity).
    apply holds_ptr_app. }
  pose proof (filled_data buf swap src b Hb Hcap Hsrc) as HD. fold cap D in HD.
  destruct (refill tmp wild fuel short zero buf swap b src u) as [L |] eqn:HL.
  2:{ apply refill_lost in HL. cbv zeta in HL. fold cap in HL.
      rewrite HD, Hscan in HL. discriminate HL. }
  exists L. split; [reflexivity |].
  apply refill_cases in HL. cbv zeta in HL. fold cap in HL.
  destruct HL as (Hd & Hrest & Hbs & Hcases).
  rewrite HD in Hd.
  assert (Hr : Z.of_nat (length (firstn (Z.to_nat (cap - b)) src)) = cap - b)
    by (rewrite length_firstn; lia).
  destruct Hcases as [Hc | [Hc | Hc]].
  - destruct Hc as (_ & _ & (c & Hg & Hce) & _ & Hcb & He & Hab & Hout).
    rewrite Hd, Hscan in Hg. injection Hg as <- Hu.
    split; [exact Hd |].
    split; [rewrite Hce; apply i64_small; lia |].
    split; [exact Hcb |]. split; [symmetry; exact Hu |].
    split; [exact He |]. split; [exact Hab |]. split; [exact Hout |].
    split; [exact Hrest |].
    rewrite Hbs. destruct (b >? 0) eqn:E; lia.
  - destruct Hc as (_ & Hne & _). lia.
  - destruct Hc as (Hz & _). lia.
Qed.

(** *** The re-synchronisation: where the cuts end up and what the sizes are *)

Lemma walk_left_range (n : nat) :
  forall (data : mem) (p d : Z),
    -1 <= p -> -1 <= fst (walk_left n data p d) <= p + 1.
Proof.
  induction n as [| n IH]; intros data p d Hp; cbn [walk_left fst]; [lia |].
  destruct (p >=? 0) eqn:Hp0; [| cbn [fst]; lia].
  destruct (data p =? LF)%char.
  - destruct (d - 1 =? -1); cbn [fst]; [lia |].
    specialize (IH data (p - 1) (d - 1)). lia.
  - specialize (IH data (p - 1) d). lia.
Qed.

Lemma resync_cuts (wild : mem) (dl : list ascii) (cl cbl : Z)
    (dr : list ascii) (cr cbr : Z) (u : bool) (swl swr : list ascii) :
  -1 <= cl -> -1 <= cr ->
  let y := resync wild dl cl cbl dr cr cbr u swl swr in
  -1 <= y_chunkEnd y <= cl + 1 /\ -1 <= y_chunkEnd_right y <= cr + 1.
Proof.
  intros Hcl Hcr. unfold resync. cbv zeta.
  destruct (count_line (ptr wild dl) cl - count_line (ptr wild dr) cr >? 0).
  - cbn [y_chunkEnd y_chunkEnd_right].
    pose proof (walk_left_range (Z.to_nat (cl + 1)) (ptr wild dl) cl
                  (count_line (ptr wild dl) cl - count_line (ptr wild dr) cr) Hcl). lia.
  - destruct (count_line (ptr wild dl) cl - count_line (ptr wild dr) cr <? 0).
    + cbn [y_chunkEnd y_chunkEnd_right]. rewrite BalanceFacts.walk_right_left.
      pose proof (walk_left_range (Z.to_nat (cr + 1)) (ptr wild dr) cr
                    (- (count_line (ptr wild dl) cl - count_line (ptr wild dr) cr)) Hcr). lia.
    + cbn [y_chunkEnd y_chunkEnd_right]. lia.
Qed.

(** The [uint64] size of a cut [c]: [c - 1], less one more with [usesCrlf],
    modulo 2^64. *)
Lemma size_of_cut (c : Z) (u : bool) :
  -1 <= c < 2 ^ 64 ->
  (if u then u64 (u64_of_i64 (c - 1) - 1) else u64_of_i64 (c - 1))
  = u64 (c - (if u then 2 else 1)).
Proof.
  intros Hc.
  assert (H1 : u64_of_i64 (c - 1) = u64 (c - 1)).
  { unfold u64_of_i64, u64. destruct (c - 1 <? 0) eqn:E.
    - apply Z.ltb_lt in E.
      rewrite <- (Z_mod_plus_full (c - 1) 1 (2 ^ 64)).
      rewrite Z.mod_small by lia. lia.
    - apply Z.ltb_ge in E. rewrite Z.mod_small by lia. reflexivity. }
  rewrite H1. destruct u; [| reflexivity].
  unfold u64. rewrite Zminus_mod_idemp_l. f_equal. lia.
Qed.


(** *** A call that fills both chunks *)

Lemma round_full (tmp : Z) (wild : mem) (fuel : nat) (s : t)
    (bufL bufR : list ascii) (restL restR : list (list ascii))
    (tL tR : Terminator) (rkL rk1L rkR rk1R : FastqRecord)
    (preL postL preR postR : list ascii) :
  eof s = false ->
  available (fastqPool_left s) = bufL :: restL ->
  available (fastqPool_right s) = bufR :: restR ->
  (3 <= fuel)%nat ->
  0 <= bufferSize_left s <= Z.of_nat (length (swapBuffer_left s)) ->
  bufferSize_left s < Z.of_nat (length bufL) ->
  Z.of_nat (length bufL) - bufferSize_left s <= Z.of_nat (length (mLeft s)) ->
  Z.of_nat (length bufL) < 2 ^ 63 ->
  well_formed rkL = true -> well_formed rk1L = true ->
  firstn (length bufL) (pending_left s) = preL ++ render tL rkL ++ render tL rk1L ++ postL ->
  Z.of_nat (length preL) <= Z.of_nat (length bufL) - tmp
  < Z.of_nat (length preL) + Z.of_nat (length (render tL rkL)) ->
  0 <= bufferSize_right s <= Z.of_nat (length (swapBuffer_right s)) ->
  bufferSize_right s < Z.of_nat (length bufR) ->
  Z.of_nat (length bufR) - bufferSize_right s <= Z.of_nat (length (mRight s)) ->
  Z.of_nat (length bufR) < 2 ^ 63 ->
  well_formed rkR = true -> well_formed rk1R = true ->
  firstn (length bufR) (pending_right s) = preR ++ render tR rkR ++ render tR rk1R ++ postR ->
  Z.of_nat (length preR) <= Z.of_nat (length bufR) - tmp
  < Z.of_nat (length preR) + Z.of_nat (length (render tR rkR)) ->
  let u' := flag_after tR 0 0 (flag_after tL 0 0 (usesCrlf s)) in
  let y := resync wild (firstn (length bufL) (pending_left s))
             (Z.of_nat (length preL) + Z.of_nat (length (render tL rkL)))
             (Z.of_nat (length bufL))
             (firstn (length bufR) (pending_right s))
             (Z.of_nat (length preR) + Z.of_nat (length (render tR rkR)))
             (Z.of_nat (length bufR))
             u' (swapBuffer_left s) (swapBuffer_right s) in
  exists p s',
    readNextChunkPair_interleaved tmp wild fuel s = Returned (Some p) s'
    /\ data (leftpart p) = firstn (length bufL) (pending_left s)
    /\ size (leftpart p) = y_size_left y
    /\ data (rightpart p) = firstn (length bufR) (pending_right s)
    /\ size (rightpart p) = y_size_right y
    /\ mLeft s' = skipn (Z.to_nat (Z.of_nat (length bufL) - bufferSize_left s)) (mLeft s)
    /\ mRight s' = skipn (Z.to_nat (Z.of_nat (length bufR) - bufferSize_right s)) (mRight s)
    /\ available (fastqPool_left s') = restL
    /\ available (fastqPool_right s') = restR
    /\ swapBuffer_left s' = y_swapBuffer_left y
    /\ swapBuffer_right s' = y_swapBuffer_right y
    /\ bufferSize_left s' = y_bufferSize_left y
    /\ bufferSize_right s' = y_bufferSize_right y
    /\ eof s' = false /\ usesCrlf s' = u'.
Proof.
  intros Heof HaL HaR Hfuel HbL HcL HsL H63L HwL Hw1L HdL HpL
         HbR HcR HsR H63R HwR Hw1R HdR HpR.
  unfold pending_left in *. unfold pending_right in *.
  destruct (refill_full tmp wild fuel Read1Short Read1Zero bufL (swapBuffer_left s)
              (bufferSize_left s) (mLeft s) (usesCrlf s) tL rkL rk1L preL postL
              HbL HcL HsL H63L Hfuel HwL Hw1L HdL HpL)
    as (L & HL & HLd & HLc & HLcb & HLu & HLe & HLa & HLo & HLr & HLb).
  destruct (refill_full tmp wild fuel Read2Short Read2Zero bufR (swapBuffer_right s)
              (bufferSize_right s) (mRight s) (r_usesCrlf L) tR rkR rk1R preR postR
              HbR HcR HsR H63R Hfuel HwR Hw1R HdR HpR)
    as (R & HR & HRd & HRc & HRcb & HRu & HRe & HRa & HRo & HRr & HRb).
  cbv zeta.
  unfold readNextChunkPair_interleaved, Acquire.
  rewrite HaL, HaR, Heof, HL, HLa, HR, HRa. cbv zeta.
  rewrite HLe, HRe. cbn [andb orb negb].
  do 2 eexists. split; [reflexivity |].
  cbn [leftpart rightpart data size mLeft mRight fastqPool_left fastqPool_right available
       swapBuffer_left swapBuffer_right bufferSize_left bufferSize_right eof usesCrlf].
  rewrite HLd, HRd, HLc, HRc, HLcb, HRcb, HRu, HLu, HLr, HRr.
  repeat split.
Qed.

(** *** [usesCrlf] over a call *)

(** A call in which both files end. *)
Lemma round_last (tmp : Z) (wild : mem) (fuel : nat) (s : t)
    (bufL bufR : list ascii) (restL restR : list (list ascii)) (L R : refilled) :
  eof s = false ->
  available (fastqPool_left s) = bufL :: restL ->
  available (fastqPool_right s) = bufR :: restR ->
  refill tmp wild fuel Read1Short Read1Zero bufL (swapBuffer_left s) (bufferSize_left s)
    (mLeft s) (usesCrlf s) = Some L ->
  r_abort L = false -> r_eof L = true ->
  refill tmp wild fuel Read2Short Read2Zero bufR (swapBuffer_right s) (bufferSize_right s)
    (mRight s) (r_usesCrlf L) = Some R ->
  r_abort R = false -> r_eof R = true ->
  exists p s',
    readNextChunkPair_interleaved tmp wild fuel s = Returned (Some p) s'
    /\ data (leftpart p) = r_data L /\ size (leftpart p) = r_size L
    /\ data (rightpart p) = r_data R /\ size (rightpart p) = r_size R
    /\ eof s' = true
    /\ mLeft s' = r_rest L /\ mRight s' = r_rest R
    /\ bufferSize_left s' = r_bufferSize L /\ bufferSize_right s' = r_bufferSize R
    /\ available (fastqPool_left s') = restL /\ available (fastqPool_right s') = restR
    /\ usesCrlf s' = r_usesCrlf R.
Proof.
  intros Heof HaL HaR HL HabL HeL HR HabR HeR.
  unfold readNextChunkPair_interleaved, Acquire.
  rewrite HaL, HaR, Heof, HL, HabL, HR, HabR. cbv zeta.
  rewrite HeL, HeR. cbn [andb negb].
  do 2 eexists. split; [reflexivity |]. cbn. repeat split.
Qed.


(** A refill that does not fill its chunk leaves [usesCrlf] alone. *)
Lemma refill_unfilled (tmp : Z) (wild : mem) (fuel : nat) (short zero : message)
    (buf swap : list ascii) (b : Z) (src : list ascii) (u : bool) (L : refilled) :
  refill tmp wild fuel short zero buf swap b src u = Some L ->
  Z.of_nat (length src) < Z.of_nat (length buf) - b ->
  r_usesCrlf L = u.
Proof.
  intros H Hlt. apply refill_cases in H. cbv zeta in H.
  destruct H as (_ & _ & _ & [Hc | [Hc | Hc]]).
  - destruct Hc as (_ & Hfull & _). rewrite length_firstn in Hfull. lia.
  - destruct Hc as (_ & _ & _ & _ & _ & _ & Hx & _). exact Hx.
  - destruct Hc as (_ & _ & _ & _ & _ & Hx & _). exact Hx.
Qed.

Lemma flag_after_or (tL tR : Terminator) (u : bool) :
  flag_after tR 0 0 (flag_after tL 0 0 u) = u || ends_crlf tL || ends_crlf tR.
Proof. destruct tL, tR, u; reflexivity. Qed.

(** C7, as the code has it.  [usesCrlf] is a latch over the scans for the
    cuts.  A call never resets it.  A call in which neither file fills its
    chunk scans nothing and leaves the flag as it was, whatever ends the
    lines of the files.  A call that fills both chunks, with two consecutive
    well-formed records around the start of the scan in each, returns a pair
    and leaves the flag set exactly when it was set before or the lines of
    those records end with ["\r\n"] on either side; and both sizes are set
    with the flag as the call leaves it: each chunk's [size] is its
    capacity, less the bytes carried over to the next call, less 1, or less
    2 when the flag is set, as a [uint64].  A call in which both files
    deliver their last bytes returns a pair with the flag as it was, and
    each [size] is the number of bytes carried over and read, less 1, or
    less 2 when the flag is set, as a [uint64]. *)
Theorem usesCrlf_after_call :
  (forall (tmp : Z) (wild : mem) (fuel : nat) (s s' : t) (p : option ChunkPair),
      readNextChunkPair_interleaved tmp wild fuel s = Returned p s' ->
      usesCrlf s = true -> usesCrlf s' = true)
  /\ (forall (tmp : Z) (wild : mem) (fuel : nat) (s s' : t) (p : option ChunkPair)
            (bufL bufR : list ascii) (restL restR : list (list ascii)),
         available (fastqPool_left s) = bufL :: restL ->
         available (fastqPool_right s) = bufR :: restR ->
         Z.of_nat (length (mLeft s)) < Z.of_nat (length bufL) - bufferSize_left s ->
         Z.of_nat (length (mRight s)) < Z.of_nat (length bufR) - bufferSize_right s ->
         readNextChunkPair_interleaved tmp wild fuel s = Returned p s' ->
         usesCrlf s' = usesCrlf s)
  /\ (forall (tmp : Z) (wild : mem) (fuel : nat) (s : t)
            (bufL bufR : list ascii) (restL restR : list (list ascii))
            (tL tR : Terminator) (rkL rk1L rkR rk1R : FastqRecord)
            (preL postL preR postR : list ascii),
         eof s = false ->
         available (fastqPool_left s) = bufL :: restL ->
         available (fastqPool_right s) = bufR :: restR ->
         (3 <= fuel)%nat ->
         0 <= bufferSize_left s <= Z.of_nat (length (swapBuffer_left s)) ->
         bufferSize_left s < Z.of_nat (length bufL) ->
         Z.of_nat (length bufL) - bufferSize_left s <= Z.of_nat (length (mLeft s)) ->
         Z.of_nat (length bufL) < 2 ^ 63 ->
         well_formed rkL = true -> well_formed rk1L = true ->
         firstn (length bufL) (pending_left s)
         = preL ++ render tL rkL ++ render tL rk1L ++ postL ->
         Z.of_nat (length preL) <= Z.of_nat (length bufL) - tmp
         < Z.of_nat (length preL) + Z.of_nat (length (render tL rkL)) ->
         0 <= bufferSize_right s <= Z.of_nat (length (swapBuffer_right s)) ->
         bufferSize_right s < Z.of_nat (length bufR) ->
         Z.of_nat (length bufR) - bufferSize_right s <= Z.of_nat (length (mRight s)) ->
         Z.of_nat (length bufR) < 2 ^ 63 ->
         well_formed rkR = true -> well_formed rk1R = true ->
         firstn (length bufR) (pending_right s)
         = preR ++ render tR rkR ++ render tR rk1R ++ postR ->
         Z.of_nat (length preR) <= Z.of_nat (length bufR) - tmp
         < Z.of_nat (length preR) + Z.of_nat (length (render tR rkR)) ->
         exists p s',
           readNextChunkPair_interleaved tmp wild fuel s = Returned (Some p) s'
           /\ usesCrlf s' = usesCrlf s || ends_crlf tL || ends_crlf tR
           /\ size (leftpart p)
              = u64 (Z.of_nat (length bufL) - bufferSize_left s' - width s')
           /\ size (rightpart p)
              = u64 (Z.of_nat (length bufR) - bufferSize_right s' - width s'))
  /\ (forall (tmp : Z) (wild : mem) (fuel : nat) (s : t)
            (bufL bufR : list ascii) (restL restR : list (list ascii)),
         eof s = false ->
         available (fastqPool_left s) = bufL :: restL ->
         available (fastqPool_right s) = bufR :: restR ->
         0 <= bufferSize_left s <= Z.of_nat (length (swapBuffer_left s)) ->
         0 <= bufferSize_right s <= Z.of_nat (length (swapBuffer_right s)) ->
         0 < Z.of_nat (length (mLeft s)) -> 0 < Z.of_nat (length (mRight s)) ->
         bufferSize_left s + Z.of_nat (length (mLeft s)) < Z.of_nat (length bufL) ->
         bufferSize_right s + Z.of_nat (length (mRight s)) < Z.of_nat (length bufR) ->
         exists p s',
           readNextChunkPair_interleaved tmp wild fuel s = Returned (Some p) s'
           /\ usesCrlf s' = usesCrlf s
           /\ size (leftpart p) = u64 (Z.of_nat (length (pending_left s)) - width s)
           /\ size (rightpart p) = u64 (Z.of_nat (length (pending_right s)) - width s)).
Proof.
  split; [exact readNextChunkPair_interleaved_latch |].
  split; [| split].
  - intros tmp wild fuel s s' p bufL bufR restL restR HaL HaR HlL HlR H.
    unfold readNextChunkPair_interleaved, Acquire in H. rewrite HaL, HaR in H.
    destruct (eof s).
    { injection H as _ <-. reflexivity. }
    destruct (refill tmp wild fuel Read1Short Read1Zero bufL _ _ _ _) as [L |] eqn:HL;
      [| discriminate].
    pose proof (refill_unfilled _ _ _ _ _ _ _ _ _ _ _ HL HlL) as HuL.
    destruct (r_abort L).
    { injection H as _ <-. exact HuL. }
    rewrite HuL in H.
    destruct (refill tmp wild fuel Read2Short Read2Zero bufR _ _ _ _) as [R |] eqn:HR;
      [| discriminate].
    pose proof (refill_unfilled _ _ _ _ _ _ _ _ _ _ _ HR HlR) as HuR.
    destruct (r_abort R).
    { injection H as _ <-. exact HuR. }
    cbv zeta in H.
    destruct (negb (if r_eof L && r_eof R then true else false));
      injection H as _ <-; exact HuR.
  - intros tmp wild fuel s bufL bufR restL restR tL tR rkL rk1L rkR rk1R
           preL postL preR postR
           Heof HaL HaR Hfuel HbL HcL HsL H63L HwL Hw1L HdL HpL
           HbR HcR HsR H63R HwR Hw1R HdR HpR.
    destruct (round_full tmp wild fuel s bufL bufR restL restR tL tR rkL rk1L rkR rk1R
                preL postL preR postR
                Heof HaL HaR Hfuel HbL HcL HsL H63L HwL Hw1L HdL HpL
                HbR HcR HsR H63R HwR Hw1R HdR HpR)
      as (p & s' & Hcall & _ & HszL & _ & HszR & _ & _ & _ & _ & _ & _ & HbL' & HbR' & _ & Hu').
    cbv zeta in HszL, HszR, HbL', HbR', Hu'.
    assert (HfitL : Z.of_nat (length preL) + Z.of_nat (length (render tL rkL))
                    <= Z.of_nat (length bufL)).
    { apply (f_equal (@length ascii)) in HdL.
      rewrite length_firstn, !length_app in HdL. lia. }
    assert (HfitR : Z.of_nat (length preR) + Z.of_nat (length (render tR rkR))
                    <= Z.of_nat (length bufR)).
    { apply (f_equal (@length ascii)) in HdR.
      rewrite length_firstn, !length_app in HdR. lia. }
    exists p, s'. split; [exact Hcall |].
    split; [rewrite Hu'; apply flag_after_or |].
    match type of HszL with
    | _ = y_size_left (resync ?w ?dl ?cl ?cbl ?dr ?cr ?cbr ?u ?swl ?swr) =>
        pose proof (resync_sizes w dl cl cbl dr cr cbr u swl swr) as Hy;
        assert (Hcl0 : -1 <= cl) by lia;
        assert (Hcr0 : -1 <= cr) by lia;
        pose proof (resync_cuts w dl cl cbl dr cr cbr u swl swr Hcl0 Hcr0) as Hcuts;
        cbv zeta in Hy, Hcuts;
        set (y := resync w dl cl cbl dr cr cbr u swl swr) in *
    end.
    destruct Hy as (HyL & HyR & HybL & HybR & _).
    destruct Hcuts as [HcutL HcutR].
    unfold width. rewrite HszL, HszR, HbL', HbR', Hu', HyL, HyR, HybL, HybR.
    split.
    + rewrite size_of_cut by lia. f_equal. lia.
    + rewrite size_of_cut by lia. f_equal. lia.
  - intros tmp wild fuel s bufL bufR restL restR Heof HaL HaR HbL HbR HsL HsR HrL HrR.
    destruct (refill_short tmp wild fuel Read1Short Read1Zero bufL (swapBuffer_left s)
                (bufferSize_left s) (mLeft s) (usesCrlf s) HbL HsL HrL)
      as (L & HL & HeL & HabL & _ & HuL & _ & HszL & _).
    destruct (refill_short tmp wild fuel Read2Short Read2Zero bufR (swapBuffer_right s)
                (bufferSize_right s) (mRight s) (r_usesCrlf L) HbR HsR HrR)
      as (R & HR & HeR & HabR & _ & HuR & _ & HszR & _).
    destruct (round_last tmp wild fuel s bufL bufR restL restR L R Heof HaL HaR
                HL HabL HeL HR HabR HeR)
      as (p & s' & Hcall & _ & HpsL & _ & HpsR & _ & _ & _ & _ & _ & _ & _ & Hu').
    exists p, s'. split; [exact Hcall |].
    split; [rewrite Hu', HuR, HuL; reflexivity |].
    unfold width, pending_left, pending_right.
    rewrite HpsL, HpsR, HszL, HszR, HuL, !length_app, !length_firstn.
    split; f_equal; lia.
Qed.

(** The third part at work on a first call: a left file whose lines end
    with ['\n'], a right file whose lines end with ["\r\n"], chunks of 48
    bytes, a reserve of 24.  The scan of the right chunk sets the flag, and
    the size of the left chunk is set with it. *)
Lemma usesCrlf_after_call_witness :
  let buf := repeat NUL 48 in
  let s := new 48 (records TermLF 6 "@a" "A" "I") (records TermCRLF 4 "@b" "AC" "II")
             false [buf] [buf] in
  exists p s',
    readNextChunkPair_interleaved 24 zeros 3 s = Returned (Some p) s'
    /\ usesCrlf s' = usesCrlf s || ends_crlf TermLF || ends_crlf TermCRLF
    /\ size (leftpart p) = u64 (Z.of_nat (length buf) - bufferSize_left s' - width s')
    /\ size (rightpart p) = u64 (Z.of_nat (length buf) - bufferSize_right s' - width s').
Proof.
  intros buf s.
  pose (rl := {| rec_name := bytes "@a"; rec_sequence := bytes "A";
                 rec_strand := bytes "+"; rec_quality := bytes "I" |}).
  pose (rr := {| rec_name := bytes "@b"; rec_sequence := bytes "AC";
                 rec_strand := bytes "+"; rec_quality := bytes "II" |}).
  apply (proj1 (proj2 (proj2 usesCrlf_after_call)) 24 zeros 3%nat s buf buf [] []
           TermLF TermCRLF rl rl rr rr
           (render TermLF rl ++ render TermLF rl) (render TermLF rl ++ bytes "@a" ++ [LF])
           (render TermCRLF rr) (bytes "@b" ++ [CR])).
  all: try reflexivity.
  all: cbn; lia.
Defined.

End RoundFacts.

Module SessionFacts.

Import FastqChunkReaderPair Aux ReaderAux SessionAux ScannerFacts SkipFacts RecordFacts
       SplitterFacts CrlfFacts StreamFacts ChunkFacts LastRoundFacts RoundFacts.

(** *** Files of records *)












(** *** Buffers cut at a record start *)








(** *** The rounds of a session on matching files *)




(** *** A whole session *)






End SessionFacts.
